(** * MethodDevirtualizer: turning instance methods into static methods

    A shallow embedding of [opt/virtual_scope/MethodDevirtualizer.cpp] and
    the properties of its call-site rewriter, its receiver-usage analysis
    and its four-phase driver.

    Pointers are modelled as indices into stores ([DexMethod*] into the
    method table, [IRInstruction*] into the instruction heap), so that the
    in-place edits of the pass and the identity of a replaced instruction
    are visible.  Code that stops on [always_assert] returns
    [Fail AssertionFailure]; a dereference the C++ leaves undefined returns
    [Fail UndefinedBehaviour]. *)

From stdpp Require Import base option list gmap.
From Stdlib Require Import ZArith Lia.

Open Scope Z_scope.

#[local] Set Default Proof Using "Type".

(** ** Outcomes *)

Inductive Error := AssertionFailure | UndefinedBehaviour.

Inductive result (A : Type) :=
  | Ok (a : A)
  | Fail (e : Error).
Arguments Ok {A} a.
Arguments Fail {A} e.

#[global] Instance result_ret : MRet result := fun A a => Ok a.
#[global] Instance result_bind : MBind result := fun A B f m =>
  match m with
  | Ok a => f a
  | Fail e => Fail e
  end.

Definition always_assert (b : bool) : result unit :=
  if b then Ok tt else Fail AssertionFailure.

(** A pointer dereference: the index must be inside the store. *)
Definition deref {A} (store : list A) (p : nat) : result A :=
  match store !! p with
  | Some x => Ok x
  | None => Fail UndefinedBehaviour
  end.

(** [for (x : l) body] with an accumulated state. *)
Fixpoint for_each {A S} (body : A -> S -> result S) (l : list A) (s : S)
  : result S :=
  match l with
  | [] => Ok s
  | x :: l' => s' ← body x s; for_each body l' s'
  end.

(** ** 16-bit registers and counts *)

Definition wrap16 (z : Z) : Z := z mod 65536.

Definition u16 (z : Z) : Prop := 0 <= z < 65536.

(** ** Opcodes *)

Inductive DexOpcode :=
  | OPCODE_NOP
  | OPCODE_MOVE
  | OPCODE_MOVE_OBJECT
  | OPCODE_CONST
  | OPCODE_RETURN_VOID
  | OPCODE_RETURN_OBJECT
  | OPCODE_FILLED_NEW_ARRAY
  | OPCODE_FILLED_NEW_ARRAY_RANGE
  | OPCODE_INVOKE_VIRTUAL
  | OPCODE_INVOKE_SUPER
  | OPCODE_INVOKE_DIRECT
  | OPCODE_INVOKE_STATIC
  | OPCODE_INVOKE_INTERFACE
  | OPCODE_INVOKE_VIRTUAL_RANGE
  | OPCODE_INVOKE_SUPER_RANGE
  | OPCODE_INVOKE_DIRECT_RANGE
  | OPCODE_INVOKE_STATIC_RANGE
  | OPCODE_INVOKE_INTERFACE_RANGE
  | IOPCODE_LOAD_PARAM
  | IOPCODE_LOAD_PARAM_OBJECT
  | IOPCODE_LOAD_PARAM_WIDE.

#[global] Instance DexOpcode_eq_dec : EqDecision DexOpcode.
Proof. solve_decision. Defined.

Definition op_eqb (a b : DexOpcode) : bool := bool_decide (a = b).
Infix "==" := op_eqb (at level 70, no associativity).

Definition is_invoke_virtual (op : DexOpcode) : bool :=
  (op == OPCODE_INVOKE_VIRTUAL) || (op == OPCODE_INVOKE_VIRTUAL_RANGE).

Definition is_invoke_super (op : DexOpcode) : bool :=
  (op == OPCODE_INVOKE_SUPER) || (op == OPCODE_INVOKE_SUPER_RANGE).

Definition is_invoke_direct (op : DexOpcode) : bool :=
  (op == OPCODE_INVOKE_DIRECT) || (op == OPCODE_INVOKE_DIRECT_RANGE).

Definition is_invoke_static (op : DexOpcode) : bool :=
  (op == OPCODE_INVOKE_STATIC) || (op == OPCODE_INVOKE_STATIC_RANGE).

(** Modelled from the spec: the opcode predicates of the instruction format
    that the pass uses but does not define.  [is_invoke_range] holds of the
    range-encoded call opcodes, [has_range] of every opcode whose operands
    are a register window. *)
Definition is_invoke_range (op : DexOpcode) : bool :=
  match op with
  | OPCODE_INVOKE_VIRTUAL_RANGE | OPCODE_INVOKE_SUPER_RANGE
  | OPCODE_INVOKE_DIRECT_RANGE | OPCODE_INVOKE_STATIC_RANGE
  | OPCODE_INVOKE_INTERFACE_RANGE => true
  | _ => false
  end.

Definition has_range (op : DexOpcode) : bool :=
  is_invoke_range op || (op == OPCODE_FILLED_NEW_ARRAY_RANGE).

Definition invoke_virtual_to_static (op : DexOpcode) : result DexOpcode :=
  match op with
  | OPCODE_INVOKE_VIRTUAL => Ok OPCODE_INVOKE_STATIC
  | OPCODE_INVOKE_VIRTUAL_RANGE => Ok OPCODE_INVOKE_STATIC_RANGE
  | _ => Fail AssertionFailure
  end.

Definition invoke_super_to_static (op : DexOpcode) : result DexOpcode :=
  match op with
  | OPCODE_INVOKE_SUPER => Ok OPCODE_INVOKE_STATIC
  | OPCODE_INVOKE_SUPER_RANGE => Ok OPCODE_INVOKE_STATIC_RANGE
  | _ => Fail AssertionFailure
  end.

Definition invoke_direct_to_static (op : DexOpcode) : result DexOpcode :=
  match op with
  | OPCODE_INVOKE_DIRECT => Ok OPCODE_INVOKE_STATIC
  | OPCODE_INVOKE_DIRECT_RANGE => Ok OPCODE_INVOKE_STATIC_RANGE
  | _ => Fail AssertionFailure
  end.

(** ** Instructions *)

(** A [DexMethod*], an [IRInstruction*] and a [DexClass*]. *)
Abbreviation MethodId := nat (only parsing).
Abbreviation addr := nat (only parsing).
Abbreviation ClassId := nat (only parsing).

(** Modelled from the spec: the instruction object (section 3, Instruction):
    an opcode, an optional call-target reference, the ordered source
    operands of the explicit form, the (base, size) window of the range
    form, and a destination register.  Registers and counts are 16 bits
    wide; the argument word count of the explicit form is the number of
    source operands. *)
Record IRInstruction := mkInsn {
  m_opcode : DexOpcode;
  m_method : option MethodId;
  m_srcs : list Z;
  m_dest : Z;
  m_range_base : Z;
  m_range_size : Z
}.

Definition new_IRInstruction (op : DexOpcode) : IRInstruction :=
  mkInsn op None [] 0 0 0.

Definition opcode (i : IRInstruction) : DexOpcode := m_opcode i.
Definition has_method (i : IRInstruction) : bool := bool_decide (is_Some (m_method i)).
Definition get_method (i : IRInstruction) : option MethodId := m_method i.
Definition dest (i : IRInstruction) : Z := m_dest i.
Definition range_base (i : IRInstruction) : Z := m_range_base i.
Definition range_size (i : IRInstruction) : Z := m_range_size i.
Definition srcs_size (i : IRInstruction) : nat := length (m_srcs i).
Definition arg_word_count (i : IRInstruction) : Z :=
  wrap16 (Z.of_nat (length (m_srcs i))).

(** [src(i)] is checked: an index past the operands is a fault. *)
Definition src (i : IRInstruction) (k : nat) : result Z := deref (m_srcs i) k.

Definition set_opcode (i : IRInstruction) (op : DexOpcode) : IRInstruction :=
  mkInsn op (m_method i) (m_srcs i) (m_dest i) (m_range_base i) (m_range_size i).

Definition set_method (i : IRInstruction) (m : MethodId) : IRInstruction :=
  mkInsn (m_opcode i) (Some m) (m_srcs i) (m_dest i) (m_range_base i)
         (m_range_size i).

Definition set_src (i : IRInstruction) (k : nat) (reg : Z) : result IRInstruction :=
  if bool_decide (k < length (m_srcs i))%nat
  then Ok (mkInsn (m_opcode i) (m_method i) (<[k := wrap16 reg]> (m_srcs i))
                  (m_dest i) (m_range_base i) (m_range_size i))
  else Fail UndefinedBehaviour.

(** [set_arg_word_count(count)] resizes the operand list to [count]
    entries, cutting it or filling it with register 0. *)
Definition set_arg_word_count (i : IRInstruction) (count : Z) : IRInstruction :=
  let n := Z.to_nat (wrap16 count) in
  mkInsn (m_opcode i) (m_method i)
         (take n (m_srcs i) ++ replicate (n - length (m_srcs i)) 0)
         (m_dest i) (m_range_base i) (m_range_size i).

Definition set_range_base (i : IRInstruction) (base : Z) : IRInstruction :=
  mkInsn (m_opcode i) (m_method i) (m_srcs i) (m_dest i) (wrap16 base)
         (m_range_size i).

Definition set_range_size (i : IRInstruction) (size : Z) : IRInstruction :=
  mkInsn (m_opcode i) (m_method i) (m_srcs i) (m_dest i) (m_range_base i)
         (wrap16 size).

(** The body of the operand loop of the drop-receiver rewrite (line 122):
    [inst->set_src(i, inst->src(i + 1))]. *)
Definition shift_src (i : nat) (inst : IRInstruction) : result IRInstruction :=
  reg ← src inst (i + 1);
  set_src inst i reg.

(** ** The outcome report *)

Record DevirtualizerMetrics := mkMetrics {
  num_methods_not_using_this : nat;
  num_methods_using_this : nat;
  num_virtual_calls : nat;
  num_super_calls : nat;
  num_direct_calls : nat
}.

Definition fresh_metrics : DevirtualizerMetrics := mkMetrics 0 0 0 0 0.

Definition incr_virtual_calls (m : DevirtualizerMetrics) : DevirtualizerMetrics :=
  mkMetrics (num_methods_not_using_this m) (num_methods_using_this m)
            (S (num_virtual_calls m)) (num_super_calls m) (num_direct_calls m).

Definition incr_super_calls (m : DevirtualizerMetrics) : DevirtualizerMetrics :=
  mkMetrics (num_methods_not_using_this m) (num_methods_using_this m)
            (num_virtual_calls m) (S (num_super_calls m)) (num_direct_calls m).

Definition incr_direct_calls (m : DevirtualizerMetrics) : DevirtualizerMetrics :=
  mkMetrics (num_methods_not_using_this m) (num_methods_using_this m)
            (num_virtual_calls m) (num_super_calls m) (S (num_direct_calls m)).

(** ** Patching one call site *)

Definition patch_call_site (callee : MethodId) (method_inst : IRInstruction)
    (metrics : DevirtualizerMetrics)
  : result (IRInstruction * DevirtualizerMetrics) :=
  let op := opcode method_inst in
  '(method_inst, metrics) ←
    (if is_invoke_virtual op then
       op' ← invoke_virtual_to_static op;
       mret (set_opcode method_inst op', incr_virtual_calls metrics)
     else if is_invoke_super op then
       op' ← invoke_super_to_static op;
       mret (set_opcode method_inst op', incr_super_calls metrics)
     else if is_invoke_direct op then
       op' ← invoke_direct_to_static op;
       mret (set_opcode method_inst op', incr_direct_calls metrics)
     else Fail AssertionFailure);
  mret (set_method method_inst callee, metrics).

(** ** Methods, classes and the program *)

(** Method bodies: the instructions of an [IRCode], in order, each by its
    address in the instruction heap. *)
Abbreviation IRCode := (list addr) (only parsing).

(** Modelled from the spec: the method object (section 3, Method), with the
    attributes the pass reads: whether it is a definition, external,
    abstract, static, a constructor or class initializer, its declaring
    class (absent when the class is not loaded) and its body (absent when
    the method has no code). *)
Record DexMethod := mkMethod {
  is_concrete : bool;
  is_external : bool;
  is_abstract : bool;
  is_static : bool;
  is_any_init : bool;
  get_class : option ClassId;
  get_code : option IRCode
}.

(** Modelled from the spec: a class exposes its direct and its virtual
    methods (section 3, Class Scope). *)
Record DexClass := mkClass {
  get_dmethods : list MethodId;
  get_vmethods : list MethodId
}.

Record Program := mkProgram {
  classes : list DexClass;
  methods : list DexMethod;
  insns : list IRInstruction
}.

Definition set_insns (p : Program) (h : list IRInstruction) : Program :=
  mkProgram (classes p) (methods p) h.

Definition set_methods (p : Program) (ms : list DexMethod) : Program :=
  mkProgram (classes p) ms (insns p).

(** An in-place edit of the instruction at [a]. *)
Definition store_insn (p : Program) (a : addr) (i : IRInstruction) : Program :=
  set_insns p (<[a := i]> (insns p)).

(** [new IRInstruction]: the object gets an address no instruction has. *)
Definition alloc_insn (p : Program) (i : IRInstruction) : Program * addr :=
  (set_insns p (insns p ++ [i]), length (insns p)).

Definition set_code (dm : DexMethod) (code : option IRCode) : DexMethod :=
  mkMethod (is_concrete dm) (is_external dm) (is_abstract dm) (is_static dm)
           (is_any_init dm) (get_class dm) code.

Definition set_static (dm : DexMethod) : DexMethod :=
  mkMethod (is_concrete dm) (is_external dm) (is_abstract dm) true
           (is_any_init dm) (get_class dm) (get_code dm).

(** Modelled from the spec: [IRCode::replace_opcode] takes the original
    instruction out of the stream and puts the replacement in its place
    (section 4.3). *)
Fixpoint replace_opcode (code : IRCode) (from to : addr) : IRCode :=
  match code with
  | [] => []
  | a :: rest =>
      if bool_decide (a = from) then to :: rest
      else a :: replace_opcode rest from to
  end.

(** The loop over the recorded replacements (lines 127-129). *)
Definition apply_replacements (code : IRCode)
    (replacements : list (addr * addr)) : IRCode :=
  foldl (fun code pair => replace_opcode code pair.1 pair.2) code replacements.

(** Modelled from the spec: the instruction iteration utilities
    (section 6).  [walk_code] visits the body of every method of every
    class of the scope that has one, direct methods before virtual ones;
    [walk_opcodes] visits every instruction of those bodies. *)
Definition walk_methods {S} (prog_of : S -> Program) (scope : list ClassId)
    (walker : MethodId -> S -> result S) (s : S) : result S :=
  for_each (fun c s =>
      cls ← deref (classes (prog_of s)) c;
      for_each walker (get_dmethods cls ++ get_vmethods cls) s)
    scope s.

Definition walk_code {S} (prog_of : S -> Program) (scope : list ClassId)
    (walker : MethodId -> IRCode -> S -> result S) (s : S) : result S :=
  walk_methods prog_of scope (fun m s =>
      dm ← deref (methods (prog_of s)) m;
      match get_code dm with
      | Some code => walker m code s
      | None => Ok s
      end) s.

Definition walk_opcodes {S} (prog_of : S -> Program) (scope : list ClassId)
    (walker : MethodId -> addr -> S -> result S) (s : S) : result S :=
  walk_code prog_of scope (fun m code s => for_each (walker m) code s) s.

Inductive MethodSearch := Direct | Static | Virtual | Any | Interface.

Inductive KeepThis := KeepThisNo | KeepThisYes.

(** The state the rewriter works on: the program under transformation and
    the outcome report. *)
Abbreviation State := (Program * DevirtualizerMetrics)%type (only parsing).

Section Devirtualizer.

(** The external collaborators (section 6 of the spec): the method
    resolver, which answers with a method or with no method; the retention
    policy; the monomorphic-dispatch analysis. *)
Variable resolve_method : MethodId -> MethodSearch -> option MethodId.
Variable keep : MethodId -> bool.
Variable devirtualize : Program -> list ClassId -> list MethodId.

(** The method a call instruction is taken to call: its reference when
    that is a definition, what the resolver finds for it otherwise
    (lines 102-105 and 143-146). *)
Definition call_target (p : Program) (search : MethodSearch) (method : MethodId)
  : result (option MethodId) :=
  dm ← deref (methods p) method;
  if is_concrete dm then mret (Some method)
  else mret (resolve_method method search).

(** *** The drop-receiver rewrite *)

(** The body of the loop over one method's instructions (lines 98-125);
    the third component is the list of pending replacements. *)
Definition drop_this_arg_step (statics : gset MethodId) (a : addr)
    (st : State * list (addr * addr)) : result (State * list (addr * addr)) :=
  let '((p, metrics), replacements) := st in
  inst ← deref (insns p) a;
  match get_method inst with
  | None => mret st
  | Some method =>
      target ← call_target p Any method;
      match target with
      | None => mret st
      | Some method =>
          if bool_decide (method ∈ statics) then
            '(inst, metrics) ← patch_call_site method inst metrics;
            if is_invoke_range (opcode inst) then
              if bool_decide (range_size inst = 1) then
                let repl := new_IRInstruction OPCODE_INVOKE_STATIC in
                let repl := set_arg_word_count (set_method repl method) 0 in
                let '(p, r) := alloc_insn (store_insn p a inst) repl in
                mret ((p, metrics), replacements ++ [(a, r)])
              else
                let inst := set_range_base inst (range_base inst + 1) in
                let inst := set_range_size inst (range_size inst - 1) in
                mret ((store_insn p a inst, metrics), replacements)
            else
              let nargs := arg_word_count inst in
              inst ← for_each shift_src (seq 0 (Z.to_nat (nargs - 1))) inst;
              let inst := set_arg_word_count inst (nargs - 1) in
              mret ((store_insn p a inst, metrics), replacements)
          else mret st
      end
  end.

(** The per-method fixer (lines 95-130): scan, then apply the recorded
    replacements to the method's stream. *)
Definition drop_this_arg_fixer (statics : gset MethodId) (m : MethodId)
    (code : IRCode) (st : State) : result State :=
  '((p, metrics), replacements) ←
    for_each (drop_this_arg_step statics) code (st, []);
  let code := apply_replacements code replacements in
  dm ← deref (methods p) m;
  mret (set_methods p (<[m := set_code dm (Some code)]> (methods p)), metrics).

Definition fix_call_sites_and_drop_this_arg (scope : list ClassId)
    (statics : gset MethodId) (st : State) : result State :=
  walk_code fst scope (drop_this_arg_fixer statics) st.

(** *** The keep-receiver rewrite *)

Definition fix_call_sites_fixer (target_methods : gset MethodId)
    (_ : MethodId) (a : addr) (st : State) : result State :=
  let '(p, metrics) := st in
  insn ← deref (insns p) a;
  match get_method insn with
  | None => mret st
  | Some method =>
      target ← call_target p Virtual method;
      match target with
      | None => mret st
      | Some method =>
          if bool_decide (method ∈ target_methods) then
            _ ← always_assert (negb (is_invoke_static (opcode insn)));
            '(insn, metrics) ← patch_call_site method insn metrics;
            mret (store_insn p a insn, metrics)
          else mret st
      end
  end.

Definition fix_call_sites (scope : list ClassId)
    (target_methods : gset MethodId) (st : State) : result State :=
  walk_opcodes fst scope (fix_call_sites_fixer target_methods) st.

(** *** Making the methods static *)

(** Modelled from the spec: the callee-side staticizer (section 6) marks
    the method static and, when the receiver is not kept, removes the
    parameter-load instruction of the body and moves every register
    reference of the remaining instructions down by one. *)
Definition shift_registers (i : IRInstruction) : IRInstruction :=
  mkInsn (m_opcode i) (m_method i) (map (fun r => wrap16 (r - 1)) (m_srcs i))
         (wrap16 (m_dest i - 1)) (wrap16 (m_range_base i - 1)) (m_range_size i).

Definition make_static (method : MethodId) (keep_this : KeepThis) (p : Program)
  : result Program :=
  dm ← deref (methods p) method;
  let dm := set_static dm in
  match keep_this, get_code dm with
  | KeepThisNo, Some (_ :: rest) =>
      heap ← for_each (fun a heap =>
                  i ← deref heap a;
                  mret (<[a := shift_registers i]> heap))
                rest (insns p);
      mret (mkProgram (classes p)
                      (<[method := set_code dm (Some rest)]> (methods p)) heap)
  | _, _ => mret (set_methods p (<[method := dm]> (methods p)))
  end.

Definition make_methods_static (methods : gset MethodId) (keep_this : bool)
    (p : Program) : result Program :=
  for_each (fun method p =>
      make_static method (if keep_this then KeepThisYes else KeepThisNo) p)
    (elements methods) p.

(** *** The receiver-usage analysis *)

(** The loop of [uses_this] (lines 178-191). *)
Fixpoint uses_this_scan (heap : list IRInstruction) (this_reg : Z)
    (code : IRCode) : result bool :=
  match code with
  | [] => Ok false
  | a :: rest =>
      insn ← deref heap a;
      if has_range (opcode insn)
         && ((range_base insn <=? this_reg)
             && (this_reg <? range_base insn + range_size insn))
      then Ok true
      else if existsb (Z.eqb this_reg) (m_srcs insn) then Ok true
      else uses_this_scan heap this_reg rest
  end.

Definition uses_this (p : Program) (method : MethodId) : result bool :=
  dm ← deref (methods p) method;
  match get_code dm with
  | None => Fail AssertionFailure
  | Some code =>
      match code with
      | [] => Fail UndefinedBehaviour
      | a :: _ =>
          this_insn ← deref (insns p) a;
          _ ← always_assert (opcode this_insn == IOPCODE_LOAD_PARAM_OBJECT);
          let this_reg := dest this_insn in
          uses_this_scan (insns p) this_reg code
      end
  end.

(** *** The candidates *)

Definition get_devirtualizable_vmethods (p : Program) (scope : list ClassId)
    (targets : list ClassId) : result (list MethodId) :=
  let vmethods := devirtualize p scope in
  let targets_set : gset ClassId := list_to_set targets in
  for_each (fun m ret =>
      dm ← deref (methods p) m;
      match get_class dm with
      | Some cls =>
          if bool_decide (cls ∈ targets_set) then mret (ret ++ [m])
          else mret ret
      | None => mret ret
      end)
    vmethods [].

Definition get_devirtualizable_dmethods (p : Program) (scope : list ClassId)
    (targets : list ClassId) : result (list MethodId) :=
  let targets_set : gset ClassId := list_to_set targets in
  for_each (fun cls ret =>
      if bool_decide (cls ∈ targets_set) then
        c ← deref (classes p) cls;
        for_each (fun m ret =>
            dm ← deref (methods p) m;
            if is_any_init dm || is_static dm then mret ret
            else mret (ret ++ [m]))
          (get_dmethods c) ret
      else mret ret)
    scope [].

Definition devirtualizable_methods (p : Program) (candidates : list MethodId)
  : result (gset MethodId) :=
  for_each (fun method (found : gset MethodId) =>
      dm ← deref (methods p) method;
      if keep method || is_external dm || is_abstract dm then mret found
      else mret ({[method]} ∪ found))
    candidates ∅.

Definition devirtualizable_methods_not_using_this (p : Program)
    (candidates : list MethodId) : result (gset MethodId) :=
  eligible ← devirtualizable_methods p candidates;
  for_each (fun method (found : gset MethodId) =>
      used ← uses_this p method;
      if used : bool then mret found
      else mret ({[method]} ∪ found))
    (elements eligible) ∅.

(** *** The four phases *)

Definition add_not_using_this (n : nat) (m : DevirtualizerMetrics)
  : DevirtualizerMetrics :=
  mkMetrics (num_methods_not_using_this m + n) (num_methods_using_this m)
            (num_virtual_calls m) (num_super_calls m) (num_direct_calls m).

Definition add_using_this (n : nat) (m : DevirtualizerMetrics)
  : DevirtualizerMetrics :=
  mkMetrics (num_methods_not_using_this m) (num_methods_using_this m + n)
            (num_virtual_calls m) (num_super_calls m) (num_direct_calls m).

Definition staticize_methods_not_using_this (scope : list ClassId)
    (methods : gset MethodId) (st : State) : result State :=
  '(p, metrics) ← fix_call_sites_and_drop_this_arg scope methods st;
  p ← make_methods_static methods false p;
  mret (p, add_not_using_this (size methods) metrics).

Definition staticize_methods_using_this (scope : list ClassId)
    (methods : gset MethodId) (st : State) : result State :=
  '(p, metrics) ← fix_call_sites scope methods st;
  p ← make_methods_static methods true p;
  mret (p, add_using_this (size methods) metrics).

Record DevirtualizerConfigs := mkConfigs {
  vmethods_not_using_this : bool;
  vmethods_using_this : bool;
  dmethods_not_using_this : bool;
  dmethods_using_this : bool
}.

(** The four blocks of [devirtualize_methods] (lines 285-307), in the
    order of the source. *)
Definition vmethods_not_using_this_phase (scope target_classes : list ClassId)
    (st : State) : result State :=
  candidates ← get_devirtualizable_vmethods st.1 scope target_classes;
  vmethods ← devirtualizable_methods_not_using_this st.1 candidates;
  staticize_methods_not_using_this scope vmethods st.

Definition dmethods_not_using_this_phase (scope target_classes : list ClassId)
    (st : State) : result State :=
  candidates ← get_devirtualizable_dmethods st.1 scope target_classes;
  dmethods ← devirtualizable_methods_not_using_this st.1 candidates;
  staticize_methods_not_using_this scope dmethods st.

Definition vmethods_using_this_phase (scope target_classes : list ClassId)
    (st : State) : result State :=
  candidates ← get_devirtualizable_vmethods st.1 scope target_classes;
  vmethods ← devirtualizable_methods st.1 candidates;
  staticize_methods_using_this scope vmethods st.

Definition dmethods_using_this_phase (scope target_classes : list ClassId)
    (st : State) : result State :=
  candidates ← get_devirtualizable_dmethods st.1 scope target_classes;
  dmethods ← devirtualizable_methods st.1 candidates;
  staticize_methods_using_this scope dmethods st.

Definition when (b : bool) (phase : State -> result State) (st : State)
  : result State :=
  if b then phase st else Ok st.

(** [devirtualize_methods(stores, target_classes)]; [scope] stands for
    [build_class_scope(stores)] and the metrics of [st] for [m_metrics]. *)
Definition devirtualize_methods (m_config : DevirtualizerConfigs)
    (scope target_classes : list ClassId) (st : State) : result State :=
  st ← when (vmethods_not_using_this m_config)
         (vmethods_not_using_this_phase scope target_classes) st;
  st ← when (dmethods_not_using_this m_config)
         (dmethods_not_using_this_phase scope target_classes) st;
  st ← when (vmethods_using_this m_config)
         (vmethods_using_this_phase scope target_classes) st;
  when (dmethods_using_this m_config)
       (dmethods_using_this_phase scope target_classes) st.

(** [devirtualize_methods(stores)]: every class of the scope is a
    target. *)
Definition devirtualize_methods_all (m_config : DevirtualizerConfigs)
    (scope : list ClassId) (st : State) : result State :=
  devirtualize_methods m_config scope scope st.

End Devirtualizer.

(** * Specification-side notions *)

(** The number of argument registers a call instruction passes: the window
    size in range form, the argument word count in explicit form. *)
Definition arg_count (i : IRInstruction) : Z :=
  if is_invoke_range (opcode i) then range_size i else arg_word_count i.

(** The call kinds the rewriter converts. *)
Definition is_instance_invoke (op : DexOpcode) : bool :=
  is_invoke_virtual op || is_invoke_super op || is_invoke_direct op.

(** The values an [IRInstruction] can hold: 16-bit registers and counts,
    and a window inside the register file. *)
Record wf_insn (i : IRInstruction) : Prop := mk_wf_insn {
  wf_srcs : Forall u16 (m_srcs i);
  wf_srcs_size : Z.of_nat (length (m_srcs i)) < 65536;
  wf_range_base : u16 (m_range_base i);
  wf_range_size : u16 (m_range_size i);
  wf_window : m_range_base i + m_range_size i <= 65536
}.

(** [reads i r]: instruction [i] has register [r] among its source
    operands or inside its register window. *)
Definition reads (i : IRInstruction) (r : Z) : Prop :=
  r ∈ m_srcs i \/
  (has_range (opcode i) = true /\ range_base i <= r < range_base i + range_size i).

(** The static call opcode in the encoding form of [op], and the counter
    of the call kind of [op]: what [patch_call_site] does to the opcodes it
    accepts. *)
Definition static_form (op : DexOpcode) : DexOpcode :=
  if is_invoke_range op then OPCODE_INVOKE_STATIC_RANGE else OPCODE_INVOKE_STATIC.

Definition count_kind (op : DexOpcode) (m : DevirtualizerMetrics)
  : DevirtualizerMetrics :=
  if is_invoke_virtual op then incr_virtual_calls m
  else if is_invoke_super op then incr_super_calls m
  else incr_direct_calls m.

Definition with_srcs (i : IRInstruction) (l : list Z) : IRInstruction :=
  mkInsn (m_opcode i) (m_method i) l (m_dest i) (m_range_base i) (m_range_size i).

(** Where an address of a stream ends up once the replacements
    [(from, to)] have been applied in order. *)
Definition subst_addr (pair : addr * addr) (x : addr) : addr :=
  if bool_decide (x = pair.1) then pair.2 else x.

Definition subst_all (replacements : list (addr * addr)) (x : addr) : addr :=
  foldl (fun y pair => subst_addr pair y) x replacements.

(** The call sites a rewrite patches.  [site_opcode] is the opcode of the
    instruction at [a] when that instruction is a call whose target, found
    with the given search, is in the target set; [patched_sites] lists
    these opcodes along a stream. *)
Section Sites.

Variable resolve_method : MethodId -> MethodSearch -> option MethodId.

Definition site_opcode (p : Program) (search : MethodSearch)
    (targets : gset MethodId) (a : addr) : option DexOpcode :=
  inst ← insns p !! a;
  mref ← get_method inst;
  dm ← methods p !! mref;
  t ← (if is_concrete dm then Some mref else resolve_method mref search);
  if bool_decide (t ∈ targets) then Some (opcode inst) else None.

(** [rewritable statics p a]: the drop-receiver rewrite can process the
    instruction at [a]: the instruction exists, its call-target reference,
    if any, is a method of the program, and when its target is in the set
    it is a virtual, super or direct call. *)
Definition rewritable (statics : gset MethodId) (p : Program) (a : addr)
  : Prop :=
  exists inst,
    insns p !! a = Some inst /\
    match get_method inst with
    | None => True
    | Some mref =>
        exists dm,
          methods p !! mref = Some dm /\
          match (if is_concrete dm then Some mref
                 else resolve_method mref Any) with
          | Some t => t ∈ statics -> is_instance_invoke (opcode inst) = true
          | None => True
          end
    end.

Definition patched_sites (p : Program) (search : MethodSearch)
    (targets : gset MethodId) (code : list addr) : list DexOpcode :=
  omap (site_opcode p search targets) code.

End Sites.

Definition count_calls (kind : DexOpcode -> bool) (sites : list DexOpcode)
  : nat :=
  length (List.filter kind sites).

(** The counters after a rewrite that patched [sites], against the
    counters before it. *)
Record counters_grow (before after : DevirtualizerMetrics)
    (sites : list DexOpcode) : Prop := mk_counters_grow {
  grow_virtual :
    num_virtual_calls after
    = (num_virtual_calls before + count_calls is_invoke_virtual sites)%nat;
  grow_super :
    num_super_calls after
    = (num_super_calls before + count_calls is_invoke_super sites)%nat;
  grow_direct :
    num_direct_calls after
    = (num_direct_calls before + count_calls is_invoke_direct sites)%nat;
  grow_total :
    (count_calls is_invoke_virtual sites + count_calls is_invoke_super sites
     + count_calls is_invoke_direct sites)%nat = length sites;
  grow_not_using :
    num_methods_not_using_this after = num_methods_not_using_this before;
  grow_using :
    num_methods_using_this after = num_methods_using_this before
}.

(** The test [uses_this] makes on one instruction. *)
Definition reads_test (i : IRInstruction) (r : Z) : bool :=
  (has_range (opcode i)
   && ((range_base i <=? r) && (r <? range_base i + range_size i)))
  || existsb (Z.eqb r) (m_srcs i).

(** [static_at p m]: method [m] of program [p] is declared static. *)
Definition static_at (p : Program) (m : MethodId) : Prop :=
  exists dm, methods p !! m = Some dm /\ is_static dm = true.

(** Static methods stay static. *)
Definition static_mono (p p' : Program) : Prop :=
  forall m, static_at p m -> static_at p' m.

(** A method the eligibility filter lets through: not kept, not
    external, not abstract. *)
Definition eligible (keep : MethodId -> bool) (p : Program) (m : MethodId)
  : Prop :=
  exists dm, methods p !! m = Some dm /\
             keep m = false /\ is_external dm = false /\ is_abstract dm = false.

(** A method whose body is absent or does not start with the receiver
    load. *)
Definition no_receiver_load (p : Program) (m : MethodId) : Prop :=
  exists dm, methods p !! m = Some dm /\
    (get_code dm = None \/
     exists a rest i, get_code dm = Some (a :: rest) /\
                      insns p !! a = Some i /\
                      opcode i <> IOPCODE_LOAD_PARAM_OBJECT).

(** Every body has a first instruction and only points to instructions. *)
Definition bodies_valid (p : Program) : Prop :=
  forall m dm code,
    methods p !! m = Some dm -> get_code dm = Some code ->
    code <> [] /\ Forall (fun a => is_Some (insns p !! a)) code.

(** The methods a walk over the scope visits, in order, and the
    instructions of their bodies: what [walk_code] and [walk_opcodes] go
    through when every class and method of the scope exists. *)
Fixpoint scope_methods (p : Program) (scope : list ClassId)
  : option (list MethodId) :=
  match scope with
  | [] => Some []
  | c :: scope' =>
      cls ← classes p !! c;
      rest ← scope_methods p scope';
      Some ((get_dmethods cls ++ get_vmethods cls) ++ rest)
  end.

Fixpoint methods_stream (p : Program) (ms : list MethodId)
  : option (list addr) :=
  match ms with
  | [] => Some []
  | m :: ms' =>
      dm ← methods p !! m;
      rest ← methods_stream p ms';
      Some (default [] (get_code dm) ++ rest)
  end.

Definition scope_stream (p : Program) (scope : list ClassId)
  : option (list addr) :=
  ms ← scope_methods p scope; methods_stream p ms.

(** The visit of one method by [walk_code] with the drop-receiver fixer,
    and by [walk_opcodes] with the keep-receiver walker. *)
Definition drop_this_arg_visit
    (resolve_method : MethodId -> MethodSearch -> option MethodId)
    (statics : gset MethodId) (m : MethodId)
    (s : Program * DevirtualizerMetrics)
  : result (Program * DevirtualizerMetrics) :=
  dm ← deref (methods s.1) m;
  match get_code dm with
  | Some code => drop_this_arg_fixer resolve_method statics m code s
  | None => Ok s
  end.

Definition fix_call_sites_visit
    (resolve_method : MethodId -> MethodSearch -> option MethodId)
    (target_methods : gset MethodId) (m : MethodId)
    (s : Program * DevirtualizerMetrics)
  : result (Program * DevirtualizerMetrics) :=
  dm ← deref (methods s.1) m;
  match get_code dm with
  | Some code =>
      for_each (fix_call_sites_fixer resolve_method target_methods m) code s
  | None => Ok s
  end.

(** [agrees p q ms stream]: the program [q], reached from [p] in the
    course of a rewrite, still has the methods [ms] and the instructions
    of [stream] as [p] has them, and the same definitions. *)
Definition agrees (p q : Program) (ms : list MethodId) (stream : list addr)
  : Prop :=
  (forall m, m ∈ ms -> methods q !! m = methods p !! m) /\
  (forall m, is_concrete <$> methods q !! m = is_concrete <$> methods p !! m) /\
  (length (insns p) <= length (insns q))%nat /\
  (forall a, a ∈ stream -> insns q !! a = insns p !! a).

(** What [devirtualize_methods] returns: the metrics. *)
Definition report (r : result (Program * DevirtualizerMetrics))
  : result DevirtualizerMetrics :=
  '(_, metrics) ← r; mret metrics.

(** ** Notions for the rewrites over a whole scope *)

Section Targets.

Variable resolve_method : MethodId -> MethodSearch -> option MethodId.

(** The method a rewrite takes the instruction at [a] to call, when that
    method is in the target set. *)
Definition site_target (p : Program) (search : MethodSearch)
    (targets : gset MethodId) (a : addr) : option MethodId :=
  inst ← insns p !! a;
  mref ← get_method inst;
  dm ← methods p !! mref;
  t ← (if is_concrete dm then Some mref else resolve_method mref search);
  if bool_decide (t ∈ targets) then Some t else None.

(** [patchable search targets p a]: a rewrite that resolves with [search]
    can process the instruction at [a]: the instruction exists, its
    call-target reference, if any, is a method of the program, and when
    its target is in the set it is a virtual, super or direct call. *)
Definition patchable (search : MethodSearch) (targets : gset MethodId)
    (p : Program) (a : addr) : Prop :=
  exists inst,
    insns p !! a = Some inst /\
    match get_method inst with
    | None => True
    | Some mref =>
        exists dm,
          methods p !! mref = Some dm /\
          match (if is_concrete dm then Some mref
                 else resolve_method mref search) with
          | Some t => t ∈ targets -> is_instance_invoke (opcode inst) = true
          | None => True
          end
    end.

(** [untargeted search targets p a]: the instruction at [a] exists, its
    call-target reference, if any, is a method of the program, and its
    target is not in the set. *)
Definition untargeted (search : MethodSearch) (targets : gset MethodId)
    (p : Program) (a : addr) : Prop :=
  exists inst,
    insns p !! a = Some inst /\
    match get_method inst with
    | None => True
    | Some mref =>
        exists dm,
          methods p !! mref = Some dm /\
          match (if is_concrete dm then Some mref
                 else resolve_method mref search) with
          | Some t => t ∉ targets
          | None => True
          end
    end.

(** The instruction the keep-receiver rewrite for [targets] leaves where
    [inst] was, at [a]: with the static opcode of its form and the target
    as its reference when the target is in the set, as it was otherwise. *)
Definition keep_patched (p : Program) (targets : gset MethodId) (a : addr)
    (inst : IRInstruction) : IRInstruction :=
  match site_target p Virtual targets a with
  | Some t => set_method (set_opcode inst (static_form (opcode inst))) t
  | None => inst
  end.

End Targets.

(** No counter of the report went down. *)
Record metrics_le (before after : DevirtualizerMetrics) : Prop := mk_metrics_le {
  le_not_using :
    (num_methods_not_using_this before <= num_methods_not_using_this after)%nat;
  le_using :
    (num_methods_using_this before <= num_methods_using_this after)%nat;
  le_virtual : (num_virtual_calls before <= num_virtual_calls after)%nat;
  le_super : (num_super_calls before <= num_super_calls after)%nat;
  le_direct : (num_direct_calls before <= num_direct_calls after)%nat
}.

(** What a call-site rewrite may do to the report: the call counters do
    not go down and the method counters stay. *)
Definition calls_counted (before after : DevirtualizerMetrics) : Prop :=
  metrics_le before after /\
  num_methods_not_using_this after = num_methods_not_using_this before /\
  num_methods_using_this after = num_methods_using_this before.

(** Whether the class that declares [m] is one of [targets]. *)
Definition declared_in (p : Program) (targets : list ClassId) (m : MethodId)
  : bool :=
  match methods p !! m with
  | Some dm =>
      match get_class dm with
      | Some cls => bool_decide (cls ∈ targets)
      | None => false
      end
  | None => false
  end.

(** A direct method that can be a candidate: neither a constructor or
    class initializer nor static. *)
Definition instance_dmethod (p : Program) (m : MethodId) : Prop :=
  exists dm, methods p !! m = Some dm /\
             is_any_init dm = false /\ is_static dm = false.

(** The instruction at [a] exists and its call-target reference, if it has
    one, is a method of the program. *)
Definition valid_site (p : Program) (a : addr) : Prop :=
  exists inst,
    insns p !! a = Some inst /\
    forall mref, get_method inst = Some mref -> is_Some (methods p !! mref).

(** The instruction at [a] is a static call of [t]. *)
Definition static_call_of (p : Program) (t : MethodId) (a : addr) : Prop :=
  exists inst,
    insns p !! a = Some inst /\
    is_invoke_static (opcode inst) = true /\
    get_method inst = Some t.

(** [body_rewritten resolve_method statics p p' dm dm']: the method [dm']
    of [p'] is the method [dm] of [p] after the drop-receiver rewrite for
    [statics]: the same declaration with a body of the same length, in
    which a place whose instruction did not reach the set holds the
    address it held, and a place whose instruction called [t] of the set
    holds the address of a static call of [t], the one it held or one
    allocated by the rewrite. *)
Definition body_rewritten
    (resolve_method : MethodId -> MethodSearch -> option MethodId)
    (statics : gset MethodId) (p p' : Program) (dm dm' : DexMethod) : Prop :=
  match get_code dm with
  | None => dm' = dm
  | Some code =>
      exists code' : list addr,
        dm' = set_code dm (Some code') /\
        length code' = length code /\
        forall (k : nat) (a : addr),
          code !! k = Some a ->
          exists a' : addr,
            code' !! k = Some a' /\
            match site_target resolve_method p Any statics a with
            | None => a' = a
            | Some t =>
                static_call_of p' t a' /\ (a' = a \/ (length (insns p) <= a')%nat)
            end
  end.

(** [heap_wf p]: every instruction of the heap holds 16-bit values and a
    window inside the register file, and every virtual, super or direct
    call passes at least one register, its receiver. *)
Definition heap_wf (p : Program) : Prop :=
  forall a inst,
    insns p !! a = Some inst ->
    wf_insn inst /\
    (is_instance_invoke (opcode inst) = true -> 1 <= arg_count inst).

(** * A small program

    Class 0 (a shape) declares the virtual methods 0 (draw, which never
    reads its receiver) and 3 (a method without code, a native one say);
    class 1 (a circle) declares the direct method 1 (render), which calls
    draw three times: by a virtual call with the operands v5 and v7, by a
    range-form virtual call on the window v5..v5, and by a super call.
    Method 2 is a reference to draw through the circle: not a definition,
    the resolver maps it to draw. *)
Module Scenario.

Definition load_this (r : Z) : IRInstruction :=
  mkInsn IOPCODE_LOAD_PARAM_OBJECT None [] r 0 0.

Definition return_void : IRInstruction := mkInsn OPCODE_RETURN_VOID None [] 0 0 0.

Definition call_explicit : IRInstruction :=
  mkInsn OPCODE_INVOKE_VIRTUAL (Some 0%nat) [5; 7] 0 0 0.

Definition call_range : IRInstruction :=
  mkInsn OPCODE_INVOKE_VIRTUAL_RANGE (Some 0%nat) [] 0 5 1.

Definition call_super : IRInstruction :=
  mkInsn OPCODE_INVOKE_SUPER (Some 0%nat) [5] 0 0 0.

Definition call_by_ref : IRInstruction :=
  mkInsn OPCODE_INVOKE_SUPER (Some 2%nat) [5] 0 0 0.

Definition call_static : IRInstruction :=
  mkInsn OPCODE_INVOKE_STATIC (Some 0%nat) [7] 0 0 0.

Definition heap : list IRInstruction :=
  [load_this 0; return_void; load_this 5; call_explicit; call_range;
   call_super; return_void].

Definition draw : DexMethod :=
  mkMethod true false false false false (Some 0%nat) (Some [0; 1]%nat).

Definition render : DexMethod :=
  mkMethod true false false false false (Some 1%nat) (Some [2; 3; 4; 5; 6]%nat).

Definition draw_ref : DexMethod :=
  mkMethod false false false false false (Some 1%nat) None.

Definition no_code : DexMethod :=
  mkMethod true false false false false (Some 0%nat) None.

Definition prog : Program :=
  mkProgram [mkClass [] [0; 3]%nat; mkClass [1%nat] []]
            [draw; render; draw_ref; no_code] heap.

(** The same program with a static call to draw in the body of render. *)
Definition prog_static : Program :=
  mkProgram (classes prog) (methods prog)
            [load_this 0; return_void; load_this 5; call_static; call_range;
             call_super; return_void].

(** The same program with the super call made through the reference. *)
Definition prog_by_ref : Program :=
  mkProgram (classes prog) (methods prog)
            [load_this 0; return_void; load_this 5; call_explicit; call_range;
             call_by_ref; return_void].

Definition resolve (m : MethodId) (search : MethodSearch) : option MethodId :=
  if (m =? 2)%nat then Some 0%nat else None.

Definition keep_none (m : MethodId) : bool := false.

(** A dispatch analysis that reports the methods of [l] that are not
    static. *)
Definition monomorphic (l : list MethodId) (p : Program)
    (scope : list ClassId) : list MethodId :=
  List.filter (fun m => match methods p !! m with
                        | Some dm => negb (is_static dm)
                        | None => false
                        end) l.

Definition scope : list ClassId := [0; 1]%nat.

Definition only_virtual : DevirtualizerConfigs := mkConfigs true true false false.

Definition only_virtual_using_this : DevirtualizerConfigs :=
  mkConfigs false true false false.

(** An interface call of draw through the reference and an explicit call
    of draw that passes no register, each alone in the heap. *)
Definition call_interface : IRInstruction :=
  mkInsn OPCODE_INVOKE_INTERFACE (Some 2%nat) [5] 0 0 0.

Definition call_no_receiver : IRInstruction :=
  mkInsn OPCODE_INVOKE_VIRTUAL (Some 0%nat) [] 0 0 0.

Definition prog_interface : Program :=
  mkProgram (classes prog) (methods prog) [call_interface].

Definition prog_no_receiver : Program :=
  mkProgram (classes prog) (methods prog) [call_no_receiver].

Definition all_phases : DevirtualizerConfigs := mkConfigs true true true true.

(** The program with method 3 abstract: a declaration without code. *)
Definition abstract_method : DexMethod :=
  mkMethod true false true false false (Some 0%nat) None.

Definition prog_abstract : Program :=
  mkProgram (classes prog) [draw; render; draw_ref; abstract_method] heap.

End Scenario.

(** * Properties *)

(** ** The result monad *)

Lemma bind_Ok {A B} (a : A) (f : A -> result B) : Ok a ≫= f = f a.
Proof. reflexivity. Qed.

Lemma bind_Fail {A B} (e : Error) (f : A -> result B) : Fail e ≫= f = Fail e.
Proof. reflexivity. Qed.

Lemma bind_Ok_inv {A B} (m : result A) (f : A -> result B) (b : B) :
  m ≫= f = Ok b -> exists a, m = Ok a /\ f a = Ok b.
Proof. destruct m as [a|e]; [eauto | discriminate]. Qed.

Lemma deref_Some {A} (store : list A) (p : nat) (x : A) :
  store !! p = Some x -> deref store p = Ok x.
Proof. unfold deref. intros ->. reflexivity. Qed.

Lemma deref_Ok_inv {A} (store : list A) (p : nat) (x : A) :
  deref store p = Ok x -> store !! p = Some x.
Proof. unfold deref. destruct (store !! p); congruence. Qed.

Lemma for_each_app {A S} (body : A -> S -> result S) (l1 l2 : list A) (s : S) :
  for_each body (l1 ++ l2) s = for_each body l1 s ≫= for_each body l2.
Proof.
  revert s. induction l1 as [|x l1 IH]; intros s; simpl; [reflexivity|].
  destruct (body x s) as [s'|e]; simpl; [apply IH | reflexivity].
Qed.

(** ** 16-bit arithmetic *)

Lemma wrap16_u16 (z : Z) : u16 z -> wrap16 z = z.
Proof. unfold u16, wrap16. intros H. apply Z.mod_small. lia. Qed.

(** ** The opcode table *)

Lemma instance_invoke_cases (op : DexOpcode) :
  is_instance_invoke op = true ->
  op = OPCODE_INVOKE_VIRTUAL \/ op = OPCODE_INVOKE_VIRTUAL_RANGE \/
  op = OPCODE_INVOKE_SUPER \/ op = OPCODE_INVOKE_SUPER_RANGE \/
  op = OPCODE_INVOKE_DIRECT \/ op = OPCODE_INVOKE_DIRECT_RANGE.
Proof. destruct op; cbv; intros H; try discriminate; tauto. Qed.

Lemma patch_call_site_Ok callee inst metrics :
  is_instance_invoke (opcode inst) = true ->
  patch_call_site callee inst metrics
  = Ok (set_method (set_opcode inst (static_form (opcode inst))) callee,
        count_kind (opcode inst) metrics).
Proof.
  intros H. apply instance_invoke_cases in H.
  unfold patch_call_site, count_kind, static_form.
  destruct H as [H|[H|[H|[H|[H|H]]]]]; rewrite H; reflexivity.
Qed.

Lemma patch_call_site_Fail callee inst metrics :
  is_instance_invoke (opcode inst) = false ->
  patch_call_site callee inst metrics = Fail AssertionFailure.
Proof.
  unfold patch_call_site, is_instance_invoke. intros H.
  destruct (is_invoke_virtual (opcode inst)); [discriminate|].
  destruct (is_invoke_super (opcode inst)); [discriminate|].
  destruct (is_invoke_direct (opcode inst)); [discriminate|].
  reflexivity.
Qed.

Lemma patch_call_site_Ok_inv callee inst metrics r :
  patch_call_site callee inst metrics = Ok r ->
  is_instance_invoke (opcode inst) = true.
Proof.
  intros H. destruct (is_instance_invoke (opcode inst)) eqn:E; [reflexivity|].
  rewrite patch_call_site_Fail in H by exact E. discriminate.
Qed.

(** ** The operand loop *)

Lemma shift_src_Ok (k : nat) (inst : IRInstruction) (r : Z) :
  m_srcs inst !! S k = Some r -> u16 r ->
  shift_src k inst = Ok (with_srcs inst (<[k := r]> (m_srcs inst))).
Proof.
  intros Hr Hu. unfold shift_src, src.
  replace (k + 1)%nat with (S k) by lia.
  rewrite (deref_Some _ _ _ Hr), bind_Ok.
  unfold set_src. apply lookup_lt_Some in Hr.
  rewrite bool_decide_eq_true_2 by lia.
  rewrite (wrap16_u16 _ Hu). reflexivity.
Qed.

Lemma shift_loop_spec (n : nat) : forall (k : nat) (inst : IRInstruction),
  (k + n < length (m_srcs inst))%nat ->
  Forall u16 (m_srcs inst) ->
  exists l',
    for_each shift_src (seq k n) inst = Ok (with_srcs inst l') /\
    length l' = length (m_srcs inst) /\
    forall j : nat,
      l' !! j = if bool_decide (k <= j < k + n)%nat
                then m_srcs inst !! S j else m_srcs inst !! j.
Proof.
  induction n as [|n IH]; intros k inst Hlen Hu.
  - exists (m_srcs inst). simpl. destruct inst; simpl. repeat split; auto.
    intros j. rewrite bool_decide_eq_false_2 by lia. reflexivity.
  - destruct (lookup_lt_is_Some_2 (m_srcs inst) (S k)) as [r Hr]; [lia|].
    assert (Hur : u16 r).
    { rewrite Forall_forall in Hu. apply Hu. eapply list_elem_of_lookup_2; eauto. }
    cbn [seq for_each]. rewrite (shift_src_Ok _ _ _ Hr Hur), bind_Ok.
    destruct (IH (S k) (with_srcs inst (<[k := r]> (m_srcs inst))))
      as (l' & Hrun & Hl & Hlook).
    { simpl. rewrite length_insert. lia. }
    { simpl. apply Forall_insert; auto. }
    exists l'. simpl in *. split; [exact Hrun|].
    rewrite length_insert in Hl. split; [exact Hl|].
    intros j. rewrite Hlook.
    destruct (decide (j = k)) as [->|Hjk].
    + rewrite bool_decide_eq_false_2 by lia.
      rewrite bool_decide_eq_true_2 by lia.
      rewrite list_lookup_insert_eq by lia. rewrite <- Hr. reflexivity.
    + destruct (decide (S k <= j < S k + n)%nat).
      * rewrite !bool_decide_eq_true_2 by lia.
        rewrite list_lookup_insert_ne by lia. reflexivity.
      * rewrite !bool_decide_eq_false_2 by lia.
        rewrite list_lookup_insert_ne by lia. reflexivity.
Qed.

Lemma shift_src_method (k : nat) (inst inst' : IRInstruction) :
  shift_src k inst = Ok inst' ->
  m_method inst' = m_method inst /\ m_opcode inst' = m_opcode inst.
Proof.
  unfold shift_src. intros H. apply bind_Ok_inv in H as (r & _ & H).
  unfold set_src in H. destruct (bool_decide _); [|discriminate].
  injection H as <-. split; reflexivity.
Qed.

Lemma shift_loop_method (l : list nat) : forall (inst inst' : IRInstruction),
  for_each shift_src l inst = Ok inst' ->
  m_method inst' = m_method inst.
Proof.
  induction l as [|k l IH]; intros inst inst' H; simpl in H.
  - injection H as <-. reflexivity.
  - apply bind_Ok_inv in H as (i1 & H1 & H).
    rewrite (IH _ _ H). apply (shift_src_method _ _ _ H1).
Qed.

(** Dropping the first operand of a well-formed explicit call. *)
Lemma drop_first_src (inst : IRInstruction) :
  wf_insn inst -> 1 <= arg_word_count inst ->
  let nargs := arg_word_count inst in
  exists inst1,
    for_each shift_src (seq 0 (Z.to_nat (nargs - 1))) inst = Ok inst1 /\
    set_arg_word_count inst1 (nargs - 1) = with_srcs inst (tail (m_srcs inst)).
Proof.
  intros Hwf Hn nargs. destruct Hwf as [Hu Hsz _ _ _].
  assert (Hnargs : nargs = Z.of_nat (length (m_srcs inst))).
  { unfold nargs, arg_word_count. apply wrap16_u16. unfold u16. lia. }
  subst nargs. rewrite Hnargs in *. 
  destruct (shift_loop_spec (Z.to_nat (Z.of_nat (length (m_srcs inst)) - 1)) 0 inst)
    as (l' & Hrun & Hl & Hlook); [lia | exact Hu |].
  exists (with_srcs inst l'). split; [exact Hrun|].
  unfold set_arg_word_count, with_srcs. simpl. f_equal.
  rewrite wrap16_u16 by (unfold u16; lia).
  rewrite Hl.
  replace (Z.to_nat (Z.of_nat (length (m_srcs inst)) - 1) - length (m_srcs inst))%nat
    with 0%nat by lia.
  simpl. rewrite app_nil_r.
  apply list_eq. intros j.
  destruct (decide (j < Z.to_nat (Z.of_nat (length (m_srcs inst)) - 1))%nat) as [Hj|Hj].
  - rewrite lookup_take_lt by lia. rewrite Hlook.
    rewrite bool_decide_eq_true_2 by lia. rewrite lookup_tail. reflexivity.
  - rewrite lookup_take_ge by lia. symmetry. apply lookup_ge_None.
    rewrite length_tl. lia.
Qed.

Lemma is_invoke_range_static_form (op : DexOpcode) :
  is_invoke_range (static_form op) = is_invoke_range op.
Proof. unfold static_form. destruct (is_invoke_range op); reflexivity. Qed.

Lemma is_instance_invoke_not_static (op : DexOpcode) :
  is_instance_invoke op = true -> is_invoke_static op = false.
Proof. intros H. apply instance_invoke_cases in H. intuition subst; reflexivity. Qed.

Section Rewriter.

Variable resolve_method : MethodId -> MethodSearch -> option MethodId.

(** The drop-receiver step on a call site of the target set, with the
    lookups done. *)
Lemma drop_step_in_set statics a p metrics repls inst mref t :
  insns p !! a = Some inst ->
  get_method inst = Some mref ->
  call_target resolve_method p Any mref = Ok (Some t) ->
  t ∈ statics ->
  is_instance_invoke (opcode inst) = true ->
  drop_this_arg_step resolve_method statics a ((p, metrics), repls)
  = let inst1 := set_method (set_opcode inst (static_form (opcode inst))) t in
    let metrics1 := count_kind (opcode inst) metrics in
    if is_invoke_range (opcode inst) then
      if bool_decide (range_size inst = 1) then
        let repl := set_arg_word_count
                      (set_method (new_IRInstruction OPCODE_INVOKE_STATIC) t) 0 in
        Ok ((set_insns p (<[a := inst1]> (insns p) ++ [repl]), metrics1),
            repls ++ [(a, length (<[a := inst1]> (insns p)))])
      else
        Ok ((store_insn p a
               (set_range_size (set_range_base inst1 (range_base inst + 1))
                               (range_size inst - 1)), metrics1), repls)
    else
      inst2 ← for_each shift_src
                (seq 0 (Z.to_nat (arg_word_count inst - 1))) inst1;
      Ok ((store_insn p a (set_arg_word_count inst2 (arg_word_count inst - 1)),
           metrics1), repls).
Proof.
  intros Hi Hm Hct Ht Hop. unfold drop_this_arg_step.
  rewrite (deref_Some _ _ _ Hi), bind_Ok, Hm, Hct, bind_Ok.
  rewrite bool_decide_eq_true_2 by exact Ht.
  rewrite (patch_call_site_Ok _ _ _ Hop), bind_Ok.
  cbv beta iota zeta.
  change (opcode (set_method (set_opcode inst (static_form (opcode inst))) t))
    with (static_form (opcode inst)).
  rewrite is_invoke_range_static_form.
  destruct (is_invoke_range (opcode inst)); reflexivity.
Qed.


Lemma keep_step_in_set targets m a p metrics insn mref t :
  insns p !! a = Some insn ->
  get_method insn = Some mref ->
  call_target resolve_method p Virtual mref = Ok (Some t) ->
  t ∈ targets ->
  fix_call_sites_fixer resolve_method targets m a (p, metrics)
  = (_ ← always_assert (negb (is_invoke_static (opcode insn)));
     '(insn, metrics) ← patch_call_site t insn metrics;
     mret (store_insn p a insn, metrics)).
Proof.
  intros Hi Hm Hct Ht. unfold fix_call_sites_fixer.
  rewrite (deref_Some _ _ _ Hi), bind_Ok, Hm, Hct, bind_Ok.
  rewrite bool_decide_eq_true_2 by exact Ht. reflexivity.
Qed.

Lemma keep_step_patched targets m a p metrics insn mref t :
  insns p !! a = Some insn ->
  get_method insn = Some mref ->
  call_target resolve_method p Virtual mref = Ok (Some t) ->
  t ∈ targets ->
  is_instance_invoke (opcode insn) = true ->
  fix_call_sites_fixer resolve_method targets m a (p, metrics)
  = Ok (store_insn p a
          (set_method (set_opcode insn (static_form (opcode insn))) t),
        count_kind (opcode insn) metrics).
Proof.
  intros Hi Hm Hct Ht Hop.
  rewrite (keep_step_in_set _ _ _ _ _ _ _ _ Hi Hm Hct Ht).
  rewrite (is_instance_invoke_not_static _ Hop). simpl always_assert.
  rewrite bind_Ok, (patch_call_site_Ok _ _ _ Hop). reflexivity.
Qed.

Lemma store_insn_lookup p a i :
  (a < length (insns p))%nat -> insns (store_insn p a i) !! a = Some i.
Proof. intros H. simpl. apply list_lookup_insert_eq. exact H. Qed.

(** C1: a call instruction patched by the drop-receiver conversion ends
    with one argument fewer: in explicit form every remaining source
    operand moves one position to the front and the argument word count
    goes down by one; in range form with a window larger than 1 the base
    register goes up by one and the size down by one; with a window of
    exactly 1 the call is handed to a replacement with no argument.  A
    call instruction patched by the keep-receiver conversion keeps its
    argument count.  The instruction holds 16-bit values and carries its
    receiver. *)
Theorem drop_receiver_argument_count a p metrics inst mref :
  insns p !! a = Some inst ->
  get_method inst = Some mref ->
  is_instance_invoke (opcode inst) = true ->
  wf_insn inst ->
  (forall statics repls t,
     call_target resolve_method p Any mref = Ok (Some t) ->
     t ∈ statics ->
     1 <= arg_count inst ->
     exists p' metrics' repls' site inst',
       drop_this_arg_step resolve_method statics a ((p, metrics), repls)
       = Ok ((p', metrics'), repls') /\
       insns p' !! site = Some inst' /\
       (if is_invoke_range (opcode inst) && bool_decide (range_size inst = 1)
        then site = length (insns p) /\ repls' = repls ++ [(a, site)]
        else site = a /\ repls' = repls) /\
       arg_count inst' = arg_count inst - 1 /\
       (is_invoke_range (opcode inst) = false ->
        arg_word_count inst' = arg_word_count inst - 1 /\
        forall k : nat, m_srcs inst' !! k = m_srcs inst !! S k) /\
       (is_invoke_range (opcode inst) = true -> 1 < range_size inst ->
        range_base inst' = range_base inst + 1 /\
        range_size inst' = range_size inst - 1)) /\
  (forall targets m t,
     call_target resolve_method p Virtual mref = Ok (Some t) ->
     t ∈ targets ->
     exists p' metrics' inst',
       fix_call_sites_fixer resolve_method targets m a (p, metrics)
       = Ok (p', metrics') /\
       insns p' !! a = Some inst' /\
       arg_count inst' = arg_count inst).
Proof.
  intros Hi Hm Hop Hwf. pose proof (lookup_lt_Some _ _ _ Hi) as Ha. split.
  - intros statics repls t Hct Ht Hcount.
    rewrite (drop_step_in_set _ _ _ _ _ _ _ _ Hi Hm Hct Ht Hop).
    cbv zeta. unfold arg_count in *.
    destruct (is_invoke_range (opcode inst)) eqn:Hr.
    + destruct (bool_decide (range_size inst = 1)) eqn:Hsz.
      * apply bool_decide_eq_true_1 in Hsz.
        eexists _, _, _, (length (insns p)), _. split; [reflexivity|].
        simpl. rewrite length_insert. split.
        { rewrite lookup_app_r by (rewrite length_insert; lia).
          rewrite length_insert, Nat.sub_diag. reflexivity. }
        split; [split; reflexivity|].
        split; [simpl; unfold arg_word_count; simpl; rewrite Hsz; reflexivity|].
        split; [discriminate|]. intros _ Hlt. lia.
      * apply bool_decide_eq_false_1 in Hsz.
        eexists _, _, _, a, _. split; [reflexivity|].
        split; [apply store_insn_lookup; exact Ha|].
        split; [split; reflexivity|].
        destruct Hwf as [_ _ Hb Hs Hw]. unfold u16, range_size, range_base in *.
        assert (Hsize : wrap16 (m_range_size inst - 1) = m_range_size inst - 1).
        { apply wrap16_u16. unfold u16. lia. }
        assert (Hbase : wrap16 (m_range_base inst + 1) = m_range_base inst + 1).
        { apply wrap16_u16. unfold u16. lia. }
        split.
        { unfold opcode. simpl. rewrite is_invoke_range_static_form.
          unfold opcode in Hr. rewrite Hr. exact Hsize. }
        split; [discriminate|]. intros _ _. simpl. split; assumption.
    + destruct (drop_first_src (set_method (set_opcode inst (static_form (opcode inst))) t))
        as (inst1 & Hloop & Hset).
      { destruct Hwf; constructor; assumption. }
      { exact Hcount. }
      change (arg_word_count (set_method (set_opcode inst (static_form (opcode inst))) t))
        with (arg_word_count inst) in Hloop, Hset.
      rewrite Hloop, bind_Ok, Hset.
      eexists _, _, _, a, _. split; [reflexivity|].
      split; [apply store_insn_lookup; exact Ha|].
      split; [split; reflexivity|].
      assert (Hcnt : arg_word_count
                (with_srcs (set_method (set_opcode inst (static_form (opcode inst))) t)
                           (tail (m_srcs inst))) = arg_word_count inst - 1).
      { destruct Hwf as [_ Hsz _ _ _]. unfold arg_word_count in *. simpl.
        rewrite length_tl.
        rewrite wrap16_u16 in Hcount by (unfold u16; lia).
        rewrite !wrap16_u16 by (unfold u16; lia). lia. }
      split.
      { unfold opcode at 1. simpl. rewrite is_invoke_range_static_form, Hr.
        exact Hcnt. }
      split; [|discriminate].
      intros _. split; [exact Hcnt|]. intros k. simpl. apply lookup_tail.
  - intros targets m t Hct Ht.
    rewrite (keep_step_patched _ _ _ _ _ _ _ _ Hi Hm Hct Ht Hop).
    eexists _, _, _. split; [reflexivity|].
    split; [apply store_insn_lookup; exact Ha|].
    unfold arg_count, opcode. simpl. rewrite is_invoke_range_static_form.
    reflexivity.
Qed.

Lemma call_target_lookup search p mref dm :
  methods p !! mref = Some dm ->
  call_target resolve_method p search mref
  = Ok (if is_concrete dm then Some mref else resolve_method mref search).
Proof.
  intros H. unfold call_target. rewrite (deref_Some _ _ _ H), bind_Ok.
  destruct (is_concrete dm); reflexivity.
Qed.

Lemma drop_step_outside statics a p metrics repls inst mref tgt :
  insns p !! a = Some inst ->
  get_method inst = Some mref ->
  call_target resolve_method p Any mref = Ok tgt ->
  (forall t, tgt = Some t -> t ∉ statics) ->
  drop_this_arg_step resolve_method statics a ((p, metrics), repls)
  = Ok ((p, metrics), repls).
Proof.
  intros Hi Hm Hct Hout. unfold drop_this_arg_step.
  rewrite (deref_Some _ _ _ Hi), bind_Ok, Hm, Hct, bind_Ok.
  destruct tgt as [t|]; [|reflexivity].
  rewrite bool_decide_eq_false_2 by (apply Hout; reflexivity). reflexivity.
Qed.

Lemma keep_step_outside targets m a p metrics insn mref tgt :
  insns p !! a = Some insn ->
  get_method insn = Some mref ->
  call_target resolve_method p Virtual mref = Ok tgt ->
  (forall t, tgt = Some t -> t ∉ targets) ->
  fix_call_sites_fixer resolve_method targets m a (p, metrics) = Ok (p, metrics).
Proof.
  intros Hi Hm Hct Hout. unfold fix_call_sites_fixer.
  rewrite (deref_Some _ _ _ Hi), bind_Ok, Hm, Hct, bind_Ok.
  destruct tgt as [t|]; [|reflexivity].
  rewrite bool_decide_eq_false_2 by (apply Hout; reflexivity). reflexivity.
Qed.

(** C10: an explicit-form call rewritten by the drop-receiver protocol
    carries its receiver, so its argument word count is at least 1; under
    that precondition every operand access of the shifting loop is in
    range, the loop ends, the 16-bit decrement [nargs - 1] does not wrap,
    and the rewrite of the instruction returns with the argument word
    count [nargs - 1], which is not negative. *)
Theorem explicit_drop_well_defined statics a p metrics repls inst mref t :
  insns p !! a = Some inst ->
  get_method inst = Some mref ->
  call_target resolve_method p Any mref = Ok (Some t) ->
  t ∈ statics ->
  is_instance_invoke (opcode inst) = true ->
  is_invoke_range (opcode inst) = false ->
  wf_insn inst ->
  1 <= arg_word_count inst ->
  let nargs := arg_word_count inst in
  let patched := set_method (set_opcode inst (static_form (opcode inst))) t in
  exists inst1 inst',
    for_each shift_src (seq 0 (Z.to_nat (nargs - 1))) patched = Ok inst1 /\
    wrap16 (nargs - 1) = nargs - 1 /\
    inst' = set_arg_word_count inst1 (nargs - 1) /\
    drop_this_arg_step resolve_method statics a ((p, metrics), repls)
    = Ok ((store_insn p a inst', count_kind (opcode inst) metrics), repls) /\
    arg_word_count inst' = nargs - 1 /\
    0 <= arg_word_count inst' < 65535.
Proof.
  intros Hi Hm Hct Ht Hop Hr Hwf Hn nargs patched.
  destruct (drop_first_src patched) as (inst1 & Hloop & Hset).
  { destruct Hwf; constructor; assumption. }
  { exact Hn. }
  change (arg_word_count patched) with nargs in Hloop, Hset.
  exists inst1, (set_arg_word_count inst1 (nargs - 1)).
  assert (Hlen : nargs = Z.of_nat (length (m_srcs inst))).
  { destruct Hwf as [_ Hsz _ _ _]. unfold nargs, arg_word_count.
    apply wrap16_u16. unfold u16. lia. }
  assert (Hbound : 1 <= nargs < 65536).
  { destruct Hwf as [_ Hsz _ _ _]. fold nargs in Hn. lia. }
  split; [exact Hloop|].
  split; [apply wrap16_u16; unfold u16; lia|].
  split; [reflexivity|].
  split.
  { rewrite (drop_step_in_set _ _ _ _ _ _ _ _ Hi Hm Hct Ht Hop).
    cbv zeta. rewrite Hr. fold nargs patched. rewrite Hloop, bind_Ok.
    reflexivity. }
  assert (Hcnt : arg_word_count (set_arg_word_count inst1 (nargs - 1)) = nargs - 1).
  { rewrite Hset. unfold arg_word_count. simpl. rewrite length_tl.
    rewrite wrap16_u16 by (unfold u16; lia). lia. }
  rewrite Hcnt. split; [reflexivity | lia].
Qed.

(** C4: in the keep-receiver rewrite a patched call instruction changes in
    its opcode and its call target only: the source operands, the range
    window (base and size) and the destination are what they were, and no
    other instruction, method or class changes. *)
Theorem keep_receiver_frame targets m a p metrics insn mref t :
  insns p !! a = Some insn ->
  get_method insn = Some mref ->
  call_target resolve_method p Virtual mref = Ok (Some t) ->
  t ∈ targets ->
  is_instance_invoke (opcode insn) = true ->
  exists p' metrics' insn',
    fix_call_sites_fixer resolve_method targets m a (p, metrics)
    = Ok (p', metrics') /\
    insns p' !! a = Some insn' /\
    opcode insn' = static_form (opcode insn) /\
    get_method insn' = Some t /\
    m_srcs insn' = m_srcs insn /\
    range_base insn' = range_base insn /\
    range_size insn' = range_size insn /\
    dest insn' = dest insn /\
    (forall b, b <> a -> insns p' !! b = insns p !! b) /\
    length (insns p') = length (insns p) /\
    methods p' = methods p /\
    classes p' = classes p.
Proof.
  intros Hi Hm Hct Ht Hop.
  rewrite (keep_step_patched _ _ _ _ _ _ _ _ Hi Hm Hct Ht Hop).
  eexists _, _, _. split; [reflexivity|].
  split; [apply store_insn_lookup; eapply lookup_lt_Some; exact Hi|].
  simpl. repeat split; try reflexivity.
  - intros b Hb. apply list_lookup_insert_ne. congruence.
  - apply length_insert.
Qed.

Lemma count_kind_changes op metrics : count_kind op metrics <> metrics.
Proof.
  unfold count_kind. destruct metrics as [n1 n2 v s d].
  destruct (is_invoke_virtual op); [|destruct (is_invoke_super op)];
    unfold incr_virtual_calls, incr_super_calls, incr_direct_calls; simpl;
    intros H; injection H; lia.
Qed.

Lemma drop_step_touches statics a p metrics repls inst mref t :
  insns p !! a = Some inst ->
  get_method inst = Some mref ->
  call_target resolve_method p Any mref = Ok (Some t) ->
  t ∈ statics ->
  drop_this_arg_step resolve_method statics a ((p, metrics), repls)
  <> Ok ((p, metrics), repls).
Proof.
  intros Hi Hm Hct Ht.
  destruct (is_instance_invoke (opcode inst)) eqn:Hop.
  - rewrite (drop_step_in_set _ _ _ _ _ _ _ _ Hi Hm Hct Ht Hop). cbv zeta.
    pose proof (count_kind_changes (opcode inst) metrics) as Hne.
    destruct (is_invoke_range (opcode inst)).
    + destruct (bool_decide (range_size inst = 1)); congruence.
    + destruct (for_each shift_src _ _); simpl; congruence.
  - unfold drop_this_arg_step.
    rewrite (deref_Some _ _ _ Hi), bind_Ok, Hm, Hct, bind_Ok.
    rewrite bool_decide_eq_true_2 by exact Ht.
    rewrite (patch_call_site_Fail _ _ _ Hop). discriminate.
Qed.

Lemma keep_step_touches targets m a p metrics insn mref t :
  insns p !! a = Some insn ->
  get_method insn = Some mref ->
  call_target resolve_method p Virtual mref = Ok (Some t) ->
  t ∈ targets ->
  fix_call_sites_fixer resolve_method targets m a (p, metrics) <> Ok (p, metrics).
Proof.
  intros Hi Hm Hct Ht.
  destruct (is_instance_invoke (opcode insn)) eqn:Hop.
  - rewrite (keep_step_patched _ _ _ _ _ _ _ _ Hi Hm Hct Ht Hop).
    pose proof (count_kind_changes (opcode insn) metrics). congruence.
  - rewrite (keep_step_in_set _ _ _ _ _ _ _ _ Hi Hm Hct Ht).
    destruct (is_invoke_static (opcode insn)); simpl; [discriminate|].
    rewrite (patch_call_site_Fail _ _ _ Hop). discriminate.
Qed.

(** C9: a call instruction whose call-target reference is not a definition
    is resolved by the external resolver, with the [Virtual] search in the
    keep-receiver rewrite and with the [Any] search in the drop-receiver
    rewrite; in both rewrites the instruction is left as it is, together
    with the rest of the program, the counters and the pending
    replacements, exactly when the target so found is absent or outside
    the target set. *)
Theorem resolution_strategy_and_skip a p metrics insn mref dm :
  insns p !! a = Some insn ->
  get_method insn = Some mref ->
  methods p !! mref = Some dm ->
  let target search :=
    if is_concrete dm then Some mref else resolve_method mref search in
  call_target resolve_method p Virtual mref = Ok (target Virtual) /\
  call_target resolve_method p Any mref = Ok (target Any) /\
  (forall targets m,
     (fix_call_sites_fixer resolve_method targets m a (p, metrics)
      = Ok (p, metrics)
      <-> forall t, target Virtual = Some t -> t ∉ targets) /\
     (forall t, target Virtual = Some t -> t ∈ targets ->
        is_instance_invoke (opcode insn) = true ->
        fix_call_sites_fixer resolve_method targets m a (p, metrics)
        = Ok (store_insn p a
                (set_method (set_opcode insn (static_form (opcode insn))) t),
              count_kind (opcode insn) metrics))) /\
  (forall statics repls,
     (drop_this_arg_step resolve_method statics a ((p, metrics), repls)
      = Ok ((p, metrics), repls)
      <-> forall t, target Any = Some t -> t ∉ statics) /\
     (forall t st', target Any = Some t -> t ∈ statics ->
        drop_this_arg_step resolve_method statics a ((p, metrics), repls)
        = Ok st' ->
        exists inst', insns st'.1.1 !! a = Some inst' /\
                      get_method inst' = Some t)).
Proof.
  intros Hi Hm Hdm target.
  pose proof (call_target_lookup Virtual _ _ _ Hdm) as Hv.
  pose proof (call_target_lookup Any _ _ _ Hdm) as Ha.
  fold (target Virtual) in Hv. fold (target Any) in Ha.
  split; [exact Hv|]. split; [exact Ha|]. split.
  - intros targets m. split; [split|].
    + intros Hsame t Ht Hin. rewrite Ht in Hv.
      exact (keep_step_touches _ m _ _ metrics _ _ _ Hi Hm Hv Hin Hsame).
    + intros Hout. exact (keep_step_outside _ _ _ _ _ _ _ _ Hi Hm Hv Hout).
    + intros t Ht Hin Hop. rewrite Ht in Hv.
      exact (keep_step_patched _ _ _ _ _ _ _ _ Hi Hm Hv Hin Hop).
  - intros statics repls. split; [split|].
    + intros Hsame t Ht Hin. rewrite Ht in Ha.
      exact (drop_step_touches _ _ _ metrics repls _ _ _ Hi Hm Ha Hin Hsame).
    + intros Hout. exact (drop_step_outside _ _ _ _ _ _ _ _ Hi Hm Ha Hout).
    + intros t st' Ht Hin Hrun. rewrite Ht in Ha.
      pose proof (lookup_lt_Some _ _ _ Hi) as Hlt.
      destruct (is_instance_invoke (opcode insn)) eqn:Hop.
      * rewrite (drop_step_in_set _ _ _ _ _ _ _ _ Hi Hm Ha Hin Hop) in Hrun.
        cbv zeta in Hrun.
        destruct (is_invoke_range (opcode insn)).
        -- destruct (bool_decide (range_size insn = 1));
             injection Hrun as <-; simpl.
           ++ rewrite lookup_app_l by (rewrite length_insert; exact Hlt).
              rewrite list_lookup_insert_eq by exact Hlt. eauto.
           ++ rewrite list_lookup_insert_eq by exact Hlt. eauto.
        -- apply bind_Ok_inv in Hrun as (inst2 & Hloop & Hrun).
           injection Hrun as <-. simpl.
           rewrite list_lookup_insert_eq by exact Hlt.
           eexists; split; [reflexivity|]. simpl.
           rewrite (shift_loop_method _ _ _ Hloop). reflexivity.
      * unfold drop_this_arg_step in Hrun.
        rewrite (deref_Some _ _ _ Hi), bind_Ok, Hm, Ha, bind_Ok in Hrun.
        rewrite bool_decide_eq_true_2 in Hrun by exact Hin.
        rewrite (patch_call_site_Fail _ _ _ Hop) in Hrun. discriminate.
Qed.

(** ** What one step of the drop-receiver scan can change *)

Lemma drop_step_shape statics a p metrics repls p' metrics' repls' :
  drop_this_arg_step resolve_method statics a ((p, metrics), repls)
  = Ok ((p', metrics'), repls') ->
  methods p' = methods p /\
  classes p' = classes p /\
  (length (insns p) <= length (insns p'))%nat /\
  (forall b, b <> a -> (b < length (insns p))%nat ->
     insns p' !! b = insns p !! b) /\
  exists new,
    repls' = repls ++ new /\
    Forall (fun ar => ar.1 = a /\
                      (length (insns p) <= ar.2 < length (insns p'))%nat) new /\
    (length new <= 1)%nat.
Proof.
  intros H0.
  assert (Hsame : Ok ((p, metrics), repls) = Ok ((p', metrics'), repls') ->
    methods p' = methods p /\ classes p' = classes p /\
    (length (insns p) <= length (insns p'))%nat /\
    (forall b, b <> a -> (b < length (insns p))%nat ->
       insns p' !! b = insns p !! b) /\
    exists new, repls' = repls ++ new /\
      Forall (fun ar => ar.1 = a /\
                (length (insns p) <= ar.2 < length (insns p'))%nat) new /\
      (length new <= 1)%nat).
  { intros E. injection E as <- <- <-. repeat split; auto.
    exists []. rewrite app_nil_r. repeat split; auto. }
  assert (Hstore : forall i, Ok ((store_insn p a i, metrics'), repls)
                             = Ok ((p', metrics'), repls') ->
    methods p' = methods p /\ classes p' = classes p /\
    (length (insns p) <= length (insns p'))%nat /\
    (forall b, b <> a -> (b < length (insns p))%nat ->
       insns p' !! b = insns p !! b) /\
    exists new, repls' = repls ++ new /\
      Forall (fun ar => ar.1 = a /\
                (length (insns p) <= ar.2 < length (insns p'))%nat) new /\
      (length new <= 1)%nat).
  { intros i E. injection E as <- <-. simpl. rewrite length_insert.
    repeat split; auto.
    - intros b Hb _. apply list_lookup_insert_ne. congruence.
    - exists []. rewrite app_nil_r. repeat split; auto. }
  pose proof H0 as H. unfold drop_this_arg_step in H.
  apply bind_Ok_inv in H as (inst & Hi & H). apply deref_Ok_inv in Hi.
  destruct (get_method inst) as [mref|] eqn:Hm; [|exact (Hsame H)].
  apply bind_Ok_inv in H as (tgt & Hct & H).
  destruct tgt as [t|]; [|exact (Hsame H)].
  destruct (bool_decide (t ∈ statics)) eqn:Hin; [|exact (Hsame H)].
  apply bool_decide_eq_true_1 in Hin.
  apply bind_Ok_inv in H as ([inst1 metrics1] & Hp & _).
  pose proof (patch_call_site_Ok_inv _ _ _ _ Hp) as Hop.
  rewrite (drop_step_in_set _ _ _ _ _ _ _ _ Hi Hm Hct Hin Hop) in H0.
  cbv zeta in H0. clear Hsame.
  destruct (is_invoke_range (opcode inst)).
  - destruct (bool_decide (range_size inst = 1)).
    + injection H0 as <- <- <-. simpl.
      rewrite length_app, length_insert. simpl.
      repeat split; auto; try lia.
      * intros b Hb Hlt. rewrite lookup_app_l by (rewrite length_insert; lia).
        apply list_lookup_insert_ne. congruence.
      * eexists [_]. split; [reflexivity|]. split; [|simpl; lia].
        constructor; [|constructor]. simpl. lia.
    + pose proof H0 as E. injection E as _ <- _. exact (Hstore _ H0).
  - apply bind_Ok_inv in H0 as (inst2 & _ & H0).
    pose proof H0 as E. injection E as _ <- _. exact (Hstore _ H0).
Qed.

Lemma drop_scan_shape statics (code : IRCode) :
  forall p metrics repls p' metrics' repls',
  for_each (drop_this_arg_step resolve_method statics) code ((p, metrics), repls)
  = Ok ((p', metrics'), repls') ->
  methods p' = methods p /\
  classes p' = classes p /\
  (length (insns p) <= length (insns p'))%nat /\
  (forall b, b ∉ code -> (b < length (insns p))%nat ->
     insns p' !! b = insns p !! b) /\
  exists new,
    repls' = repls ++ new /\
    Forall (fun ar => ar.1 ∈ code /\
                      (length (insns p) <= ar.2 < length (insns p'))%nat) new /\
    (NoDup code -> NoDup new.*1).
Proof.
  induction code as [|a code IH]; intros p metrics repls p' metrics' repls' H.
  - simpl in H. injection H as <- <- <-. repeat split; auto.
    exists []. rewrite app_nil_r. repeat split; auto; try (intros _; constructor).
  - simpl in H. apply bind_Ok_inv in H as ([[p1 metrics1] repls1] & H1 & H).
    apply drop_step_shape in H1 as (Hm1 & Hc1 & Hl1 & Hf1 & new1 & -> & Hn1 & Hlen1).
    apply IH in H as (Hm & Hc & Hl & Hf & new & -> & Hn & Hnd).
    split; [congruence|]. split; [congruence|]. split; [lia|]. split.
    + intros b Hb Hlt. rewrite not_elem_of_cons in Hb. destruct Hb as [Hba Hbc].
      rewrite Hf by (auto; lia). apply Hf1; auto.
    + exists (new1 ++ new). split; [rewrite app_assoc; reflexivity|]. split.
      * apply Forall_app. split.
        -- eapply Forall_impl; [exact Hn1|]. intros [a' r] [-> Hr]. simpl in *.
           split; [left | lia].
        -- eapply Forall_impl; [exact Hn|]. intros [a' r] [Ha' Hr]. simpl in *.
           split; [right; exact Ha' | lia].
      * intros Hnodup. apply NoDup_cons in Hnodup as [Hnotin Hnodup].
        rewrite fmap_app. apply NoDup_app. split; [|split].
        -- destruct new1 as [|x [|y new1]]; simpl in *; try lia.
           ++ constructor.
           ++ apply NoDup_singleton.
        -- intros x Hx1 Hx. apply list_elem_of_fmap in Hx1 as (ar1 & -> & Har1).
           apply list_elem_of_fmap in Hx as (ar & Heq & Har).
           rewrite Forall_forall in Hn1, Hn.
           destruct (Hn1 _ Har1) as [E1 _]. destruct (Hn _ Har) as [E _].
           apply Hnotin. cut (ar.1 = a); [intros Ea; rewrite <- Ea; exact E|].
           etransitivity; [symmetry; exact Heq | exact E1].
        -- apply Hnd. exact Hnodup.
Qed.

(** ** Applying the replacements *)

Lemma subst_all_cons (ar : addr * addr) (new : list (addr * addr)) (x : addr) :
  subst_all (ar :: new) x = subst_all new (subst_addr ar x).
Proof. reflexivity. Qed.

Lemma subst_addr_eq (a r x : addr) :
  subst_addr (a, r) x = if bool_decide (x = a) then r else x.
Proof. reflexivity. Qed.

Lemma replace_opcode_fmap (c : IRCode) (a r : addr) :
  (forall i j : nat, c !! i = Some a -> c !! j = Some a -> i = j) ->
  replace_opcode c a r = subst_addr (a, r) <$> c.
Proof.
  induction c as [|x c IH]; intros Hu; [reflexivity|].
  simpl. rewrite subst_addr_eq.
  destruct (bool_decide (x = a)) eqn:E.
  - apply bool_decide_eq_true_1 in E. subst x. f_equal.
    assert (Hnot : a ∉ c).
    { intros Hin. apply list_elem_of_lookup in Hin as [j Hj].
      specialize (Hu 0%nat (S j) eq_refl Hj). discriminate. }
    clear -Hnot. induction c as [|y c IH]; [reflexivity|].
    apply not_elem_of_cons in Hnot as [Hne Hnot]. simpl.
    rewrite subst_addr_eq.
    rewrite bool_decide_eq_false_2 by congruence. f_equal. exact (IH Hnot).
  - f_equal. apply IH. intros i j Hi Hj.
    specialize (Hu (S i) (S j) Hi Hj). lia.
Qed.

Lemma subst_all_high (N : nat) (new : list (addr * addr)) (x : addr) :
  Forall (fun ar => (ar.1 < N <= ar.2)%nat) new ->
  (N <= x)%nat -> subst_all new x = x.
Proof.
  revert x. induction new as [|[a r] new IH]; intros x Hn Hx; [reflexivity|].
  apply Forall_cons in Hn as [Har Hn]. simpl in Har.
  rewrite subst_all_cons, subst_addr_eq.
  rewrite bool_decide_eq_false_2 by lia. apply IH; assumption.
Qed.

Lemma subst_all_low (N : nat) (new : list (addr * addr)) (x : addr) :
  Forall (fun ar => (ar.1 < N <= ar.2)%nat) new ->
  subst_all new x = x \/ (N <= subst_all new x)%nat.
Proof.
  revert x. induction new as [|[a r] new IH]; intros x Hn; [left; reflexivity|].
  apply Forall_cons in Hn as [Har Hn]. simpl in Har.
  rewrite subst_all_cons, subst_addr_eq.
  destruct (bool_decide (x = a)) eqn:E.
  - right. rewrite (subst_all_high N) by (auto; lia). lia.
  - apply IH. exact Hn.
Qed.

Lemma subst_all_replaced (N : nat) (new : list (addr * addr)) (a r : addr) :
  Forall (fun ar => (ar.1 < N <= ar.2)%nat) new ->
  NoDup new.*1 ->
  (a, r) ∈ new ->
  subst_all new a = r.
Proof.
  induction new as [|[a0 r0] new IH]; intros Hn Hnd Hin.
  - inversion Hin.
  - apply Forall_cons in Hn as [Har Hn]. simpl in Har.
    rewrite fmap_cons in Hnd. apply NoDup_cons in Hnd as [Hnotin Hnd]. simpl in Hnotin.
    rewrite subst_all_cons, subst_addr_eq.
    apply elem_of_cons in Hin as [Heq|Hin].
    + injection Heq as -> ->. rewrite bool_decide_eq_true_2 by reflexivity.
      apply (subst_all_high N); [exact Hn | lia].
    + assert (a <> a0).
      { intros ->. apply Hnotin. apply list_elem_of_fmap. exists (a0, r). auto. }
      rewrite bool_decide_eq_false_2 by assumption. apply IH; assumption.
Qed.

Lemma apply_replacements_fmap (N : nat) (new : list (addr * addr)) :
  forall code : IRCode,
  (forall (i j : nat) (x : addr), (x < N)%nat ->
     code !! i = Some x -> code !! j = Some x -> i = j) ->
  Forall (fun ar => (ar.1 < N <= ar.2)%nat) new ->
  apply_replacements code new = subst_all new <$> code.
Proof.
  induction new as [|[a r] new IH]; intros code Hu Hn.
  - unfold apply_replacements, subst_all. simpl. symmetry. apply list_fmap_id.
  - apply Forall_cons in Hn as [Har Hn]. simpl in Har.
    unfold apply_replacements. simpl. fold (apply_replacements (replace_opcode code a r) new).
    rewrite replace_opcode_fmap by (intros i j; apply Hu; lia).
    rewrite IH; [| |exact Hn].
    + rewrite <- list_fmap_compose. reflexivity.
    + intros i j x Hx Hi Hj. rewrite list_lookup_fmap in Hi, Hj.
      destruct (code !! i) as [y|] eqn:Ei; [|discriminate].
      destruct (code !! j) as [z|] eqn:Ej; [|discriminate].
      simpl in Hi, Hj. injection Hi as Hi. injection Hj as Hj.
      rewrite subst_addr_eq in Hi, Hj.
      destruct (bool_decide (y = a)); [lia|].
      destruct (bool_decide (z = a)); [lia|].
      subst y z. exact (Hu i j x Hx Ei Ej).
Qed.

(** ** The drop-receiver scan of one method body *)

Lemma call_target_methods search p p1 mref :
  methods p1 = methods p ->
  call_target resolve_method p1 search mref
  = call_target resolve_method p search mref.
Proof. intros H. unfold call_target. rewrite H. reflexivity. Qed.

Lemma drop_scan_replaced statics a inst mref t (code : list addr) :
  forall p metrics repls p' metrics' repls',
  NoDup code ->
  Forall (fun b => (b < length (insns p))%nat) code ->
  for_each (drop_this_arg_step resolve_method statics) code ((p, metrics), repls)
  = Ok ((p', metrics'), repls') ->
  a ∈ code ->
  insns p !! a = Some inst ->
  get_method inst = Some mref ->
  call_target resolve_method p Any mref = Ok (Some t) ->
  t ∈ statics ->
  is_invoke_range (opcode inst) = true ->
  range_size inst = 1 ->
  exists r,
    (a, r) ∈ repls' /\
    (length (insns p) <= r)%nat /\
    insns p' !! r = Some (mkInsn OPCODE_INVOKE_STATIC (Some t) [] 0 0 0).
Proof.
  induction code as [|a0 code IH];
    intros p metrics repls p' metrics' repls' Hnd Hvalid Hrun Hin Hi Hm Hct Ht Hr Hsz.
  - inversion Hin.
  - apply NoDup_cons in Hnd as [Hnotin Hnd].
    apply Forall_cons in Hvalid as [Ha0 Hvalid].
    cbn [for_each] in Hrun.
    apply bind_Ok_inv in Hrun as ([[p1 metrics1] repls1] & H1 & Hrun).
    destruct (decide (a = a0)) as [->|Hne].
    + assert (Hop : is_instance_invoke (opcode inst) = true).
      { destruct (is_instance_invoke (opcode inst)) eqn:E; [reflexivity|].
        unfold drop_this_arg_step in H1.
        rewrite (deref_Some _ _ _ Hi), bind_Ok, Hm, Hct, bind_Ok in H1.
        rewrite bool_decide_eq_true_2 in H1 by exact Ht.
        rewrite (patch_call_site_Fail _ _ _ E) in H1. discriminate. }
      rewrite (drop_step_in_set _ _ _ _ _ _ _ _ Hi Hm Hct Ht Hop) in H1.
      cbv zeta in H1. rewrite Hr in H1.
      rewrite bool_decide_eq_true_2 in H1 by exact Hsz.
      injection H1 as <- <- <-.
      pose proof (drop_scan_shape _ _ _ _ _ _ _ _ Hrun)
        as (_ & _ & Hlen & Hframe & new & -> & _ & _).
      simpl in Hlen, Hframe. rewrite length_app, length_insert in Hlen, Hframe.
      simpl in Hlen, Hframe.
      exists (length (insns p)). rewrite length_insert. split.
      { apply elem_of_app. left. apply elem_of_app. right. left. }
      split; [lia|].
      rewrite Hframe.
      * rewrite lookup_app_r by (rewrite length_insert; lia).
        rewrite length_insert, Nat.sub_diag. reflexivity.
      * intros Hc. rewrite Forall_forall in Hvalid.
        specialize (Hvalid _ Hc). lia.
      * lia.
    + apply elem_of_cons in Hin as [Heq|Hin]; [contradiction|].
      pose proof (drop_step_shape _ _ _ _ _ _ _ _ H1)
        as (Hm1 & _ & Hlen1 & Hframe1 & _).
      destruct (IH p1 metrics1 repls1 p' metrics' repls') as (r & Hr1 & Hr2 & Hr3);
        auto.
      * eapply Forall_impl; [exact Hvalid|]. simpl. intros b Hb. lia.
      * rewrite Hframe1; [exact Hi | exact Hne |].
        eapply lookup_lt_Some. exact Hi.
      * rewrite (call_target_methods _ _ _ _ Hm1). exact Hct.
      * exists r. split; [exact Hr1|]. split; [lia | exact Hr3].
Qed.

Lemma NoDup_lookup_unique (code : list addr) :
  NoDup code ->
  forall (i j : nat) (x : addr),
    code !! i = Some x -> code !! j = Some x -> i = j.
Proof. intros Hnd i j x Hi Hj. eapply NoDup_lookup; eauto. Qed.

(** ** The drop-receiver scan returns *)

Lemma shift_src_defined (k : nat) (inst : IRInstruction) :
  (S k < length (m_srcs inst))%nat ->
  exists inst', shift_src k inst = Ok inst' /\
                length (m_srcs inst') = length (m_srcs inst).
Proof.
  intros Hlen.
  destruct (lookup_lt_is_Some_2 (m_srcs inst) (S k) Hlen) as [r Hr].
  unfold shift_src, src. replace (k + 1)%nat with (S k) by lia.
  rewrite (deref_Some _ _ _ Hr), bind_Ok. unfold set_src.
  rewrite bool_decide_eq_true_2 by lia.
  eexists. split; [reflexivity|]. simpl. apply length_insert.
Qed.

Lemma shift_loop_total (n : nat) : forall (k : nat) (inst : IRInstruction),
  (k + n < length (m_srcs inst))%nat \/ n = 0%nat ->
  exists inst', for_each shift_src (seq k n) inst = Ok inst'.
Proof.
  induction n as [|n IH]; intros k inst Hlen; [eexists; reflexivity|].
  destruct Hlen as [Hlen|]; [|discriminate].
  destruct (shift_src_defined k inst) as (inst1 & H1 & Hl1); [lia|].
  cbn [seq for_each]. rewrite H1, bind_Ok.
  apply IH. left. rewrite Hl1. lia.
Qed.

Lemma drop_step_total statics a p metrics repls :
  rewritable resolve_method statics p a ->
  exists st',
    drop_this_arg_step resolve_method statics a ((p, metrics), repls) = Ok st'.
Proof.
  intros (inst & Hi & Hcall).
  destruct (get_method inst) as [mref|] eqn:Hm.
  2:{ eexists. unfold drop_this_arg_step.
      rewrite (deref_Some _ _ _ Hi), bind_Ok, Hm. reflexivity. }
  destruct Hcall as (dm & Hdm & Hcall).
  pose proof (call_target_lookup Any _ _ _ Hdm) as Hct.
  destruct (if is_concrete dm then Some mref else resolve_method mref Any)
    as [t|] eqn:Htgt.
  2:{ eexists. apply (drop_step_outside _ _ _ _ _ _ _ _ Hi Hm Hct). discriminate. }
  destruct (decide (t ∈ statics)) as [Hin|Hout].
  2:{ eexists. apply (drop_step_outside _ _ _ _ _ _ _ _ Hi Hm Hct).
      intros t' Ht'. injection Ht' as <-. exact Hout. }
  rewrite (drop_step_in_set _ _ _ _ _ _ _ _ Hi Hm Hct Hin (Hcall Hin)).
  cbv zeta. destruct (is_invoke_range (opcode inst)).
  - destruct (bool_decide (range_size inst = 1)); eexists; reflexivity.
  - destruct (shift_loop_total (Z.to_nat (arg_word_count inst - 1)) 0
                (set_method (set_opcode inst (static_form (opcode inst))) t))
      as [inst2 Hloop].
    { simpl. unfold arg_word_count, wrap16.
      destruct (decide (Z.of_nat (length (m_srcs inst)) mod 65536 - 1 <= 0)).
      - right. lia.
      - left. pose proof (Z.mod_le (Z.of_nat (length (m_srcs inst))) 65536).
        lia. }
    rewrite Hloop, bind_Ok. eexists. reflexivity.
Qed.

Lemma rewritable_frame statics p p1 a :
  methods p1 = methods p ->
  insns p1 !! a = insns p !! a ->
  rewritable resolve_method statics p a ->
  rewritable resolve_method statics p1 a.
Proof. intros Hm Hi H. unfold rewritable in *. rewrite Hm, Hi. exact H. Qed.

Lemma rewritable_valid statics p a :
  rewritable resolve_method statics p a -> (a < length (insns p))%nat.
Proof. intros (inst & Hi & _). eapply lookup_lt_Some. exact Hi. Qed.

Lemma drop_scan_total statics (code : list addr) :
  forall p metrics repls,
  NoDup code ->
  Forall (rewritable resolve_method statics p) code ->
  exists st',
    for_each (drop_this_arg_step resolve_method statics) code
             ((p, metrics), repls) = Ok st'.
Proof.
  induction code as [|a code IH]; intros p metrics repls Hnd Hall.
  - eexists. reflexivity.
  - apply NoDup_cons in Hnd as [Hnotin Hnd].
    apply Forall_cons in Hall as [Ha Hall]. cbn [for_each].
    destruct (drop_step_total statics a p metrics repls Ha)
      as [[[p1 metrics1] repls1] H1].
    rewrite H1, bind_Ok. apply IH; [exact Hnd|].
    apply drop_step_shape in H1 as (Hm1 & _ & _ & Hf1 & _).
    apply Forall_forall. intros b Hb.
    pose proof (proj1 (Forall_forall _ _) Hall b Hb) as Hrb.
    apply (rewritable_frame _ p); [exact Hm1 | | exact Hrb].
    apply Hf1; [intros ->; contradiction | exact (rewritable_valid _ _ _ Hrb)].
Qed.

(** C2: a range-form call with a window of exactly 1 whose target is in
    the drop-receiver set is replaced as a whole: the rewrite of the method
    body returns, and then the place of the call in the stream holds a
    newly constructed explicit-form static call with no argument and the
    same target, and the original instruction occurs in the stream no
    more.  The replacements are recorded by the scan, which leaves every
    stream as it is, and are applied once the scan is over. *)
Theorem range_degenerate_replaced statics m dm (code : list addr) p metrics
    (k : nat) a inst mref t :
  methods p !! m = Some dm ->
  NoDup code ->
  Forall (rewritable resolve_method statics p) code ->
  code !! k = Some a ->
  insns p !! a = Some inst ->
  get_method inst = Some mref ->
  call_target resolve_method p Any mref = Ok (Some t) ->
  t ∈ statics ->
  is_invoke_range (opcode inst) = true ->
  range_size inst = 1 ->
  exists p' metrics' p1 metrics1 replacements r dm' code',
    drop_this_arg_fixer resolve_method statics m code (p, metrics)
    = Ok (p', metrics') /\
    for_each (drop_this_arg_step resolve_method statics) code ((p, metrics), [])
    = Ok ((p1, metrics1), replacements) /\
    methods p1 = methods p /\
    (a, r) ∈ replacements /\
    (length (insns p) <= r)%nat /\
    insns p' !! r = Some (mkInsn OPCODE_INVOKE_STATIC (Some t) [] 0 0 0) /\
    methods p' !! m = Some dm' /\
    get_code dm' = Some code' /\
    code' = apply_replacements code replacements /\
    code' !! k = Some r /\
    a ∉ code'.
Proof.
  intros Hdm Hnd Hall Hk Hi Hm Hct Ht Hr Hsz.
  assert (Hvalid : Forall (fun b => (b < length (insns p))%nat) code).
  { eapply Forall_impl; [exact Hall|]. intros b. apply rewritable_valid. }
  destruct (drop_scan_total statics code p metrics [] Hnd Hall)
    as [[[p1 metrics1] repls] Hscan].
  pose proof (drop_scan_shape _ _ _ _ _ _ _ _ Hscan)
    as (Hm1 & _ & Hlen & _ & new & Hnew & Hfresh & Hnd1).
  simpl in Hnew. subst new. specialize (Hnd1 Hnd).
  assert (Hin : a ∈ code) by (eapply list_elem_of_lookup_2; exact Hk).
  destruct (drop_scan_replaced _ _ _ _ _ _ _ _ _ _ _ _ Hnd Hvalid Hscan Hin
              Hi Hm Hct Ht Hr Hsz) as (r & Hr1 & Hr2 & Hr3).
  set (N := length (insns p)) in *.
  assert (Hbounds : Forall (fun ar => (ar.1 < N <= ar.2)%nat) repls).
  { apply Forall_forall. intros ar Har.
    destruct (proj1 (Forall_forall _ _) Hfresh _ Har) as [H1 H2].
    pose proof (proj1 (Forall_forall _ _) Hvalid _ H1) as H3.
    simpl in H3. lia. }
  assert (Hmap : apply_replacements code repls = subst_all repls <$> code).
  { apply (apply_replacements_fmap N); [|exact Hbounds].
    intros i j x _. apply NoDup_lookup_unique. exact Hnd. }
  assert (Hfix : drop_this_arg_fixer resolve_method statics m code (p, metrics)
                 = Ok (set_methods p1
                         (<[m := set_code dm (Some (apply_replacements code repls))]>
                            (methods p1)), metrics1)).
  { unfold drop_this_arg_fixer. rewrite Hscan, bind_Ok. cbv beta iota zeta.
    rewrite Hm1, (deref_Some _ _ _ Hdm), bind_Ok. reflexivity. }
  eexists _, _, p1, metrics1, repls, r,
    (set_code dm (Some (apply_replacements code repls))),
    (apply_replacements code repls).
  split; [exact Hfix|]. split; [exact Hscan|]. split; [exact Hm1|].
  split; [exact Hr1|]. split; [exact Hr2|]. split; [exact Hr3|]. split.
  { simpl. rewrite Hm1. apply list_lookup_insert_eq.
    eapply lookup_lt_Some. exact Hdm. }
  split; [reflexivity|]. split; [reflexivity|]. split.
  - rewrite Hmap, list_lookup_fmap, Hk. simpl. f_equal.
    apply (subst_all_replaced N); assumption.
  - rewrite Hmap. intros Hc. apply list_elem_of_fmap in Hc as (y & Hy & Hyc).
    assert (Ha : (a < N)%nat) by (eapply lookup_lt_Some; exact Hi).
    destruct (subst_all_low N repls y Hbounds) as [Hsame|Hhigh].
    + rewrite Hsame in Hy. subst y.
      pose proof (subst_all_replaced N repls a r Hbounds Hnd1 Hr1) as E.
      rewrite Hsame in E. lia.
    + lia.
Qed.

(** ** The counters *)

Lemma site_opcode_frame search targets p p1 b :
  methods p1 = methods p ->
  insns p1 !! b = insns p !! b ->
  site_opcode resolve_method p1 search targets b
  = site_opcode resolve_method p search targets b.
Proof. intros Hm Hi. unfold site_opcode. rewrite Hm, Hi. reflexivity. Qed.

Lemma keep_step_metrics targets m a p metrics p1 metrics1 :
  fix_call_sites_fixer resolve_method targets m a (p, metrics)
  = Ok (p1, metrics1) ->
  methods p1 = methods p /\
  (forall b, b <> a -> insns p1 !! b = insns p !! b) /\
  match site_opcode resolve_method p Virtual targets a with
  | Some op => is_instance_invoke op = true /\ metrics1 = count_kind op metrics
  | None => metrics1 = metrics
  end.
Proof.
  intros H0. pose proof H0 as H. unfold fix_call_sites_fixer in H.
  apply bind_Ok_inv in H as (insn & Hi & H). apply deref_Ok_inv in Hi.
  unfold site_opcode. rewrite Hi. simpl.
  destruct (get_method insn) as [mref|] eqn:Hm; simpl.
  2:{ injection H as <- <-. auto. }
  apply bind_Ok_inv in H as (tgt & Hct & H).
  pose proof Hct as Hct'. unfold call_target in Hct'.
  apply bind_Ok_inv in Hct' as (dm & Hdm & Hct'). apply deref_Ok_inv in Hdm.
  rewrite Hdm. simpl.
  assert (Htgt : tgt = if is_concrete dm then Some mref
                       else resolve_method mref Virtual).
  { destruct (is_concrete dm); injection Hct' as <-; reflexivity. }
  rewrite <- Htgt. clear Hct' Htgt.
  destruct tgt as [t|]; simpl.
  2:{ injection H as <- <-. auto. }
  destruct (bool_decide (t ∈ targets)) eqn:Hin.
  2:{ injection H as <- <-. auto. }
  apply bool_decide_eq_true_1 in Hin.
  apply bind_Ok_inv in H as (_ & _ & H).
  apply bind_Ok_inv in H as ([insn1 m1] & Hp & _).
  pose proof (patch_call_site_Ok_inv _ _ _ _ Hp) as Hop.
  rewrite (keep_step_patched _ _ _ _ _ _ _ _ Hi Hm Hct Hin Hop) in H0.
  injection H0 as <- <-. simpl. repeat split; auto.
  intros b Hb. apply list_lookup_insert_ne. congruence.
Qed.

Lemma drop_step_metrics statics a p metrics repls p1 metrics1 repls1 :
  drop_this_arg_step resolve_method statics a ((p, metrics), repls)
  = Ok ((p1, metrics1), repls1) ->
  match site_opcode resolve_method p Any statics a with
  | Some op => is_instance_invoke op = true /\ metrics1 = count_kind op metrics
  | None => metrics1 = metrics
  end.
Proof.
  intros H0. pose proof H0 as H. unfold drop_this_arg_step in H.
  apply bind_Ok_inv in H as (inst & Hi & H). apply deref_Ok_inv in Hi.
  unfold site_opcode. rewrite Hi. simpl.
  destruct (get_method inst) as [mref|] eqn:Hm; simpl.
  2:{ injection H as <- <-. auto. }
  apply bind_Ok_inv in H as (tgt & Hct & H).
  pose proof Hct as Hct'. unfold call_target in Hct'.
  apply bind_Ok_inv in Hct' as (dm & Hdm & Hct'). apply deref_Ok_inv in Hdm.
  rewrite Hdm. simpl.
  assert (Htgt : tgt = if is_concrete dm then Some mref
                       else resolve_method mref Any).
  { destruct (is_concrete dm); injection Hct' as <-; reflexivity. }
  rewrite <- Htgt. clear Hct' Htgt.
  destruct tgt as [t|]; simpl.
  2:{ injection H as <- <-. auto. }
  destruct (bool_decide (t ∈ statics)) eqn:Hin.
  2:{ injection H as <- <-. auto. }
  apply bool_decide_eq_true_1 in Hin.
  apply bind_Ok_inv in H as ([inst1 m1] & Hp & _).
  pose proof (patch_call_site_Ok_inv _ _ _ _ Hp) as Hop.
  rewrite (drop_step_in_set _ _ _ _ _ _ _ _ Hi Hm Hct Hin Hop) in H0.
  cbv zeta in H0. split; [exact Hop|].
  destruct (is_invoke_range (opcode inst)).
  - destruct (bool_decide (range_size inst = 1)); injection H0 as _ <- _; reflexivity.
  - apply bind_Ok_inv in H0 as (inst2 & _ & H0). injection H0 as _ <- _. reflexivity.
Qed.

Lemma patched_sites_cons search targets p a (code : list addr) :
  patched_sites resolve_method p search targets (a :: code)
  = match site_opcode resolve_method p search targets a with
    | Some op => op :: patched_sites resolve_method p search targets code
    | None => patched_sites resolve_method p search targets code
    end.
Proof. reflexivity. Qed.

Lemma patched_sites_frame search targets p p1 (code : list addr) :
  methods p1 = methods p ->
  (forall b, b ∈ code -> insns p1 !! b = insns p !! b) ->
  patched_sites resolve_method p1 search targets code
  = patched_sites resolve_method p search targets code.
Proof.
  intros Hm.
  induction code as [|a code IH]; intros Hf; [reflexivity|].
  rewrite !patched_sites_cons.
  rewrite (site_opcode_frame _ _ _ _ _ Hm (Hf a ltac:(left))).
  rewrite IH by (intros b Hb; apply Hf; right; exact Hb). reflexivity.
Qed.

(** The counters after a scan: one [count_kind] per patched site. *)
Lemma keep_scan_metrics targets m (code : list addr) :
  forall p metrics p' metrics',
  NoDup code ->
  for_each (fix_call_sites_fixer resolve_method targets m) code (p, metrics)
  = Ok (p', metrics') ->
  Forall (fun op => is_instance_invoke op = true)
         (patched_sites resolve_method p Virtual targets code) /\
  metrics' = foldl (fun mt op => count_kind op mt) metrics
                   (patched_sites resolve_method p Virtual targets code).
Proof.
  induction code as [|a code IH]; intros p metrics p' metrics' Hnd H.
  - simpl in H. injection H as <- <-. split; [constructor | reflexivity].
  - apply NoDup_cons in Hnd as [Hnotin Hnd].
    cbn [for_each] in H. apply bind_Ok_inv in H as ([p1 metrics1] & H1 & H).
    apply keep_step_metrics in H1 as (Hm1 & Hf1 & Hsite).
    apply IH in H as [Hall Hmt]; [|exact Hnd].
    rewrite (patched_sites_frame _ _ p p1 code Hm1) in Hall, Hmt
      by (intros b Hb; apply Hf1; intros ->; contradiction).
    rewrite patched_sites_cons.
    destruct (site_opcode resolve_method p Virtual targets a) as [op|].
    + destruct Hsite as [Hop ->]. split; [constructor; assumption | exact Hmt].
    + subst metrics1. split; assumption.
Qed.

Lemma drop_scan_metrics statics (code : list addr) :
  forall p metrics repls p' metrics' repls',
  NoDup code ->
  Forall (fun b => (b < length (insns p))%nat) code ->
  for_each (drop_this_arg_step resolve_method statics) code ((p, metrics), repls)
  = Ok ((p', metrics'), repls') ->
  Forall (fun op => is_instance_invoke op = true)
         (patched_sites resolve_method p Any statics code) /\
  metrics' = foldl (fun mt op => count_kind op mt) metrics
                   (patched_sites resolve_method p Any statics code).
Proof.
  induction code as [|a code IH];
    intros p metrics repls p' metrics' repls' Hnd Hvalid H.
  - simpl in H. injection H as <- <- <-. split; [constructor | reflexivity].
  - apply NoDup_cons in Hnd as [Hnotin Hnd].
    apply Forall_cons in Hvalid as [Ha Hvalid].
    cbn [for_each] in H.
    apply bind_Ok_inv in H as ([[p1 metrics1] repls1] & H1 & H).
    pose proof (drop_step_metrics _ _ _ _ _ _ _ _ H1) as Hsite.
    apply drop_step_shape in H1 as (Hm1 & _ & Hlen1 & Hf1 & _).
    apply IH in H as [Hall Hmt]; [|exact Hnd|].
    2:{ eapply Forall_impl; [exact Hvalid|]. simpl. intros b Hb. lia. }
    rewrite (patched_sites_frame _ _ p p1 code Hm1) in Hall, Hmt.
    2,3: intros b Hb; apply Hf1;
      [intros ->; contradiction
      | exact (proj1 (Forall_forall _ _) Hvalid _ Hb)].
    rewrite patched_sites_cons.
    destruct (site_opcode resolve_method p Any statics a) as [op|].
    + destruct Hsite as [Hop ->]. split; [constructor; assumption | exact Hmt].
    + subst metrics1. split; assumption.
Qed.

Lemma instance_invoke_kinds (op : DexOpcode) :
  is_instance_invoke op = true ->
  (Nat.b2n (is_invoke_virtual op) + Nat.b2n (is_invoke_super op)
   + Nat.b2n (is_invoke_direct op) = 1)%nat.
Proof.
  intros H. apply instance_invoke_cases in H.
  destruct H as [H|[H|[H|[H|[H|H]]]]]; rewrite H; reflexivity.
Qed.

Lemma count_calls_cons kind op sites :
  count_calls kind (op :: sites) = (Nat.b2n (kind op) + count_calls kind sites)%nat.
Proof. unfold count_calls. simpl. destruct (kind op); reflexivity. Qed.

Lemma count_kind_fold (sites : list DexOpcode) : forall metrics,
  Forall (fun op => is_instance_invoke op = true) sites ->
  counters_grow metrics (foldl (fun mt op => count_kind op mt) metrics sites)
                sites.
Proof.
  induction sites as [|op sites IH]; intros metrics Hall.
  - simpl. constructor; unfold count_calls; simpl; lia.
  - apply Forall_cons in Hall as [Hop Hall]. simpl.
    specialize (IH (count_kind op metrics) Hall).
    destruct IH as [Hv Hs Hd Ht Hn Hu].
    pose proof (instance_invoke_kinds _ Hop) as Hone.
    assert (Hk : num_virtual_calls (count_kind op metrics)
                 = (num_virtual_calls metrics + Nat.b2n (is_invoke_virtual op))%nat /\
                 num_super_calls (count_kind op metrics)
                 = (num_super_calls metrics + Nat.b2n (is_invoke_super op))%nat /\
                 num_direct_calls (count_kind op metrics)
                 = (num_direct_calls metrics + Nat.b2n (is_invoke_direct op))%nat /\
                 num_methods_not_using_this (count_kind op metrics)
                 = num_methods_not_using_this metrics /\
                 num_methods_using_this (count_kind op metrics)
                 = num_methods_using_this metrics).
    { apply instance_invoke_cases in Hop. unfold count_kind.
      destruct Hop as [H|[H|[H|[H|[H|H]]]]]; rewrite H; simpl;
        repeat split; lia. }
    destruct Hk as (Kv & Ks & Kd & Kn & Ku).
    constructor; rewrite ?count_calls_cons; simpl length; try lia; congruence.
Qed.

Lemma count_calls_all_virtual (sites : list DexOpcode) :
  Forall (fun op => is_invoke_virtual op = true) sites ->
  count_calls is_invoke_virtual sites = length sites /\
  count_calls is_invoke_super sites = 0%nat /\
  count_calls is_invoke_direct sites = 0%nat.
Proof.
  induction sites as [|op sites IH]; intros Hall; [repeat split|].
  apply Forall_cons in Hall as [Hop Hall].
  destruct (IH Hall) as (Hv & Hs & Hd). rewrite !count_calls_cons, Hv, Hs, Hd.
  rewrite Hop. simpl length.
  destruct op; try discriminate Hop; repeat split.
Qed.

(** ** A static call in the target set *)

Lemma keep_step_static_fails targets m a p metrics insn mref t :
  insns p !! a = Some insn ->
  get_method insn = Some mref ->
  is_invoke_static (opcode insn) = true ->
  call_target resolve_method p Virtual mref = Ok (Some t) ->
  t ∈ targets ->
  fix_call_sites_fixer resolve_method targets m a (p, metrics)
  = Fail AssertionFailure.
Proof.
  intros Hi Hm Hst Hct Ht.
  rewrite (keep_step_in_set _ _ _ _ _ _ _ _ Hi Hm Hct Ht).
  rewrite Hst. reflexivity.
Qed.

Lemma drop_step_static_fails statics a p metrics repls insn mref t :
  insns p !! a = Some insn ->
  get_method insn = Some mref ->
  is_invoke_static (opcode insn) = true ->
  call_target resolve_method p Any mref = Ok (Some t) ->
  t ∈ statics ->
  drop_this_arg_step resolve_method statics a ((p, metrics), repls)
  = Fail AssertionFailure.
Proof.
  intros Hi Hm Hst Hct Ht. unfold drop_this_arg_step.
  rewrite (deref_Some _ _ _ Hi), bind_Ok, Hm, Hct, bind_Ok.
  rewrite bool_decide_eq_true_2 by exact Ht.
  rewrite patch_call_site_Fail; [reflexivity|].
  destruct (opcode insn); try discriminate Hst; reflexivity.
Qed.

Lemma keep_scan_static_fails targets m a insn mref t (code : list addr) :
  forall p metrics,
  a ∈ code -> NoDup code ->
  insns p !! a = Some insn ->
  get_method insn = Some mref ->
  is_invoke_static (opcode insn) = true ->
  call_target resolve_method p Virtual mref = Ok (Some t) ->
  t ∈ targets ->
  exists e,
    for_each (fix_call_sites_fixer resolve_method targets m) code (p, metrics)
    = Fail e.
Proof.
  induction code as [|a0 code IH]; intros p metrics Hin Hnd Hi Hm Hst Hct Ht.
  - inversion Hin.
  - apply NoDup_cons in Hnd as [Hnotin Hnd]. cbn [for_each].
    destruct (fix_call_sites_fixer resolve_method targets m a0 (p, metrics))
      as [[p1 metrics1]|e] eqn:H1; [|exists e; reflexivity].
    rewrite bind_Ok.
    apply elem_of_cons in Hin as [->|Hin].
    + rewrite (keep_step_static_fails _ _ _ _ _ _ _ _ Hi Hm Hst Hct Ht) in H1.
      discriminate.
    + apply keep_step_metrics in H1 as (Hm1 & Hf1 & _).
      apply IH; auto.
      * rewrite Hf1; [exact Hi|]. intros ->. contradiction.
      * rewrite (call_target_methods _ _ _ _ Hm1). exact Hct.
Qed.

Lemma drop_scan_static_fails statics a insn mref t (code : list addr) :
  forall p metrics repls,
  a ∈ code -> NoDup code ->
  insns p !! a = Some insn ->
  get_method insn = Some mref ->
  is_invoke_static (opcode insn) = true ->
  call_target resolve_method p Any mref = Ok (Some t) ->
  t ∈ statics ->
  exists e,
    for_each (drop_this_arg_step resolve_method statics) code
             ((p, metrics), repls)
    = Fail e.
Proof.
  induction code as [|a0 code IH]; intros p metrics repls Hin Hnd Hi Hm Hst Hct Ht.
  - inversion Hin.
  - apply NoDup_cons in Hnd as [Hnotin Hnd]. cbn [for_each].
    destruct (drop_this_arg_step resolve_method statics a0 ((p, metrics), repls))
      as [[[p1 metrics1] repls1]|e] eqn:H1; [|exists e; reflexivity].
    rewrite bind_Ok.
    apply elem_of_cons in Hin as [->|Hin].
    + rewrite (drop_step_static_fails _ _ _ _ _ _ _ _ Hi Hm Hst Hct Ht) in H1.
      discriminate.
    + apply drop_step_shape in H1 as (Hm1 & _ & _ & Hf1 & _).
      apply IH; auto.
      * rewrite Hf1; [exact Hi | intros ->; contradiction |].
        eapply lookup_lt_Some. exact Hi.
      * rewrite (call_target_methods _ _ _ _ Hm1). exact Hct.
Qed.

End Rewriter.

(** ** The receiver-usage analysis *)

Lemma reads_test_spec (i : IRInstruction) (r : Z) :
  reads_test i r = true <-> reads i r.
Proof.
  unfold reads_test, reads. rewrite orb_true_iff, !andb_true_iff.
  rewrite Z.leb_le, Z.ltb_lt, existsb_exists. split.
  - intros [(H1 & H2 & H3)|(x & Hx & Hr)].
    + right. auto.
    + left. apply Z.eqb_eq in Hr. subst x. apply list_elem_of_In. exact Hx.
  - intros [H|(H1 & H2 & H3)].
    + right. exists r. split; [apply list_elem_of_In; exact H | apply Z.eqb_refl].
    + left. auto.
Qed.

Lemma uses_this_scan_cons heap r a (code : list addr) i :
  heap !! a = Some i ->
  uses_this_scan heap r (a :: code)
  = if reads_test i r then Ok true else uses_this_scan heap r code.
Proof.
  intros H. cbn [uses_this_scan]. rewrite (deref_Some _ _ _ H), bind_Ok.
  unfold reads_test.
  destruct (has_range (opcode i)
            && ((range_base i <=? r) && (r <? range_base i + range_size i)));
    [reflexivity|].
  simpl. destruct (existsb (Z.eqb r) (m_srcs i)); reflexivity.
Qed.

Lemma uses_this_scan_false heap r (code : list addr) :
  Forall (fun a => is_Some (heap !! a)) code ->
  (forall a i, a ∈ code -> heap !! a = Some i -> ~ reads i r) ->
  uses_this_scan heap r code = Ok false.
Proof.
  induction code as [|a code IH]; intros Hvalid Hnone; [reflexivity|].
  apply Forall_cons in Hvalid as [[i Hi] Hvalid].
  rewrite (uses_this_scan_cons _ _ _ _ _ Hi).
  destruct (reads_test i r) eqn:E.
  - apply reads_test_spec in E. exfalso. apply (Hnone a i); [left | exact Hi | exact E].
  - apply IH; [exact Hvalid|]. intros b j Hb. apply Hnone. right. exact Hb.
Qed.

Lemma uses_this_scan_true heap r (code : list addr) :
  Forall (fun a => is_Some (heap !! a)) code ->
  (exists a i, a ∈ code /\ heap !! a = Some i /\ reads i r) ->
  uses_this_scan heap r code = Ok true.
Proof.
  induction code as [|a code IH]; intros Hvalid (b & j & Hb & Hj & Hr).
  - inversion Hb.
  - apply Forall_cons in Hvalid as [[i Hi] Hvalid].
    rewrite (uses_this_scan_cons _ _ _ _ _ Hi).
    destruct (reads_test i r) eqn:E; [reflexivity|].
    apply IH; [exact Hvalid|].
    apply elem_of_cons in Hb as [->|Hb].
    + rewrite Hi in Hj. injection Hj as <-.
      apply reads_test_spec in Hr. congruence.
    + exists b, j. auto.
Qed.

(** C5: for a method with a body that starts with the receiver load, the
    analysis answers "not used" when no instruction of the body has the
    receiver's register as a source operand or inside its register window
    (the load only writes it), and "used" when an instruction after the
    load has it as a source operand or inside the window of a range-form
    instruction. *)
Theorem receiver_usage_sound p method dm a0 (rest : list addr) this_insn :
  methods p !! method = Some dm ->
  get_code dm = Some (a0 :: rest) ->
  insns p !! a0 = Some this_insn ->
  opcode this_insn = IOPCODE_LOAD_PARAM_OBJECT ->
  Forall (fun a => is_Some (insns p !! a)) rest ->
  let this_reg := dest this_insn in
  ((forall a i, a ∈ a0 :: rest -> insns p !! a = Some i -> ~ reads i this_reg) ->
   uses_this p method = Ok false) /\
  ((exists a i, a ∈ rest /\ insns p !! a = Some i /\ reads i this_reg) ->
   uses_this p method = Ok true).
Proof.
  intros Hdm Hcode Hi Hop Hvalid this_reg.
  assert (Hrun : uses_this p method
                 = uses_this_scan (insns p) this_reg (a0 :: rest)).
  { unfold uses_this. rewrite (deref_Some _ _ _ Hdm), bind_Ok, Hcode.
    rewrite (deref_Some _ _ _ Hi), bind_Ok, Hop. reflexivity. }
  assert (Hvalid' : Forall (fun a => is_Some (insns p !! a)) (a0 :: rest)).
  { constructor; [eauto | exact Hvalid]. }
  rewrite Hrun. split.
  - intros Hnone. apply uses_this_scan_false; assumption.
  - intros (a & i & Ha & Hai & Hr). apply uses_this_scan_true; [assumption|].
    exists a, i. split; [right; exact Ha | auto].
Qed.

(** ** Static methods stay static *)

Lemma static_mono_refl p : static_mono p p.
Proof. intros m H. exact H. Qed.

Lemma static_mono_trans p1 p2 p3 :
  static_mono p1 p2 -> static_mono p2 p3 -> static_mono p1 p3.
Proof. intros H1 H2 m H. apply H2, H1, H. Qed.

Lemma static_mono_methods p p' :
  methods p' = methods p -> static_mono p p'.
Proof. intros E m H. unfold static_at in *. rewrite E. exact H. Qed.

Lemma for_each_preserves {A S} (R : S -> S -> Prop) (body : A -> S -> result S) :
  (forall s, R s s) ->
  (forall s1 s2 s3, R s1 s2 -> R s2 s3 -> R s1 s3) ->
  (forall x s s', body x s = Ok s' -> R s s') ->
  forall l s s', for_each body l s = Ok s' -> R s s'.
Proof.
  intros Hrefl Htrans Hbody. induction l as [|x l IH]; intros s s' H.
  - simpl in H. injection H as <-. apply Hrefl.
  - simpl in H. apply bind_Ok_inv in H as (s1 & H1 & H).
    eapply Htrans; [apply (Hbody _ _ _ H1) | apply (IH _ _ H)].
Qed.

Lemma walk_methods_preserves {S} (prog_of : S -> Program) (R : S -> S -> Prop)
    scope (walker : MethodId -> S -> result S) :
  (forall s, R s s) ->
  (forall s1 s2 s3, R s1 s2 -> R s2 s3 -> R s1 s3) ->
  (forall m s s', walker m s = Ok s' -> R s s') ->
  forall s s', walk_methods prog_of scope walker s = Ok s' -> R s s'.
Proof.
  intros Hrefl Htrans Hw s s' H. unfold walk_methods in H.
  revert s s' H. apply for_each_preserves; [exact Hrefl | exact Htrans |].
  intros c s s' H. apply bind_Ok_inv in H as (cls & _ & H).
  revert s s' H. apply for_each_preserves; assumption.
Qed.

Lemma walk_code_preserves {S} (prog_of : S -> Program) (R : S -> S -> Prop)
    scope (walker : MethodId -> list addr -> S -> result S) :
  (forall s, R s s) ->
  (forall s1 s2 s3, R s1 s2 -> R s2 s3 -> R s1 s3) ->
  (forall m code s s', walker m code s = Ok s' -> R s s') ->
  forall s s', walk_code prog_of scope walker s = Ok s' -> R s s'.
Proof.
  intros Hrefl Htrans Hw. unfold walk_code.
  apply walk_methods_preserves; [exact Hrefl | exact Htrans |].
  intros m s s' H. apply bind_Ok_inv in H as (dm & _ & H).
  destruct (get_code dm) as [code|].
  - exact (Hw _ _ _ _ H).
  - injection H as <-. apply Hrefl.
Qed.

Lemma static_at_insert_code p m dm code m0 :
  methods p !! m = Some dm ->
  static_at p m0 ->
  static_at (set_methods p (<[m := set_code dm code]> (methods p))) m0.
Proof.
  intros Hdm (dm0 & H0 & Hs). unfold static_at. simpl.
  destruct (decide (m = m0)) as [->|Hne].
  - rewrite list_lookup_insert_eq by (eapply lookup_lt_Some; exact Hdm).
    eexists. split; [reflexivity|]. simpl. congruence.
  - rewrite list_lookup_insert_ne by exact Hne. eauto.
Qed.

(** ** Walks over the scope *)

Lemma scope_methods_classes p p' scope :
  classes p' = classes p -> scope_methods p' scope = scope_methods p scope.
Proof.
  intros E. induction scope as [|c scope IH]; [reflexivity|].
  simpl. rewrite E, IH. reflexivity.
Qed.

Lemma methods_stream_methods p p' (ms : list MethodId) :
  methods p' = methods p -> methods_stream p' ms = methods_stream p ms.
Proof.
  intros E. induction ms as [|m ms IH]; [reflexivity|].
  simpl. rewrite E, IH. reflexivity.
Qed.

(** A walk over the scope is a loop over the methods of the scope. *)
Lemma walk_methods_flat {S} (prog_of : S -> Program) scope
    (walker : MethodId -> S -> result S) :
  (forall m s s', walker m s = Ok s' ->
     classes (prog_of s') = classes (prog_of s)) ->
  forall s ms,
    scope_methods (prog_of s) scope = Some ms ->
    walk_methods prog_of scope walker s = for_each walker ms s.
Proof.
  intros Hinv. unfold walk_methods.
  induction scope as [|c scope IH]; intros s ms Hms.
  - simpl in Hms. injection Hms as <-. reflexivity.
  - simpl in Hms.
    destruct (classes (prog_of s) !! c) as [cls|] eqn:Hc; [|discriminate].
    simpl in Hms.
    destruct (scope_methods (prog_of s) scope) as [rest|] eqn:Hrest;
      [|discriminate].
    injection Hms as <-. cbn [for_each].
    rewrite (deref_Some _ _ _ Hc), bind_Ok.
    rewrite (for_each_app walker (get_dmethods cls ++ get_vmethods cls) rest s).
    destruct (for_each walker (get_dmethods cls ++ get_vmethods cls) s)
      as [s1|e] eqn:H1; [|reflexivity].
    rewrite !bind_Ok. apply IH.
    rewrite <- Hrest. apply scope_methods_classes.
    revert H1.
    apply (for_each_preserves
             (fun s s' => classes (prog_of s') = classes (prog_of s)) walker).
    + reflexivity.
    + intros s1' s2' s3' H12 H23. rewrite H23. exact H12.
    + exact Hinv.
Qed.

Section Passes.

Variable resolve_method : MethodId -> MethodSearch -> option MethodId.

(** *** The keep-receiver rewrite is one loop over the instructions *)

Lemma keep_step_cases targets m a p metrics p1 metrics1 :
  fix_call_sites_fixer resolve_method targets m a (p, metrics)
  = Ok (p1, metrics1) ->
  p1 = p \/ exists i, p1 = store_insn p a i.
Proof.
  intros H. unfold fix_call_sites_fixer in H.
  apply bind_Ok_inv in H as (insn & _ & H).
  destruct (get_method insn) as [mref|]; [|injection H as <- _; auto].
  apply bind_Ok_inv in H as (tgt & _ & H).
  destruct tgt as [t|]; [|injection H as <- _; auto].
  destruct (bool_decide (t ∈ targets)); [|injection H as <- _; auto].
  apply bind_Ok_inv in H as (_ & _ & H).
  apply bind_Ok_inv in H as ([insn1 m1] & _ & H).
  injection H as <- _. eauto.
Qed.

Lemma keep_scan_decls targets m (code : list addr) s s' :
  for_each (fix_call_sites_fixer resolve_method targets m) code s = Ok s' ->
  methods s'.1 = methods s.1 /\ classes s'.1 = classes s.1.
Proof.
  revert s s'.
  apply (for_each_preserves
           (fun s s' => methods s'.1 = methods s.1 /\ classes s'.1 = classes s.1)).
  - auto.
  - intros s1 s2 s3 [H1 H2] [H3 H4]. split; congruence.
  - intros a [p metrics] [p1 metrics1] H.
    apply keep_step_cases in H as [->|[i ->]]; auto.
Qed.

Lemma fix_call_sites_visit_decls targets m s s' :
  fix_call_sites_visit resolve_method targets m s = Ok s' ->
  methods s'.1 = methods s.1 /\ classes s'.1 = classes s.1.
Proof.
  unfold fix_call_sites_visit. intros H.
  apply bind_Ok_inv in H as (dm & _ & H).
  destruct (get_code dm) as [code|].
  - exact (keep_scan_decls _ _ _ _ _ H).
  - injection H as <-. auto.
Qed.

Lemma fix_call_sites_visit_eq targets m p metrics dm :
  methods p !! m = Some dm ->
  fix_call_sites_visit resolve_method targets m (p, metrics)
  = match get_code dm with
    | Some code =>
        for_each (fix_call_sites_fixer resolve_method targets 0) code
                 (p, metrics)
    | None => Ok (p, metrics)
    end.
Proof.
  intros Hdm. unfold fix_call_sites_visit. cbn [fst].
  rewrite (deref_Some _ _ _ Hdm), bind_Ok. reflexivity.
Qed.

Lemma keep_methods_flat targets (ms : list MethodId) :
  forall p metrics stream,
  methods_stream p ms = Some stream ->
  for_each (fix_call_sites_visit resolve_method targets) ms (p, metrics)
  = for_each (fix_call_sites_fixer resolve_method targets 0) stream
             (p, metrics).
Proof.
  induction ms as [|m ms IH]; intros p metrics stream Hs.
  - simpl in Hs. injection Hs as <-. reflexivity.
  - simpl in Hs. destruct (methods p !! m) as [dm|] eqn:Hdm; [|discriminate].
    simpl in Hs.
    destruct (methods_stream p ms) as [rest|] eqn:Hrest; [|discriminate].
    injection Hs as <-. cbn [for_each]. rewrite for_each_app.
    rewrite (fix_call_sites_visit_eq _ _ _ _ _ Hdm).
    destruct (get_code dm) as [code|]; simpl default.
    + destruct (for_each (fix_call_sites_fixer resolve_method targets 0) code
                  (p, metrics)) as [[p1 metrics1]|e] eqn:H1; [|reflexivity].
      rewrite !bind_Ok. apply IH.
      apply keep_scan_decls in H1 as [Hm _]. simpl in Hm.
      rewrite <- Hrest. apply methods_stream_methods. exact Hm.
    + cbn [for_each]. rewrite !bind_Ok. apply IH. exact Hrest.
Qed.

(** The keep-receiver rewrite of the program is the loop of its walker
    over the instructions of the scope. *)
Lemma fix_call_sites_flat scope targets p metrics stream :
  scope_stream p scope = Some stream ->
  fix_call_sites resolve_method scope targets (p, metrics)
  = for_each (fix_call_sites_fixer resolve_method targets 0) stream
             (p, metrics).
Proof.
  unfold scope_stream. intros Hs.
  destruct (scope_methods p scope) as [ms|] eqn:Hms; [|discriminate].
  simpl in Hs.
  unfold fix_call_sites, walk_opcodes, walk_code.
  rewrite (walk_methods_flat fst scope _) with (ms := ms).
  - exact (keep_methods_flat targets ms p metrics stream Hs).
  - intros m s s' H. apply (fix_call_sites_visit_decls targets m s s' H).
  - exact Hms.
Qed.

(** *** The drop-receiver rewrite, method by method *)

Lemma call_target_agrees search p q mref :
  (forall m, is_concrete <$> methods q !! m = is_concrete <$> methods p !! m) ->
  call_target resolve_method q search mref
  = call_target resolve_method p search mref.
Proof.
  intros H. specialize (H mref). unfold call_target, deref.
  destruct (methods q !! mref) as [dq|], (methods p !! mref) as [dp|];
    simpl in H; try discriminate; [|reflexivity].
  injection H as H. rewrite !bind_Ok, H. reflexivity.
Qed.

Lemma site_opcode_agrees search targets p q a :
  (forall m, is_concrete <$> methods q !! m = is_concrete <$> methods p !! m) ->
  insns q !! a = insns p !! a ->
  site_opcode resolve_method q search targets a
  = site_opcode resolve_method p search targets a.
Proof.
  intros Hc Hi. unfold site_opcode. rewrite Hi.
  destruct (insns p !! a) as [inst|]; [|reflexivity]. simpl.
  destruct (get_method inst) as [mref|]; [|reflexivity]. simpl.
  specialize (Hc mref).
  destruct (methods q !! mref) as [dq|], (methods p !! mref) as [dp|];
    simpl in Hc; try discriminate; [|reflexivity].
  injection Hc as Hc. simpl. rewrite Hc. reflexivity.
Qed.

Lemma patched_sites_agrees search targets p q (code : list addr) :
  (forall m, is_concrete <$> methods q !! m = is_concrete <$> methods p !! m) ->
  (forall a, a ∈ code -> insns q !! a = insns p !! a) ->
  patched_sites resolve_method q search targets code
  = patched_sites resolve_method p search targets code.
Proof.
  intros Hc. induction code as [|a code IH]; intros Hi; [reflexivity|].
  rewrite !patched_sites_cons.
  rewrite (site_opcode_agrees _ _ _ _ _ Hc (Hi a ltac:(left))).
  rewrite IH by (intros b Hb; apply Hi; right; exact Hb). reflexivity.
Qed.

Lemma patched_sites_app search targets p (l1 l2 : list addr) :
  patched_sites resolve_method p search targets (l1 ++ l2)
  = patched_sites resolve_method p search targets l1
    ++ patched_sites resolve_method p search targets l2.
Proof. unfold patched_sites. apply omap_app. Qed.

Lemma drop_fixer_effect statics m (code : list addr) p metrics p' metrics' :
  drop_this_arg_fixer resolve_method statics m code (p, metrics)
  = Ok (p', metrics') ->
  classes p' = classes p /\
  (forall m', m' <> m -> methods p' !! m' = methods p !! m') /\
  (forall m', is_concrete <$> methods p' !! m'
              = is_concrete <$> methods p !! m') /\
  (length (insns p) <= length (insns p'))%nat /\
  (forall b, b ∉ code -> (b < length (insns p))%nat ->
     insns p' !! b = insns p !! b).
Proof.
  intros H. unfold drop_this_arg_fixer in H.
  apply bind_Ok_inv in H as ([[p1 metrics1] repls] & Hscan & H).
  apply bind_Ok_inv in H as (dm & Hdm & H). apply deref_Ok_inv in Hdm.
  injection H as <- _.
  apply drop_scan_shape in Hscan as (Hm1 & Hc1 & Hlen & Hframe & _).
  simpl. rewrite Hm1 in *. repeat split; auto.
  - intros m' Hne. apply list_lookup_insert_ne. congruence.
  - intros m'. destruct (decide (m = m')) as [->|Hne].
    + rewrite list_lookup_insert_eq by (eapply lookup_lt_Some; exact Hdm).
      rewrite Hdm. reflexivity.
    + rewrite list_lookup_insert_ne by exact Hne. reflexivity.
Qed.

Lemma drop_this_arg_visit_eq statics m p metrics dm :
  methods p !! m = Some dm ->
  drop_this_arg_visit resolve_method statics m (p, metrics)
  = match get_code dm with
    | Some code => drop_this_arg_fixer resolve_method statics m code (p, metrics)
    | None => Ok (p, metrics)
    end.
Proof.
  intros Hdm. unfold drop_this_arg_visit. cbn [fst].
  rewrite (deref_Some _ _ _ Hdm), bind_Ok. reflexivity.
Qed.

Lemma drop_this_arg_visit_classes statics m s s' :
  drop_this_arg_visit resolve_method statics m s = Ok s' ->
  classes s'.1 = classes s.1.
Proof.
  destruct s as [p metrics], s' as [p' metrics']. unfold drop_this_arg_visit.
  intros H. apply bind_Ok_inv in H as (dm & _ & H).
  destruct (get_code dm) as [code|].
  - apply drop_fixer_effect in H as [H _]. exact H.
  - injection H as <- _. reflexivity.
Qed.

(** The drop-receiver rewrite of the program is the loop of its fixer
    over the methods of the scope. *)
Lemma fix_call_sites_and_drop_this_arg_flat scope statics p metrics ms :
  scope_methods p scope = Some ms ->
  fix_call_sites_and_drop_this_arg resolve_method scope statics (p, metrics)
  = for_each (drop_this_arg_visit resolve_method statics) ms (p, metrics).
Proof.
  intros Hms. unfold fix_call_sites_and_drop_this_arg, walk_code.
  apply (walk_methods_flat fst scope
           (drop_this_arg_visit resolve_method statics)).
  - intros m s s'. apply drop_this_arg_visit_classes.
  - exact Hms.
Qed.

Lemma agrees_refl p (ms : list MethodId) (stream : list addr) :
  agrees p p ms stream.
Proof. repeat split; auto. Qed.

Lemma agrees_step statics p q q' metrics metrics' m (ms : list MethodId)
    (code rest : list addr) :
  agrees p q (m :: ms) (code ++ rest) ->
  NoDup (m :: ms) ->
  NoDup (code ++ rest) ->
  Forall (fun b => (b < length (insns p))%nat) (code ++ rest) ->
  drop_this_arg_fixer resolve_method statics m code (q, metrics)
  = Ok (q', metrics') ->
  agrees p q' ms rest.
Proof.
  intros (Hm & Hc & Hl & Hi) Hndm Hnd Hvalid Hfix.
  apply drop_fixer_effect in Hfix as (_ & Hm' & Hc' & Hl' & Hi').
  apply NoDup_cons in Hndm as [Hnotin _].
  apply NoDup_app in Hnd as (_ & Hdisj & _).
  apply Forall_app in Hvalid as [_ Hvalid].
  repeat split.
  - intros m' Hin. rewrite Hm' by (intros ->; contradiction).
    apply Hm. right. exact Hin.
  - intros m'. rewrite Hc'. apply Hc.
  - lia.
  - intros a Ha. rewrite Hi'.
    + apply Hi. apply elem_of_app. right. exact Ha.
    + intros Hcode. exact (Hdisj a Hcode Ha).
    + pose proof (proj1 (Forall_forall _ _) Hvalid a Ha) as Hlt. simpl in Hlt. lia.
Qed.

Lemma drop_walk_metrics statics p (ms : list MethodId) :
  forall stream q metrics q' metrics',
  methods_stream p ms = Some stream ->
  NoDup ms -> NoDup stream ->
  Forall (fun b => (b < length (insns p))%nat) stream ->
  agrees p q ms stream ->
  for_each (drop_this_arg_visit resolve_method statics) ms (q, metrics)
  = Ok (q', metrics') ->
  Forall (fun op => is_instance_invoke op = true)
         (patched_sites resolve_method p Any statics stream) /\
  metrics' = foldl (fun mt op => count_kind op mt) metrics
                   (patched_sites resolve_method p Any statics stream).
Proof.
  induction ms as [|m ms IH];
    intros stream q metrics q' metrics' Hs Hndm Hnd Hvalid Hag Hrun.
  - simpl in Hs. injection Hs as <-. simpl in Hrun. injection Hrun as <- <-.
    split; [constructor | reflexivity].
  - simpl in Hs. destruct (methods p !! m) as [dm|] eqn:Hdm; [|discriminate].
    simpl in Hs.
    destruct (methods_stream p ms) as [rest|] eqn:Hrest; [|discriminate].
    injection Hs as <-.
    cbn [for_each] in Hrun.
    apply bind_Ok_inv in Hrun as ([q1 metrics1] & H1 & Hrun).
    pose proof Hag as (Hm & Hc & Hl & Hi).
    rewrite (drop_this_arg_visit_eq _ _ _ _ dm) in H1
      by (rewrite Hm by left; exact Hdm).
    rewrite patched_sites_app, foldl_app, Forall_app.
    destruct (get_code dm) as [code|]; simpl default in *.
    + pose proof (agrees_step _ _ _ _ _ _ _ _ _ _ Hag Hndm Hnd Hvalid H1) as Hag1.
      apply NoDup_cons in Hndm as [_ Hndm].
      pose proof Hnd as Hnd'. apply NoDup_app in Hnd' as (Hndc & _ & Hndr).
      pose proof Hvalid as Hvalid'.
      apply Forall_app in Hvalid' as [Hvc Hvr].
      destruct (IH rest q1 metrics1 q' metrics' eq_refl Hndm Hndr Hvr Hag1 Hrun)
        as [Hall ->].
      unfold drop_this_arg_fixer in H1.
      apply bind_Ok_inv in H1 as ([[q2 metrics2] repls] & Hscan & H1).
      apply bind_Ok_inv in H1 as (dm' & _ & H1). injection H1 as _ <-.
      apply drop_scan_metrics in Hscan as [Hallc ->]; [|exact Hndc|].
      2:{ eapply Forall_impl; [exact Hvc|]. simpl. intros b Hb. lia. }
      rewrite (patched_sites_agrees Any statics p q code Hc) in *
        by (intros a Ha; apply Hi, elem_of_app; left; exact Ha).
      split; [split; assumption | reflexivity].
    + injection H1 as <- <-. simpl.
      apply NoDup_cons in Hndm as [_ Hndm].
      assert (Hag1 : agrees p q ms rest).
      { repeat split; auto. intros m' Hin. apply Hm. right. exact Hin. }
      destruct (IH rest q metrics q' metrics' eq_refl Hndm Hnd Hvalid Hag1 Hrun)
        as [Hall ->].
      split; [split; [constructor | exact Hall] | reflexivity].
Qed.

Lemma drop_walk_static_fails statics p a insn mref t (ms : list MethodId) :
  insns p !! a = Some insn ->
  get_method insn = Some mref ->
  is_invoke_static (opcode insn) = true ->
  call_target resolve_method p Any mref = Ok (Some t) ->
  t ∈ statics ->
  forall stream q metrics,
  methods_stream p ms = Some stream ->
  NoDup ms -> NoDup stream ->
  Forall (fun b => (b < length (insns p))%nat) stream ->
  agrees p q ms stream ->
  a ∈ stream ->
  exists e,
    for_each (drop_this_arg_visit resolve_method statics) ms (q, metrics)
    = Fail e.
Proof.
  intros Hinsn Hmref Hst Hct Ht.
  induction ms as [|m ms IH];
    intros stream q metrics Hs Hndm Hnd Hvalid Hag Hin.
  - simpl in Hs. injection Hs as <-. inversion Hin.
  - simpl in Hs. destruct (methods p !! m) as [dm|] eqn:Hdm; [|discriminate].
    simpl in Hs.
    destruct (methods_stream p ms) as [rest|] eqn:Hrest; [|discriminate].
    injection Hs as <-.
    cbn [for_each].
    pose proof Hag as (Hm & Hc & Hl & Hi).
    rewrite (drop_this_arg_visit_eq _ _ _ _ dm)
      by (rewrite Hm by left; exact Hdm).
    destruct (get_code dm) as [code|]; simpl default in *.
    + destruct (drop_this_arg_fixer resolve_method statics m code (q, metrics))
        as [[q1 metrics1]|e] eqn:H1; [|exists e; reflexivity].
      rewrite bind_Ok.
      apply elem_of_app in Hin as [Hin|Hin].
      * exfalso.
        pose proof Hnd as Hnd'. apply NoDup_app in Hnd' as (Hndc & _ & _).
        destruct (drop_scan_static_fails resolve_method statics a insn mref t
                    code q metrics [] Hin Hndc) as [e He]; auto.
        -- rewrite Hi by (apply elem_of_app; left; exact Hin). exact Hinsn.
        -- rewrite (call_target_agrees Any p q mref Hc). exact Hct.
        -- unfold drop_this_arg_fixer in H1. rewrite He in H1. discriminate.
      * pose proof (agrees_step _ _ _ _ _ _ _ _ _ _ Hag Hndm Hnd Hvalid H1) as Hag1.
        apply NoDup_cons in Hndm as [_ Hndm].
        apply NoDup_app in Hnd as (_ & _ & Hndr).
        apply Forall_app in Hvalid as [_ Hvr].
        exact (IH rest q1 metrics1 eq_refl Hndm Hndr Hvr Hag1 Hin).
    + rewrite bind_Ok. apply NoDup_cons in Hndm as [_ Hndm].
      assert (Hag1 : agrees p q ms rest).
      { repeat split; auto. intros m' Hin'. apply Hm. right. exact Hin'. }
      exact (IH rest q metrics eq_refl Hndm Hnd Hvalid Hag1 Hin).
Qed.

(** *** The counters and the assertion, over a rewrite of the program *)

(** C3, as the code has it: a patched instruction gets the static call
    opcode of its own encoding form (explicit stays explicit, range stays
    range), and exactly one of the virtual, super and direct counters goes
    up by one, the one of the call kind the instruction had; so over a
    rewrite of the program, in either protocol, each counter grows by the
    number of patched call sites of its kind, and the three together by
    the number of patched call sites.  The virtual counter grows by the
    number of patched call sites, with the super and direct counters
    unchanged, when every patched call site is a virtual call; the kind of
    the converted methods does not decide it. *)
Theorem counters_follow_call_kind :
  (forall callee inst metrics inst' metrics',
     patch_call_site callee inst metrics = Ok (inst', metrics') ->
     is_instance_invoke (opcode inst) = true /\
     opcode inst' = static_form (opcode inst) /\
     is_invoke_static (opcode inst') = true /\
     is_invoke_range (opcode inst') = is_invoke_range (opcode inst) /\
     metrics' = count_kind (opcode inst) metrics /\
     counters_grow metrics metrics' [opcode inst]) /\
  (forall scope targets p metrics p' metrics' stream,
     scope_stream p scope = Some stream ->
     NoDup stream ->
     fix_call_sites resolve_method scope targets (p, metrics)
     = Ok (p', metrics') ->
     let sites := patched_sites resolve_method p Virtual targets stream in
     counters_grow metrics metrics' sites /\
     (Forall (fun op => is_invoke_virtual op = true) sites ->
      num_virtual_calls metrics'
      = (num_virtual_calls metrics + length sites)%nat /\
      num_super_calls metrics' = num_super_calls metrics /\
      num_direct_calls metrics' = num_direct_calls metrics)) /\
  (forall scope statics p metrics p' metrics' ms stream,
     scope_methods p scope = Some ms ->
     methods_stream p ms = Some stream ->
     NoDup ms -> NoDup stream ->
     Forall (fun b => (b < length (insns p))%nat) stream ->
     fix_call_sites_and_drop_this_arg resolve_method scope statics (p, metrics)
     = Ok (p', metrics') ->
     let sites := patched_sites resolve_method p Any statics stream in
     counters_grow metrics metrics' sites /\
     (Forall (fun op => is_invoke_virtual op = true) sites ->
      num_virtual_calls metrics'
      = (num_virtual_calls metrics + length sites)%nat /\
      num_super_calls metrics' = num_super_calls metrics /\
      num_direct_calls metrics' = num_direct_calls metrics)).
Proof.
  assert (Hall_virtual : forall metrics metrics' sites,
    counters_grow metrics metrics' sites ->
    Forall (fun op => is_invoke_virtual op = true) sites ->
    num_virtual_calls metrics' = (num_virtual_calls metrics + length sites)%nat /\
    num_super_calls metrics' = num_super_calls metrics /\
    num_direct_calls metrics' = num_direct_calls metrics).
  { intros metrics metrics' sites [Hv Hs Hd _ _ _] Hall.
    destruct (count_calls_all_virtual _ Hall) as (Cv & Cs & Cd).
    rewrite Hv, Hs, Hd, Cv, Cs, Cd. lia. }
  split; [|split].
  - intros callee inst metrics inst' metrics' H.
    pose proof (patch_call_site_Ok_inv _ _ _ _ H) as Hop.
    rewrite (patch_call_site_Ok _ _ _ Hop) in H. injection H as <- <-.
    split; [exact Hop|]. split; [reflexivity|].
    split; [unfold opcode, static_form; simpl;
            destruct (is_invoke_range (m_opcode inst)); reflexivity|].
    split; [apply is_invoke_range_static_form|].
    split; [reflexivity|].
    apply (count_kind_fold [opcode inst] metrics).
    constructor; [exact Hop | constructor].
  - intros scope targets p metrics p' metrics' stream Hs Hnd H sites.
    rewrite (fix_call_sites_flat _ _ _ _ _ Hs) in H.
    apply keep_scan_metrics in H as [Hall ->]; [|exact Hnd].
    pose proof (count_kind_fold _ metrics Hall) as Hgrow.
    split; [exact Hgrow | exact (Hall_virtual _ _ _ Hgrow)].
  - intros scope statics p metrics p' metrics' ms stream Hms Hs Hndm Hnd Hvalid
      H sites.
    rewrite (fix_call_sites_and_drop_this_arg_flat _ _ _ _ _ Hms) in H.
    apply (drop_walk_metrics statics p ms stream p metrics p' metrics' Hs Hndm
             Hnd Hvalid (agrees_refl p ms stream)) in H as [Hall ->].
    pose proof (count_kind_fold _ metrics Hall) as Hgrow.
    split; [exact Hgrow | exact (Hall_virtual _ _ _ Hgrow)].
Qed.

(** C7: in both rewrites, a call instruction of the target set that is
    already a static call (explicit or range form) stops the rewrite on an
    assertion when it is reached; it is neither patched nor skipped, and
    the rewrite of a program that holds such an instruction, hence the
    phase that asked for it, does not complete. *)
Theorem static_call_in_target_set_fails a p metrics insn mref :
  insns p !! a = Some insn ->
  get_method insn = Some mref ->
  is_invoke_static (opcode insn) = true ->
  (forall targets m t,
     call_target resolve_method p Virtual mref = Ok (Some t) ->
     t ∈ targets ->
     fix_call_sites_fixer resolve_method targets m a (p, metrics)
     = Fail AssertionFailure /\
     forall scope stream,
       scope_stream p scope = Some stream ->
       NoDup stream -> a ∈ stream ->
       exists e,
         fix_call_sites resolve_method scope targets (p, metrics) = Fail e /\
         staticize_methods_using_this resolve_method scope targets (p, metrics)
         = Fail e) /\
  (forall statics repls t,
     call_target resolve_method p Any mref = Ok (Some t) ->
     t ∈ statics ->
     drop_this_arg_step resolve_method statics a ((p, metrics), repls)
     = Fail AssertionFailure /\
     forall scope ms stream,
       scope_methods p scope = Some ms ->
       methods_stream p ms = Some stream ->
       NoDup ms -> NoDup stream ->
       Forall (fun b => (b < length (insns p))%nat) stream ->
       a ∈ stream ->
       exists e,
         fix_call_sites_and_drop_this_arg resolve_method scope statics
           (p, metrics) = Fail e /\
         staticize_methods_not_using_this resolve_method scope statics
           (p, metrics) = Fail e).
Proof.
  intros Hi Hm Hst. split.
  - intros targets m t Hct Ht. split.
    + exact (keep_step_static_fails _ _ _ _ _ _ _ _ _ Hi Hm Hst Hct Ht).
    + intros scope stream Hs Hnd Hin.
      destruct (keep_scan_static_fails resolve_method targets 0 _ _ _ _ _ _
                  metrics Hin Hnd Hi Hm Hst Hct Ht) as [e He].
      exists e. rewrite <- (fix_call_sites_flat _ _ _ _ _ Hs) in He.
      split; [exact He|]. unfold staticize_methods_using_this.
      rewrite He. reflexivity.
  - intros statics repls t Hct Ht. split.
    + exact (drop_step_static_fails _ _ _ _ _ _ _ _ _ Hi Hm Hst Hct Ht).
    + intros scope ms stream Hms Hs Hndm Hnd Hvalid Hin.
      destruct (drop_walk_static_fails statics p a insn mref t ms Hi Hm Hst Hct
                  Ht stream p metrics Hs Hndm Hnd Hvalid
                  (agrees_refl p ms stream) Hin) as [e He].
      exists e. rewrite <- (fix_call_sites_and_drop_this_arg_flat _ _ _ _ _ Hms)
        in He.
      split; [exact He|]. unfold staticize_methods_not_using_this.
      rewrite He. reflexivity.
Qed.

End Passes.

Section Phases.

Variable resolve_method : MethodId -> MethodSearch -> option MethodId.

Lemma drop_fixer_static statics m (code : list addr) st st' :
  drop_this_arg_fixer resolve_method statics m code st = Ok st' ->
  static_mono st.1 st'.1.
Proof.
  destruct st as [p metrics]. intros H. unfold drop_this_arg_fixer in H.
  apply bind_Ok_inv in H as ([[p1 metrics1] repls] & Hscan & H).
  apply bind_Ok_inv in H as (dm & Hdm & H). apply deref_Ok_inv in Hdm.
  injection H as <-. simpl.
  apply drop_scan_shape in Hscan as (Hm1 & _).
  intros m0 H0. apply static_at_insert_code; [exact Hdm|].
  apply (static_mono_methods p p1 Hm1). exact H0.
Qed.

Lemma fix_call_sites_and_drop_this_arg_static scope statics st st' :
  fix_call_sites_and_drop_this_arg resolve_method scope statics st = Ok st' ->
  static_mono st.1 st'.1.
Proof.
  unfold fix_call_sites_and_drop_this_arg.
  apply (walk_code_preserves fst (fun s s' => static_mono s.1 s'.1)).
  - intros s. apply static_mono_refl.
  - intros s1 s2 s3. apply static_mono_trans.
  - intros m code s s'. apply drop_fixer_static.
Qed.

Lemma fix_call_sites_static scope targets st st' :
  fix_call_sites resolve_method scope targets st = Ok st' ->
  static_mono st.1 st'.1.
Proof.
  unfold fix_call_sites, walk_opcodes.
  apply (walk_code_preserves fst (fun s s' => static_mono s.1 s'.1)).
  - intros s. apply static_mono_refl.
  - intros s1 s2 s3. apply static_mono_trans.
  - intros m code. 
    apply (for_each_preserves (fun s s' => static_mono s.1 s'.1)).
    + intros s. apply static_mono_refl.
    + intros s1 s2 s3. apply static_mono_trans.
    + intros a [p metrics] [p' metrics'] H.
      apply keep_step_metrics in H as (Hm & _). simpl.
      apply static_mono_methods. exact Hm.
Qed.

End Phases.

(** ** Making methods static *)

Lemma make_static_static method keep_this p p' :
  make_static method keep_this p = Ok p' ->
  static_mono p p' /\ static_at p' method.
Proof.
  intros H. unfold make_static in H.
  apply bind_Ok_inv in H as (dm & Hdm & H). apply deref_Ok_inv in Hdm.
  pose proof (lookup_lt_Some _ _ _ Hdm) as Hlt.
  assert (Hgen : forall dm' heap,
    is_static dm' = true ->
    let p' := mkProgram (classes p) (<[method := dm']> (methods p)) heap in
    static_mono p p' /\ static_at p' method).
  { intros dm' heap Hs q. subst q. split.
    - intros m0 (dm0 & H0 & Hs0). unfold static_at. simpl.
      destruct (decide (method = m0)) as [->|Hne].
      + rewrite list_lookup_insert_eq by exact Hlt. eauto.
      + rewrite list_lookup_insert_ne by exact Hne. eauto.
    - unfold static_at. simpl.
      rewrite list_lookup_insert_eq by exact Hlt. eauto. }
  destruct keep_this; simpl in H.
  - destruct (get_code dm) as [[|a0 rest]|].
    + injection H as <-. apply (Hgen (set_static dm)). reflexivity.
    + apply bind_Ok_inv in H as (heap & _ & H). injection H as <-.
      apply (Hgen (set_code (set_static dm) (Some rest))). reflexivity.
    + injection H as <-. apply (Hgen (set_static dm)). reflexivity.
  - injection H as <-. apply (Hgen (set_static dm)). reflexivity.
Qed.

Lemma make_static_each keep_this (l : list MethodId) : forall p p',
  for_each (fun method p => make_static method keep_this p) l p = Ok p' ->
  static_mono p p' /\ forall m, m ∈ l -> static_at p' m.
Proof.
  induction l as [|m0 l IH]; intros p p' H.
  - simpl in H. injection H as <-. split; [apply static_mono_refl|].
    intros m Hm. inversion Hm.
  - simpl in H. apply bind_Ok_inv in H as (p1 & H1 & H).
    apply make_static_static in H1 as [Hmono1 Hat1].
    apply IH in H as [Hmono Hat]. split.
    + eapply static_mono_trans; eassumption.
    + intros m Hm. apply elem_of_cons in Hm as [->|Hm]; [apply Hmono, Hat1 | apply Hat, Hm].
Qed.

Lemma make_methods_static_static (ms : gset MethodId) keep_this p p' :
  make_methods_static ms keep_this p = Ok p' ->
  static_mono p p' /\ forall m, m ∈ ms -> static_at p' m.
Proof.
  unfold make_methods_static. intros H.
  apply make_static_each in H as [Hmono Hat]. split; [exact Hmono|].
  intros m Hm. apply Hat. apply elem_of_elements. exact Hm.
Qed.

Section Staticize.

Variable resolve_method : MethodId -> MethodSearch -> option MethodId.

Lemma staticize_methods_not_using_this_static scope (ms : gset MethodId) st st' :
  staticize_methods_not_using_this resolve_method scope ms st = Ok st' ->
  static_mono st.1 st'.1 /\ forall m, m ∈ ms -> static_at st'.1 m.
Proof.
  unfold staticize_methods_not_using_this. intros H.
  apply bind_Ok_inv in H as ([p1 metrics1] & Hfix & H).
  apply bind_Ok_inv in H as (p2 & Hmake & H). injection H as <-. simpl.
  apply fix_call_sites_and_drop_this_arg_static in Hfix. simpl in Hfix.
  apply make_methods_static_static in Hmake as [Hmono Hat].
  split; [eapply static_mono_trans; eassumption | exact Hat].
Qed.

Lemma staticize_methods_using_this_static scope (ms : gset MethodId) st st' :
  staticize_methods_using_this resolve_method scope ms st = Ok st' ->
  static_mono st.1 st'.1 /\ forall m, m ∈ ms -> static_at st'.1 m.
Proof.
  unfold staticize_methods_using_this. intros H.
  apply bind_Ok_inv in H as ([p1 metrics1] & Hfix & H).
  apply bind_Ok_inv in H as (p2 & Hmake & H). injection H as <-. simpl.
  apply fix_call_sites_static in Hfix. simpl in Hfix.
  apply make_methods_static_static in Hmake as [Hmono Hat].
  split; [eapply static_mono_trans; eassumption | exact Hat].
Qed.

End Staticize.

(** ** The candidates and their classification *)

Section Driver.

Variable resolve_method : MethodId -> MethodSearch -> option MethodId.
Variable keep : MethodId -> bool.
Variable devirtualize : Program -> list ClassId -> list MethodId.

Lemma get_devirtualizable_vmethods_sound p scope targets cands :
  get_devirtualizable_vmethods devirtualize p scope targets = Ok cands ->
  forall m, m ∈ cands ->
    m ∈ devirtualize p scope /\
    exists dm cls, methods p !! m = Some dm /\ get_class dm = Some cls /\
                   cls ∈ targets.
Proof.
  unfold get_devirtualizable_vmethods.
  generalize (devirtualize p scope) as l. intros l.
  assert (Hgen : forall (acc : list MethodId) cands,
    for_each (fun m ret =>
        dm ← deref (methods p) m;
        match get_class dm with
        | Some cls =>
            if bool_decide (cls ∈ (list_to_set targets : gset ClassId))
            then mret (ret ++ [m]) else mret ret
        | None => mret ret
        end) l acc = Ok cands ->
    forall m, m ∈ cands ->
      m ∈ acc \/
      (m ∈ l /\ exists dm cls, methods p !! m = Some dm /\
                               get_class dm = Some cls /\ cls ∈ targets)).
  { induction l as [|m0 l IH]; intros acc cands' H m Hm.
    - simpl in H. injection H as <-. left. exact Hm.
    - cbn [for_each] in H. apply bind_Ok_inv in H as (acc1 & H1 & H).
      apply bind_Ok_inv in H1 as (dm & Hdm & H1). apply deref_Ok_inv in Hdm.
      destruct (IH _ _ H m Hm) as [Hacc|[Hl Hrest]].
      + destruct (get_class dm) as [cls|] eqn:Hcls.
        * destruct (bool_decide (cls ∈ (list_to_set targets : gset ClassId))) eqn:Hin;
            injection H1 as <-.
          -- apply elem_of_app in Hacc as [Hacc|Hlast]; [left; exact Hacc|].
             apply list_elem_of_singleton in Hlast. subst m.
             right. split; [left|]. exists dm, cls.
             apply bool_decide_eq_true_1 in Hin.
             apply elem_of_list_to_set in Hin. auto.
          -- left. exact Hacc.
        * injection H1 as <-. left. exact Hacc.
      + right. split; [right; exact Hl | exact Hrest]. }
  intros H m Hm. destruct (Hgen [] cands H m Hm) as [Hnil|Hok].
  - inversion Hnil.
  - exact Hok.
Qed.

Lemma get_devirtualizable_dmethods_sound p scope targets cands :
  get_devirtualizable_dmethods p scope targets = Ok cands ->
  forall m, m ∈ cands ->
    exists dm, methods p !! m = Some dm /\
               is_any_init dm = false /\ is_static dm = false.
Proof.
  unfold get_devirtualizable_dmethods.
  set (P := fun m => exists dm, methods p !! m = Some dm /\
                                is_any_init dm = false /\ is_static dm = false).
  assert (Hinner : forall (l : list MethodId) (acc cands : list MethodId),
    for_each (fun m ret =>
        dm ← deref (methods p) m;
        if is_any_init dm || is_static dm then mret ret
        else mret (ret ++ [m])) l acc = Ok cands ->
    Forall P acc -> Forall P cands).
  { induction l as [|m0 l IH]; intros acc cands' H Hacc.
    - simpl in H. injection H as <-. exact Hacc.
    - cbn [for_each] in H. apply bind_Ok_inv in H as (acc1 & H1 & H).
      apply (IH _ _ H).
      apply bind_Ok_inv in H1 as (dm & Hdm & H1). apply deref_Ok_inv in Hdm.
      destruct (is_any_init dm || is_static dm) eqn:E; injection H1 as <-.
      + exact Hacc.
      + apply Forall_app. split; [exact Hacc|]. constructor; [|constructor].
        apply orb_false_iff in E as [E1 E2]. exists dm. auto. }
  assert (Houter : forall (l : list ClassId) (acc cands : list MethodId),
    for_each (fun cls ret =>
        if bool_decide (cls ∈ (list_to_set targets : gset ClassId)) then
          c ← deref (classes p) cls;
          for_each (fun m ret =>
              dm ← deref (methods p) m;
              if is_any_init dm || is_static dm then mret ret
              else mret (ret ++ [m])) (get_dmethods c) ret
        else mret ret) l acc = Ok cands ->
    Forall P acc -> Forall P cands).
  { induction l as [|c0 l IH]; intros acc cands' H Hacc.
    - simpl in H. injection H as <-. exact Hacc.
    - cbn [for_each] in H. apply bind_Ok_inv in H as (acc1 & H1 & H).
      apply (IH _ _ H).
      destruct (bool_decide (c0 ∈ (list_to_set targets : gset ClassId))).
      + apply bind_Ok_inv in H1 as (c & _ & H1). exact (Hinner _ _ _ H1 Hacc).
      + injection H1 as <-. exact Hacc. }
  intros H m Hm.
  pose proof (Houter _ _ _ H (Forall_nil_2 P)) as Hall.
  rewrite Forall_forall in Hall. exact (Hall m Hm).
Qed.

Lemma devirtualizable_methods_spec p (cands : list MethodId) found :
  devirtualizable_methods keep p cands = Ok found ->
  forall m, m ∈ found <-> m ∈ cands /\ eligible keep p m.
Proof.
  clear resolve_method devirtualize.
  unfold devirtualizable_methods.
  assert (Hgen : forall (l : list MethodId) (acc found : gset MethodId),
    for_each (fun method (found : gset MethodId) =>
        dm ← deref (methods p) method;
        if keep method || is_external dm || is_abstract dm then mret found
        else mret ({[method]} ∪ found)) l acc = Ok found ->
    forall m, m ∈ found <-> m ∈ acc \/ (m ∈ l /\ eligible keep p m)).
  { induction l as [|m0 l IH]; intros acc found' H m.
    - simpl in H. injection H as <-. split; [auto|].
      intros [H|[H _]]; [exact H | inversion H].
    - cbn [for_each] in H. apply bind_Ok_inv in H as (acc1 & H1 & H).
      rewrite (IH _ _ H m). clear IH H.
      apply bind_Ok_inv in H1 as (dm & Hdm & H1). apply deref_Ok_inv in Hdm.
      rewrite elem_of_cons.
      destruct (keep m0 || is_external dm || is_abstract dm) eqn:E;
        injection H1 as <-.
      + split; [tauto|]. intros [H|[[->|H] He]]; auto.
        exfalso. destruct He as (dm' & Hdm' & Hk & Hx & Ha).
        rewrite Hdm in Hdm'. injection Hdm' as <-.
        rewrite Hk, Hx, Ha in E. discriminate.
      + rewrite elem_of_union, elem_of_singleton.
        apply orb_false_iff in E as [E Ha].
        apply orb_false_iff in E as [Hk Hx].
        assert (eligible keep p m0) by (exists dm; auto).
        split.
        * intros [[->|H0]|H0]; auto. tauto.
        * intros [H0|[[->|H0] He]]; auto. }
  intros H m. rewrite (Hgen _ _ _ H m). split.
  - intros [H0|H0]; [|exact H0]. apply not_elem_of_empty in H0. contradiction.
  - auto.
Qed.

Lemma uses_this_no_receiver_load p m :
  no_receiver_load p m -> uses_this p m = Fail AssertionFailure.
Proof.
  intros (dm & Hdm & Hbody). unfold uses_this.
  rewrite (deref_Some _ _ _ Hdm), bind_Ok.
  destruct Hbody as [Hnone|(a & rest & i & Hcode & Hi & Hop)].
  - rewrite Hnone. reflexivity.
  - rewrite Hcode, (deref_Some _ _ _ Hi), bind_Ok.
    unfold op_eqb. rewrite bool_decide_eq_false_2 by exact Hop. reflexivity.
Qed.

Lemma uses_this_scan_total heap r (code : list addr) :
  Forall (fun a => is_Some (heap !! a)) code ->
  exists b, uses_this_scan heap r code = Ok b.
Proof.
  induction code as [|a code IH]; intros Hvalid; [exists false; reflexivity|].
  apply Forall_cons in Hvalid as [[i Hi] Hvalid].
  rewrite (uses_this_scan_cons _ _ _ _ _ Hi).
  destruct (reads_test i r); [exists true; reflexivity | exact (IH Hvalid)].
Qed.

Lemma uses_this_valid p m dm :
  bodies_valid p ->
  methods p !! m = Some dm ->
  (exists b, uses_this p m = Ok b) \/ uses_this p m = Fail AssertionFailure.
Proof.
  intros Hwf Hdm. unfold uses_this.
  rewrite (deref_Some _ _ _ Hdm), bind_Ok.
  destruct (get_code dm) as [code|] eqn:Hcode; [|right; reflexivity].
  destruct (Hwf _ _ _ Hdm Hcode) as [Hne Hvalid].
  destruct code as [|a rest]; [contradiction|].
  pose proof Hvalid as Hvalid'. apply Forall_cons in Hvalid' as [[i Hi] _].
  rewrite (deref_Some _ _ _ Hi), bind_Ok.
  destruct (opcode i == IOPCODE_LOAD_PARAM_OBJECT); [|right; reflexivity].
  left. unfold always_assert. rewrite bind_Ok.
  apply uses_this_scan_total. exact Hvalid.
Qed.

Lemma not_using_loop_spec p (l : list MethodId) : forall (acc found : gset MethodId),
  for_each (fun method (found : gset MethodId) =>
      used ← uses_this p method;
      if used : bool then mret found else mret ({[method]} ∪ found)) l acc
  = Ok found ->
  forall m, m ∈ found <-> m ∈ acc \/ (m ∈ l /\ uses_this p m = Ok false).
Proof.
  clear resolve_method keep devirtualize.
  induction l as [|m0 l IH]; intros acc found H m.
  - simpl in H. injection H as <-. split; [auto|].
    intros [H|[H _]]; [exact H | inversion H].
  - cbn [for_each] in H. apply bind_Ok_inv in H as (acc1 & H1 & H).
    rewrite (IH _ _ H m). clear IH H.
    apply bind_Ok_inv in H1 as (used & Hused & H1).
    rewrite elem_of_cons. destruct used; injection H1 as <-.
    + split; [tauto|]. intros [H|[[->|H] He]]; auto. congruence.
    + rewrite elem_of_union, elem_of_singleton. split.
      * intros [[->|H0]|H0]; auto. tauto.
      * intros [H0|[[->|H0] He]]; auto.
Qed.

Lemma not_using_loop_fails p (l : list MethodId) m e0 :
  m ∈ l -> uses_this p m = Fail e0 ->
  forall acc : gset MethodId,
  exists e,
    for_each (fun method (found : gset MethodId) =>
        used ← uses_this p method;
        if used : bool then mret found else mret ({[method]} ∪ found)) l acc
    = Fail e /\
    ((forall m', m' ∈ l -> (exists b, uses_this p m' = Ok b) \/
                           uses_this p m' = Fail AssertionFailure) ->
     e = AssertionFailure).
Proof.
  induction l as [|m0 l IH]; intros Hin Hfail acc; [inversion Hin|].
  cbn [for_each].
  destruct (uses_this p m0) as [used|e1] eqn:E1.
  - rewrite bind_Ok.
    assert (Hin' : m ∈ l).
    { apply elem_of_cons in Hin as [->|Hin]; [congruence | exact Hin]. }
    destruct used; rewrite bind_Ok.
    + destruct (IH Hin' Hfail acc) as (e & He & Hk). exists e.
      split; [exact He|]. intros Hall. apply Hk. intros m' Hm'. apply Hall.
      right. exact Hm'.
    + destruct (IH Hin' Hfail ({[m0]} ∪ acc)) as (e & He & Hk). exists e.
      split; [exact He|]. intros Hall. apply Hk. intros m' Hm'. apply Hall.
      right. exact Hm'.
  - exists e1. split; [reflexivity|]. intros Hall.
    destruct (Hall m0 ltac:(left)) as [[b Hb]|Hb]; congruence.
Qed.

Lemma devirtualizable_methods_total p (cands : list MethodId) :
  Forall (fun m => is_Some (methods p !! m)) cands ->
  exists found, devirtualizable_methods keep p cands = Ok found.
Proof.
  unfold devirtualizable_methods. generalize (∅ : gset MethodId) as acc.
  induction cands as [|m0 l IH]; intros acc Hvalid; [eexists; reflexivity|].
  apply Forall_cons in Hvalid as [[dm Hdm] Hvalid].
  cbn [for_each]. rewrite (deref_Some _ _ _ Hdm), bind_Ok.
  destruct (keep m0 || is_external dm || is_abstract dm); rewrite bind_Ok;
    apply IH; exact Hvalid.
Qed.

(** Classification stops on a candidate without a receiver load. *)
Lemma classification_fails p (cands : list MethodId) m :
  m ∈ cands -> eligible keep p m -> no_receiver_load p m ->
  exists e,
    devirtualizable_methods_not_using_this keep p cands = Fail e /\
    (bodies_valid p -> Forall (fun m => is_Some (methods p !! m)) cands ->
     e = AssertionFailure).
Proof.
  intros Hin Hel Hbad. unfold devirtualizable_methods_not_using_this.
  destruct (devirtualizable_methods keep p cands) as [found|e0] eqn:Hfound.
  - rewrite bind_Ok.
    assert (Hm : m ∈ elements found).
    { apply elem_of_elements.
      apply (devirtualizable_methods_spec _ _ _ Hfound). auto. }
    destruct (not_using_loop_fails p (elements found) m AssertionFailure Hm
                (uses_this_no_receiver_load _ _ Hbad) ∅) as (e & He & Hk).
    exists e. split; [exact He|]. intros Hwf _. apply Hk.
    intros m' Hm'. apply elem_of_elements in Hm'.
    apply (devirtualizable_methods_spec _ _ _ Hfound) in Hm' as [_ (dm & Hdm & _)].
    exact (uses_this_valid _ _ _ Hwf Hdm).
  - exists e0. split; [reflexivity|]. intros _ Hvalid.
    destruct (devirtualizable_methods_total p cands Hvalid) as [found Hf].
    congruence.
Qed.

Lemma not_using_loop_defined p (l : list MethodId) : forall (acc found : gset MethodId),
  for_each (fun method (found : gset MethodId) =>
      used ← uses_this p method;
      if used : bool then mret found else mret ({[method]} ∪ found)) l acc
  = Ok found ->
  forall m, m ∈ l -> exists b, uses_this p m = Ok b.
Proof.
  induction l as [|m0 l IH]; intros acc found H m Hm; [inversion Hm|].
  cbn [for_each] in H. apply bind_Ok_inv in H as (acc1 & H1 & H).
  apply bind_Ok_inv in H1 as (used & Hused & _).
  apply elem_of_cons in Hm as [->|Hm]; [eauto | exact (IH _ _ H m Hm)].
Qed.

Lemma not_using_this_spec p (cands : list MethodId) found :
  devirtualizable_methods_not_using_this keep p cands = Ok found ->
  exists eligible_set,
    devirtualizable_methods keep p cands = Ok eligible_set /\
    (forall m, m ∈ found <-> m ∈ eligible_set /\ uses_this p m = Ok false) /\
    (forall m, m ∈ eligible_set -> exists b, uses_this p m = Ok b).
Proof.
  unfold devirtualizable_methods_not_using_this. intros H.
  apply bind_Ok_inv in H as (E & HE & H). exists E. split; [exact HE|]. split.
  - intros m. rewrite (not_using_loop_spec _ _ _ _ H m).
    rewrite elem_of_elements. split.
    + intros [H0|H0]; [|exact H0]. apply not_elem_of_empty in H0. contradiction.
    + auto.
  - intros m Hm. apply (not_using_loop_defined _ _ _ _ H).
    apply elem_of_elements. exact Hm.
Qed.

Lemma when_true (phase : State -> result State) st : when true phase st = phase st.
Proof. reflexivity. Qed.

Lemma when_static (b : bool) (phase : State -> result State) st st' :
  (forall st st', phase st = Ok st' -> static_mono st.1 st'.1) ->
  when b phase st = Ok st' -> static_mono st.1 st'.1.
Proof.
  intros Hphase H. unfold when in H. destruct b.
  - exact (Hphase _ _ H).
  - injection H as <-. apply static_mono_refl.
Qed.

Lemma dmethods_not_using_this_phase_static scope targets st st' :
  dmethods_not_using_this_phase resolve_method keep scope targets st = Ok st' ->
  static_mono st.1 st'.1.
Proof.
  unfold dmethods_not_using_this_phase. intros H.
  apply bind_Ok_inv in H as (cands & _ & H).
  apply bind_Ok_inv in H as (ms & _ & H).
  apply staticize_methods_not_using_this_static in H as [H _]. exact H.
Qed.

Lemma vmethods_using_this_phase_static scope targets st st' :
  vmethods_using_this_phase resolve_method keep devirtualize scope targets st
  = Ok st' ->
  static_mono st.1 st'.1.
Proof.
  unfold vmethods_using_this_phase. intros H.
  apply bind_Ok_inv in H as (cands & _ & H).
  apply bind_Ok_inv in H as (ms & _ & H).
  apply staticize_methods_using_this_static in H as [H _]. exact H.
Qed.

(** C8, as the code has it: in each phase that converts methods not using
    the receiver (the first and the second), an eligible candidate whose
    body is absent, or does not start with the receiver load, stops the
    classification, hence the phase and the run, before the phase rewrites
    or converts anything; the stop is an assertion failure when every body
    of the program has a first instruction and points to instructions
    only. *)
Theorem not_using_phases_require_receiver_load m_config scope target_classes
    st m :
  eligible keep st.1 m ->
  no_receiver_load st.1 m ->
  (forall cands,
     get_devirtualizable_vmethods devirtualize st.1 scope target_classes
     = Ok cands ->
     m ∈ cands ->
     exists e,
       vmethods_not_using_this_phase resolve_method keep devirtualize
         scope target_classes st = Fail e /\
       (bodies_valid st.1 -> e = AssertionFailure) /\
       (vmethods_not_using_this m_config = true ->
        devirtualize_methods resolve_method keep devirtualize m_config
          scope target_classes st = Fail e)) /\
  (forall cands,
     get_devirtualizable_dmethods st.1 scope target_classes = Ok cands ->
     m ∈ cands ->
     exists e,
       dmethods_not_using_this_phase resolve_method keep
         scope target_classes st = Fail e /\
       (bodies_valid st.1 -> e = AssertionFailure) /\
       (forall st0,
          dmethods_not_using_this m_config = true ->
          when (vmethods_not_using_this m_config)
               (vmethods_not_using_this_phase resolve_method keep devirtualize
                  scope target_classes) st0 = Ok st ->
          devirtualize_methods resolve_method keep devirtualize m_config
            scope target_classes st0 = Fail e)).
Proof.
  intros Hel Hbad. split.
  - intros cands Hcands Hin.
    destruct (classification_fails _ _ _ Hin Hel Hbad) as (e & He & Hk).
    exists e. unfold vmethods_not_using_this_phase at 1.
    rewrite Hcands, bind_Ok, He. split; [reflexivity|]. split.
    + intros Hwf. apply Hk; [exact Hwf|]. apply Forall_forall. intros m' Hm'.
      destruct (get_devirtualizable_vmethods_sound _ _ _ _ Hcands m' Hm')
        as (_ & dm & _ & Hdm & _). eauto.
    + intros Hflag. unfold devirtualize_methods. rewrite Hflag, when_true.
      unfold vmethods_not_using_this_phase.
      rewrite Hcands, bind_Ok, He. reflexivity.
  - intros cands Hcands Hin.
    destruct (classification_fails _ _ _ Hin Hel Hbad) as (e & He & Hk).
    exists e. unfold dmethods_not_using_this_phase at 1.
    rewrite Hcands, bind_Ok, He. split; [reflexivity|]. split.
    + intros Hwf. apply Hk; [exact Hwf|]. apply Forall_forall. intros m' Hm'.
      destruct (get_devirtualizable_dmethods_sound _ _ _ _ Hcands m' Hm')
        as (dm & Hdm & _). eauto.
    + intros st0 Hflag H1. unfold devirtualize_methods. rewrite H1, bind_Ok.
      rewrite Hflag, when_true. unfold dmethods_not_using_this_phase.
      rewrite Hcands, bind_Ok, He. reflexivity.
Qed.

Section Exclusive.

(** The contract of the monomorphic-dispatch analysis that the split
    relies on: it reports virtual methods, never static ones. *)
Hypothesis devirtualize_instance : forall p scope m dm,
  m ∈ devirtualize p scope -> methods p !! m = Some dm -> is_static dm = false.

(** C6: the analyzer splits the eligible candidates in two: those it
    reports as not using the receiver form the set of the not-using phase,
    the others it reports as using it.  Across a run the split is
    exclusive: a method converted by the not-using phase of the virtual
    methods is no candidate of the later using phase of the virtual
    methods, and likewise for the direct methods, so the sets of the two
    phases of a kind are disjoint. *)
Theorem receiver_split_exclusive m_config scope target_classes :
  (forall p (cands : list MethodId) found,
     devirtualizable_methods_not_using_this keep p cands = Ok found ->
     exists eligible_set,
       devirtualizable_methods keep p cands = Ok eligible_set /\
       (found ⊆ eligible_set) /\
       forall m, m ∈ eligible_set ->
         (m ∈ found /\ uses_this p m = Ok false) \/
         ((m ∉ found) /\ uses_this p m = Ok true)) /\
  (forall st0 cands1 (set1 : gset MethodId) st1 st2 cands3 (set3 : gset MethodId),
     get_devirtualizable_vmethods devirtualize st0.1 scope target_classes
     = Ok cands1 ->
     devirtualizable_methods_not_using_this keep st0.1 cands1 = Ok set1 ->
     staticize_methods_not_using_this resolve_method scope set1 st0 = Ok st1 ->
     when (dmethods_not_using_this m_config)
          (dmethods_not_using_this_phase resolve_method keep
             scope target_classes) st1 = Ok st2 ->
     get_devirtualizable_vmethods devirtualize st2.1 scope target_classes
     = Ok cands3 ->
     devirtualizable_methods keep st2.1 cands3 = Ok set3 ->
     (forall m, m ∈ set1 -> m ∉ cands3) /\ set1 ## set3) /\
  (forall st1 cands2 (set2 : gset MethodId) st2 st3 cands4 (set4 : gset MethodId),
     get_devirtualizable_dmethods st1.1 scope target_classes = Ok cands2 ->
     devirtualizable_methods_not_using_this keep st1.1 cands2 = Ok set2 ->
     staticize_methods_not_using_this resolve_method scope set2 st1 = Ok st2 ->
     when (vmethods_using_this m_config)
          (vmethods_using_this_phase resolve_method keep devirtualize
             scope target_classes) st2 = Ok st3 ->
     get_devirtualizable_dmethods st3.1 scope target_classes = Ok cands4 ->
     devirtualizable_methods keep st3.1 cands4 = Ok set4 ->
     (forall m, m ∈ set2 -> m ∉ cands4) /\ set2 ## set4).
Proof using devirtualize_instance.
  split; [|split].
  - intros p cands found H.
    destruct (not_using_this_spec _ _ _ H) as (E & HE & Hspec & Hdef).
    exists E. split; [exact HE|]. split.
    + intros m Hm. apply Hspec in Hm. tauto.
    + intros m Hm. destruct (Hdef m Hm) as [[|] Hb].
      * right. split; [|exact Hb]. intros Hf. apply Hspec in Hf as [_ Hf]. congruence.
      * left. split; [|exact Hb]. apply Hspec. auto.
  - intros st0 cands1 set1 st1 st2 cands3 set3 _ _ Hstat Hphase Hcands3 Hset3.
    apply staticize_methods_not_using_this_static in Hstat as [_ Hat].
    apply (when_static _ _ _ _ (dmethods_not_using_this_phase_static _ _)) in Hphase.
    assert (Hout : forall m, m ∈ set1 -> m ∉ cands3).
    { intros m Hm Hc. destruct (Hphase m (Hat m Hm)) as (dm & Hdm & Hs).
      destruct (get_devirtualizable_vmethods_sound _ _ _ _ Hcands3 m Hc) as [Hdev _].
      rewrite (devirtualize_instance _ _ _ _ Hdev Hdm) in Hs. discriminate. }
    split; [exact Hout|]. intros m Hm1 Hm3.
    apply (devirtualizable_methods_spec _ _ _ Hset3) in Hm3 as [Hc _].
    exact (Hout m Hm1 Hc).
  - intros st1 cands2 set2 st2 st3 cands4 set4 _ _ Hstat Hphase Hcands4 Hset4.
    apply staticize_methods_not_using_this_static in Hstat as [_ Hat].
    apply (when_static _ _ _ _ (vmethods_using_this_phase_static _ _)) in Hphase.
    assert (Hout : forall m, m ∈ set2 -> m ∉ cands4).
    { intros m Hm Hc. destruct (Hphase m (Hat m Hm)) as (dm & Hdm & Hs).
      destruct (get_devirtualizable_dmethods_sound _ _ _ _ Hcands4 m Hc)
        as (dm' & Hdm' & _ & Hns).
      rewrite Hdm in Hdm'. injection Hdm' as <-. congruence. }
    split; [exact Hout|]. intros m Hm2 Hm4.
    apply (devirtualizable_methods_spec _ _ _ Hset4) in Hm4 as [Hc _].
    exact (Hout m Hm2 Hc).
Qed.

End Exclusive.

End Driver.

(** * Further properties of the call-site rewriter *)

Section Rejections.

Variable resolve_method : MethodId -> MethodSearch -> option MethodId.

Lemma keep_step_rejects targets m a p metrics insn mref t :
  insns p !! a = Some insn ->
  get_method insn = Some mref ->
  is_instance_invoke (opcode insn) = false ->
  call_target resolve_method p Virtual mref = Ok (Some t) ->
  t ∈ targets ->
  fix_call_sites_fixer resolve_method targets m a (p, metrics)
  = Fail AssertionFailure.
Proof.
  intros Hi Hm Hop Ht Hin.
  rewrite (keep_step_in_set resolve_method targets m a p metrics insn mref t
             Hi Hm Ht Hin).
  destruct (is_invoke_static (opcode insn)); simpl; [reflexivity|].
  rewrite patch_call_site_Fail by exact Hop. reflexivity.
Qed.

Lemma drop_step_rejects statics a p metrics repls insn mref t :
  insns p !! a = Some insn ->
  get_method insn = Some mref ->
  is_instance_invoke (opcode insn) = false ->
  call_target resolve_method p Any mref = Ok (Some t) ->
  t ∈ statics ->
  drop_this_arg_step resolve_method statics a ((p, metrics), repls)
  = Fail AssertionFailure.
Proof.
  intros Hi Hm Hop Ht Hin. unfold drop_this_arg_step.
  rewrite (deref_Some _ _ _ Hi), bind_Ok, Hm, Ht, bind_Ok.
  rewrite bool_decide_eq_true_2 by exact Hin.
  rewrite patch_call_site_Fail by exact Hop. reflexivity.
Qed.

Lemma keep_scan_rejects targets m a insn mref t (code : list addr) :
  forall p metrics,
  a ∈ code -> NoDup code ->
  insns p !! a = Some insn ->
  get_method insn = Some mref ->
  is_instance_invoke (opcode insn) = false ->
  call_target resolve_method p Virtual mref = Ok (Some t) ->
  t ∈ targets ->
  exists e,
    for_each (fix_call_sites_fixer resolve_method targets m) code (p, metrics)
    = Fail e.
Proof.
  induction code as [|a0 code IH]; intros p metrics Hin Hnd Hi Hm Hop Hct Ht.
  - inversion Hin.
  - apply NoDup_cons in Hnd as [Hnotin Hnd]. cbn [for_each].
    destruct (fix_call_sites_fixer resolve_method targets m a0 (p, metrics))
      as [[p1 metrics1]|e] eqn:H1; [|exists e; reflexivity].
    rewrite bind_Ok.
    apply elem_of_cons in Hin as [->|Hin].
    + rewrite (keep_step_rejects _ _ _ _ _ _ _ _ Hi Hm Hop Hct Ht) in H1.
      discriminate.
    + apply keep_step_metrics in H1 as (Hm1 & Hf1 & _).
      apply IH; auto.
      * rewrite Hf1; [exact Hi|]. intros ->. contradiction.
      * rewrite (call_target_methods _ _ _ _ _ Hm1). exact Hct.
Qed.

Lemma drop_scan_rejects statics a insn mref t (code : list addr) :
  forall p metrics repls,
  a ∈ code -> NoDup code ->
  insns p !! a = Some insn ->
  get_method insn = Some mref ->
  is_instance_invoke (opcode insn) = false ->
  call_target resolve_method p Any mref = Ok (Some t) ->
  t ∈ statics ->
  exists e,
    for_each (drop_this_arg_step resolve_method statics) code
             ((p, metrics), repls)
    = Fail e.
Proof.
  induction code as [|a0 code IH]; intros p metrics repls Hin Hnd Hi Hm Hop Hct Ht.
  - inversion Hin.
  - apply NoDup_cons in Hnd as [Hnotin Hnd]. cbn [for_each].
    destruct (drop_this_arg_step resolve_method statics a0 ((p, metrics), repls))
      as [[[p1 metrics1] repls1]|e] eqn:H1; [|exists e; reflexivity].
    rewrite bind_Ok.
    apply elem_of_cons in Hin as [->|Hin].
    + rewrite (drop_step_rejects _ _ _ _ _ _ _ _ Hi Hm Hop Hct Ht) in H1.
      discriminate.
    + apply drop_step_shape in H1 as (Hm1 & _ & _ & Hf1 & _).
      apply IH; auto.
      * rewrite Hf1; [exact Hi | intros ->; contradiction |].
        eapply lookup_lt_Some. exact Hi.
      * rewrite (call_target_methods _ _ _ _ _ Hm1). exact Hct.
Qed.

Lemma drop_walk_rejects statics p a insn mref t (ms : list MethodId) :
  insns p !! a = Some insn ->
  get_method insn = Some mref ->
  is_instance_invoke (opcode insn) = false ->
  call_target resolve_method p Any mref = Ok (Some t) ->
  t ∈ statics ->
  forall stream q metrics,
  methods_stream p ms = Some stream ->
  NoDup ms -> NoDup stream ->
  Forall (fun b => (b < length (insns p))%nat) stream ->
  agrees p q ms stream ->
  a ∈ stream ->
  exists e,
    for_each (drop_this_arg_visit resolve_method statics) ms (q, metrics)
    = Fail e.
Proof.
  intros Hinsn Hmref Hop Hct Ht.
  induction ms as [|m ms IH];
    intros stream q metrics Hs Hndm Hnd Hvalid Hag Hin.
  - simpl in Hs. injection Hs as <-. inversion Hin.
  - simpl in Hs. destruct (methods p !! m) as [dm|] eqn:Hdm; [|discriminate].
    simpl in Hs.
    destruct (methods_stream p ms) as [rest|] eqn:Hrest; [|discriminate].
    injection Hs as <-.
    cbn [for_each].
    pose proof Hag as (Hm & Hc & Hl & Hi).
    rewrite (drop_this_arg_visit_eq _ _ _ _ _ dm)
      by (rewrite Hm by left; exact Hdm).
    destruct (get_code dm) as [code|]; simpl default in *.
    + destruct (drop_this_arg_fixer resolve_method statics m code (q, metrics))
        as [[q1 metrics1]|e] eqn:H1; [|exists e; reflexivity].
      rewrite bind_Ok.
      apply elem_of_app in Hin as [Hin|Hin].
      * exfalso.
        pose proof Hnd as Hnd'. apply NoDup_app in Hnd' as (Hndc & _ & _).
        destruct (drop_scan_rejects statics a insn mref t
                    code q metrics [] Hin Hndc) as [e He]; auto.
        -- rewrite Hi by (apply elem_of_app; left; exact Hin). exact Hinsn.
        -- rewrite (call_target_agrees resolve_method Any p q mref Hc). exact Hct.
        -- unfold drop_this_arg_fixer in H1. rewrite He in H1. discriminate.
      * pose proof (agrees_step _ _ _ _ _ _ _ _ _ _ _ Hag Hndm Hnd Hvalid H1)
          as Hag1.
        apply NoDup_cons in Hndm as [_ Hndm].
        apply NoDup_app in Hnd as (_ & _ & Hndr).
        apply Forall_app in Hvalid as [_ Hvr].
        exact (IH rest q1 metrics1 eq_refl Hndm Hndr Hvr Hag1 Hin).
    + rewrite bind_Ok. apply NoDup_cons in Hndm as [_ Hndm].
      assert (Hag1 : agrees p q ms rest).
      { repeat split; auto. intros m' Hin'. apply Hm. right. exact Hin'. }
      exact (IH rest q metrics eq_refl Hndm Hnd Hvalid Hag1 Hin).
Qed.

(** X9: [patch_call_site] converts the virtual, super and direct calls and
    stops on an assertion on every other opcode.  So a call instruction of
    another kind (an interface call, say) whose target is in the set stops
    the walker of either rewrite on that assertion, and makes the rewrite
    of a scope that holds it fail. *)
Theorem only_instance_calls_patched :
  (forall callee inst metrics,
     patch_call_site callee inst metrics
     = if is_instance_invoke (opcode inst)
       then Ok (set_method (set_opcode inst (static_form (opcode inst))) callee,
                count_kind (opcode inst) metrics)
       else Fail AssertionFailure) /\
  (forall a p metrics insn mref,
     insns p !! a = Some insn ->
     get_method insn = Some mref ->
     is_instance_invoke (opcode insn) = false ->
     (forall targets m t,
        call_target resolve_method p Virtual mref = Ok (Some t) ->
        t ∈ targets ->
        fix_call_sites_fixer resolve_method targets m a (p, metrics)
        = Fail AssertionFailure /\
        forall scope stream,
          scope_stream p scope = Some stream ->
          NoDup stream -> a ∈ stream ->
          exists e,
            fix_call_sites resolve_method scope targets (p, metrics) = Fail e) /\
     (forall statics repls t,
        call_target resolve_method p Any mref = Ok (Some t) ->
        t ∈ statics ->
        drop_this_arg_step resolve_method statics a ((p, metrics), repls)
        = Fail AssertionFailure /\
        forall scope ms stream,
          scope_methods p scope = Some ms ->
          methods_stream p ms = Some stream ->
          NoDup ms -> NoDup stream ->
          Forall (fun b => (b < length (insns p))%nat) stream ->
          a ∈ stream ->
          exists e,
            fix_call_sites_and_drop_this_arg resolve_method scope statics
              (p, metrics) = Fail e)).
Proof.
  split.
  - intros callee inst metrics.
    destruct (is_instance_invoke (opcode inst)) eqn:E.
    + apply patch_call_site_Ok. exact E.
    + apply patch_call_site_Fail. exact E.
  - intros a p metrics insn mref Hi Hm Hop. split.
    + intros targets m t Ht Hin. split.
      * eapply keep_step_rejects; eauto.
      * intros scope stream Hs Hnd Ha.
        rewrite (fix_call_sites_flat _ _ _ _ _ _ Hs).
        eapply keep_scan_rejects; eauto.
    + intros statics repls t Ht Hin. split.
      * eapply drop_step_rejects; eauto.
      * intros scope ms stream Hms Hs Hndm Hnd Hvalid Ha.
        rewrite (fix_call_sites_and_drop_this_arg_flat _ _ _ _ _ _ Hms).
        eapply drop_walk_rejects; eauto. apply agrees_refl.
Qed.

(** X10: the drop-receiver rewrite does not check that a call passes its
    receiver.  An explicit call into the set that passes no register comes
    out with 65535 operands, all register 0: the 16-bit count wraps.  A
    range call into the set with an empty window comes out with a
    window of 65535 registers. *)
Theorem drop_without_receiver_wraps statics a p metrics repls inst mref t :
  insns p !! a = Some inst ->
  get_method inst = Some mref ->
  call_target resolve_method p Any mref = Ok (Some t) ->
  t ∈ statics ->
  is_instance_invoke (opcode inst) = true ->
  (is_invoke_range (opcode inst) = false ->
   m_srcs inst = [] ->
   exists inst',
     drop_this_arg_step resolve_method statics a ((p, metrics), repls)
     = Ok ((store_insn p a inst', count_kind (opcode inst) metrics), repls) /\
     m_srcs inst' = replicate (Z.to_nat 65535) 0 /\
     arg_word_count inst' = 65535) /\
  (is_invoke_range (opcode inst) = true ->
   range_size inst = 0 ->
   exists inst',
     drop_this_arg_step resolve_method statics a ((p, metrics), repls)
     = Ok ((store_insn p a inst', count_kind (opcode inst) metrics), repls) /\
     range_size inst' = 65535 /\
     range_base inst' = wrap16 (range_base inst + 1)).
Proof.
  intros Hi Hm Ht Hin Hop.
  pose proof (drop_step_in_set resolve_method statics a p metrics repls inst mref t
                Hi Hm Ht Hin Hop) as Hstep.
  cbv zeta in Hstep. split.
  - intros Hrange Hsrcs.
    rewrite Hrange in Hstep.
    assert (Hn : arg_word_count inst = 0).
    { unfold arg_word_count. rewrite Hsrcs. reflexivity. }
    rewrite Hn in Hstep.
    change (Z.to_nat (0 - 1)) with 0%nat in Hstep.
    cbn [seq for_each] in Hstep. rewrite bind_Ok in Hstep.
    eexists. split; [exact Hstep|].
    assert (Hs : m_srcs (set_arg_word_count
                   (set_method (set_opcode inst (static_form (opcode inst))) t)
                   (0 - 1)) = replicate (Z.to_nat 65535) 0).
    { unfold set_arg_word_count. cbn [m_srcs set_method set_opcode].
      rewrite Hsrcs. change (wrap16 (0 - 1)) with 65535.
      rewrite take_nil. cbn [length app]. rewrite Nat.sub_0_r. reflexivity. }
    split; [exact Hs|].
    unfold arg_word_count. rewrite Hs, length_replicate.
    rewrite Z2Nat.id by lia. reflexivity.
  - intros Hrange Hsize.
    rewrite Hrange in Hstep.
    rewrite bool_decide_eq_false_2 in Hstep by (rewrite Hsize; discriminate).
    eexists. split; [exact Hstep|].
    unfold set_range_size, set_range_base, range_size, range_base in *.
    cbn [m_range_size m_range_base set_method set_opcode].
    rewrite Hsize. split; reflexivity.
Qed.

End Rejections.

(** * The report *)

Lemma metrics_le_refl m : metrics_le m m.
Proof. constructor; lia. Qed.

Lemma metrics_le_trans m1 m2 m3 :
  metrics_le m1 m2 -> metrics_le m2 m3 -> metrics_le m1 m3.
Proof. intros [] []. constructor; lia. Qed.

Lemma calls_counted_refl m : calls_counted m m.
Proof. split; [apply metrics_le_refl | split; reflexivity]. Qed.

Lemma calls_counted_trans m1 m2 m3 :
  calls_counted m1 m2 -> calls_counted m2 m3 -> calls_counted m1 m3.
Proof.
  intros (H1 & A1 & B1) (H2 & A2 & B2).
  split; [eapply metrics_le_trans; eauto|]. split; congruence.
Qed.

Lemma calls_counted_count_kind op m : calls_counted m (count_kind op m).
Proof.
  unfold count_kind.
  destruct (is_invoke_virtual op); [|destruct (is_invoke_super op)];
    (split; [constructor; simpl; lia | split; reflexivity]).
Qed.

Section Report.

Variable resolve_method : MethodId -> MethodSearch -> option MethodId.
Variable keep : MethodId -> bool.
Variable devirtualize : Program -> list ClassId -> list MethodId.

Lemma keep_step_counted targets m a (s s' : Program * DevirtualizerMetrics) :
  fix_call_sites_fixer resolve_method targets m a s = Ok s' ->
  calls_counted s.2 s'.2.
Proof.
  clear keep devirtualize.
  destruct s as [p metrics], s' as [p' metrics']. intros H.
  apply keep_step_metrics in H as (_ & _ & H). simpl.
  destruct (site_opcode resolve_method p Virtual targets a).
  - destruct H as [_ ->]. apply calls_counted_count_kind.
  - subst. apply calls_counted_refl.
Qed.

Lemma drop_step_counted statics a
    (s s' : Program * DevirtualizerMetrics * list (addr * addr)) :
  drop_this_arg_step resolve_method statics a s = Ok s' ->
  calls_counted s.1.2 s'.1.2.
Proof.
  clear keep devirtualize.
  destruct s as [[p metrics] repls], s' as [[p' metrics'] repls']. intros H.
  apply drop_step_metrics in H. simpl.
  destruct (site_opcode resolve_method p Any statics a).
  - destruct H as [_ ->]. apply calls_counted_count_kind.
  - subst. apply calls_counted_refl.
Qed.

Lemma fix_call_sites_counted scope targets (s s' : Program * DevirtualizerMetrics) :
  fix_call_sites resolve_method scope targets s = Ok s' ->
  calls_counted s.2 s'.2.
Proof.
  clear keep devirtualize.
  unfold fix_call_sites, walk_opcodes.
  apply (walk_code_preserves fst (fun s s' => calls_counted s.2 s'.2)).
  - intros s0. apply calls_counted_refl.
  - intros s1 s2 s3. apply calls_counted_trans.
  - intros m code s0 s0'.
    apply (for_each_preserves (fun s s' => calls_counted s.2 s'.2)).
    + intros s1. apply calls_counted_refl.
    + intros s1 s2 s3. apply calls_counted_trans.
    + intros a s1 s1'. apply keep_step_counted.
Qed.

Lemma drop_fixer_counted statics m (code : list addr)
    (s s' : Program * DevirtualizerMetrics) :
  drop_this_arg_fixer resolve_method statics m code s = Ok s' ->
  calls_counted s.2 s'.2.
Proof.
  clear keep devirtualize.
  unfold drop_this_arg_fixer. intros H.
  apply bind_Ok_inv in H as ([[p1 metrics1] repls] & Hscan & H).
  apply bind_Ok_inv in H as (dm & _ & H). injection H as <-. simpl.
  apply (for_each_preserves
           (fun (s s' : Program * DevirtualizerMetrics * list (addr * addr)) =>
              calls_counted s.1.2 s'.1.2)) in Hscan.
  - exact Hscan.
  - intros s1. apply calls_counted_refl.
  - intros s1 s2 s3. apply calls_counted_trans.
  - intros a s1 s1'. apply drop_step_counted.
Qed.

Lemma fix_call_sites_and_drop_this_arg_counted scope statics
    (s s' : Program * DevirtualizerMetrics) :
  fix_call_sites_and_drop_this_arg resolve_method scope statics s = Ok s' ->
  calls_counted s.2 s'.2.
Proof.
  clear keep devirtualize.
  unfold fix_call_sites_and_drop_this_arg.
  apply (walk_code_preserves fst (fun s s' => calls_counted s.2 s'.2)).
  - intros s0. apply calls_counted_refl.
  - intros s1 s2 s3. apply calls_counted_trans.
  - intros m code s0 s0'. apply drop_fixer_counted.
Qed.

Lemma staticize_not_using_counted scope (ms : gset MethodId) p metrics p' metrics' :
  staticize_methods_not_using_this resolve_method scope ms (p, metrics)
  = Ok (p', metrics') ->
  num_methods_not_using_this metrics'
  = (num_methods_not_using_this metrics + size ms)%nat /\
  num_methods_using_this metrics' = num_methods_using_this metrics /\
  metrics_le metrics metrics'.
Proof.
  clear keep devirtualize.
  unfold staticize_methods_not_using_this. intros H.
  apply bind_Ok_inv in H as ([p1 metrics1] & Hfix & H).
  apply bind_Ok_inv in H as (p2 & _ & H). injection H as <- <-.
  apply fix_call_sites_and_drop_this_arg_counted in Hfix as ([] & A & B).
  simpl in *. split; [lia|]. split; [lia|]. constructor; simpl; lia.
Qed.

Lemma staticize_using_counted scope (ms : gset MethodId) p metrics p' metrics' :
  staticize_methods_using_this resolve_method scope ms (p, metrics)
  = Ok (p', metrics') ->
  num_methods_using_this metrics'
  = (num_methods_using_this metrics + size ms)%nat /\
  num_methods_not_using_this metrics' = num_methods_not_using_this metrics /\
  metrics_le metrics metrics'.
Proof.
  clear keep devirtualize.
  unfold staticize_methods_using_this. intros H.
  apply bind_Ok_inv in H as ([p1 metrics1] & Hfix & H).
  apply bind_Ok_inv in H as (p2 & _ & H). injection H as <- <-.
  apply fix_call_sites_counted in Hfix as ([] & A & B).
  simpl in *. split; [lia|]. split; [lia|]. constructor; simpl; lia.
Qed.

Lemma not_using_phases_counted scope targets st st' :
  vmethods_not_using_this_phase resolve_method keep devirtualize scope targets st
  = Ok st' \/
  dmethods_not_using_this_phase resolve_method keep scope targets st = Ok st' ->
  metrics_le st.2 st'.2 /\
  num_methods_using_this st'.2 = num_methods_using_this st.2.
Proof.
  destruct st as [p metrics], st' as [p' metrics'].
  unfold vmethods_not_using_this_phase, dmethods_not_using_this_phase.
  intros [H|H];
    apply bind_Ok_inv in H as (cands & _ & H);
    apply bind_Ok_inv in H as (ms & _ & H);
    apply staticize_not_using_counted in H as (_ & A & B); auto.
Qed.

Lemma using_phases_counted scope targets st st' :
  vmethods_using_this_phase resolve_method keep devirtualize scope targets st
  = Ok st' \/
  dmethods_using_this_phase resolve_method keep scope targets st = Ok st' ->
  metrics_le st.2 st'.2 /\
  num_methods_not_using_this st'.2 = num_methods_not_using_this st.2.
Proof.
  destruct st as [p metrics], st' as [p' metrics'].
  unfold vmethods_using_this_phase, dmethods_using_this_phase.
  intros [H|H];
    apply bind_Ok_inv in H as (cands & _ & H);
    apply bind_Ok_inv in H as (ms & _ & H);
    apply staticize_using_counted in H as (_ & A & B); auto.
Qed.

(** X5: the report only accumulates.  A conversion that drops the receiver
    adds the size of its set to the counter of the methods not using the
    receiver and leaves the other method counter alone; a conversion that
    keeps the receiver does the same with the roles exchanged.  Over a run
    no counter goes down, and a method counter whose two switches are off
    does not move. *)
Theorem report_accumulates :
  (forall scope (ms : gset MethodId) p metrics p' metrics',
     staticize_methods_not_using_this resolve_method scope ms (p, metrics)
     = Ok (p', metrics') ->
     num_methods_not_using_this metrics'
     = (num_methods_not_using_this metrics + size ms)%nat /\
     num_methods_using_this metrics' = num_methods_using_this metrics /\
     metrics_le metrics metrics') /\
  (forall scope (ms : gset MethodId) p metrics p' metrics',
     staticize_methods_using_this resolve_method scope ms (p, metrics)
     = Ok (p', metrics') ->
     num_methods_using_this metrics'
     = (num_methods_using_this metrics + size ms)%nat /\
     num_methods_not_using_this metrics' = num_methods_not_using_this metrics /\
     metrics_le metrics metrics') /\
  (forall m_config scope target_classes st st',
     devirtualize_methods resolve_method keep devirtualize m_config
       scope target_classes st = Ok st' ->
     metrics_le st.2 st'.2 /\
     (vmethods_not_using_this m_config = false ->
      dmethods_not_using_this m_config = false ->
      num_methods_not_using_this st'.2 = num_methods_not_using_this st.2) /\
     (vmethods_using_this m_config = false ->
      dmethods_using_this m_config = false ->
      num_methods_using_this st'.2 = num_methods_using_this st.2)).
Proof.
  split; [intros *; apply staticize_not_using_counted|].
  split; [intros *; apply staticize_using_counted|].
  intros m_config scope targets st st' H.
  unfold devirtualize_methods in H.
  apply bind_Ok_inv in H as (st1 & H1 & H).
  apply bind_Ok_inv in H as (st2 & H2 & H).
  apply bind_Ok_inv in H as (st3 & H3 & H4).
  unfold when in H1, H2, H3, H4.
  assert (A1 : metrics_le st.2 st1.2 /\
               num_methods_using_this st1.2 = num_methods_using_this st.2 /\
               (vmethods_not_using_this m_config = false ->
                num_methods_not_using_this st1.2
                = num_methods_not_using_this st.2)).
  { revert H1. destruct (vmethods_not_using_this m_config); intros H1.
    - destruct (not_using_phases_counted scope targets st st1 (or_introl H1)).
      split; [assumption|]. split; [assumption | discriminate].
    - injection H1 as <-. split; [apply metrics_le_refl|]. split; reflexivity. }
  assert (A2 : metrics_le st1.2 st2.2 /\
               num_methods_using_this st2.2 = num_methods_using_this st1.2 /\
               (dmethods_not_using_this m_config = false ->
                num_methods_not_using_this st2.2
                = num_methods_not_using_this st1.2)).
  { revert H2. destruct (dmethods_not_using_this m_config); intros H2.
    - destruct (not_using_phases_counted scope targets st1 st2 (or_intror H2)).
      split; [assumption|]. split; [assumption | discriminate].
    - injection H2 as <-. split; [apply metrics_le_refl|]. split; reflexivity. }
  assert (A3 : metrics_le st2.2 st3.2 /\
               num_methods_not_using_this st3.2
               = num_methods_not_using_this st2.2 /\
               (vmethods_using_this m_config = false ->
                num_methods_using_this st3.2 = num_methods_using_this st2.2)).
  { revert H3. destruct (vmethods_using_this m_config); intros H3.
    - destruct (using_phases_counted scope targets st2 st3 (or_introl H3)).
      split; [assumption|]. split; [assumption | discriminate].
    - injection H3 as <-. split; [apply metrics_le_refl|]. split; reflexivity. }
  assert (A4 : metrics_le st3.2 st'.2 /\
               num_methods_not_using_this st'.2
               = num_methods_not_using_this st3.2 /\
               (dmethods_using_this m_config = false ->
                num_methods_using_this st'.2 = num_methods_using_this st3.2)).
  { revert H4. destruct (dmethods_using_this m_config); intros H4.
    - destruct (using_phases_counted scope targets st3 st' (or_intror H4)).
      split; [assumption|]. split; [assumption | discriminate].
    - injection H4 as <-. split; [apply metrics_le_refl|]. split; reflexivity. }
  destruct A1 as (L1 & U1 & N1), A2 as (L2 & U2 & N2),
           A3 as (L3 & N3 & U3), A4 as (L4 & N4 & U4).
  split.
  - eauto using metrics_le_trans.
  - split.
    + intros Hv Hd. rewrite N4, N3, (N2 Hd), (N1 Hv). reflexivity.
    + intros Hv Hd. rewrite (U4 Hd), (U3 Hv), U2, U1. reflexivity.
Qed.

End Report.

(** * The candidates *)

Section Candidates.

Variable keep : MethodId -> bool.
Variable devirtualize : Program -> list ClassId -> list MethodId.

Lemma vmethods_loop p targets (l : list MethodId) : forall acc : list MethodId,
  Forall (fun m => is_Some (methods p !! m)) l ->
  for_each (fun m ret =>
      dm ← deref (methods p) m;
      match get_class dm with
      | Some cls =>
          if bool_decide (cls ∈ (list_to_set targets : gset ClassId))
          then mret (ret ++ [m]) else mret ret
      | None => mret ret
      end) l acc
  = Ok (acc ++ List.filter (declared_in p targets) l).
Proof.
  clear keep devirtualize.
  induction l as [|m l IH]; intros acc Hl.
  - simpl. rewrite app_nil_r. reflexivity.
  - apply Forall_cons in Hl as [[dm Hdm] Hl].
    cbn [for_each List.filter]. rewrite (deref_Some _ _ _ Hdm), bind_Ok.
    unfold declared_in at 1. rewrite Hdm.
    destruct (get_class dm) as [cls|].
    + destruct (decide (cls ∈ targets)) as [Hin|Hout].
      * rewrite bool_decide_eq_true_2 by (apply elem_of_list_to_set; exact Hin).
        rewrite bool_decide_eq_true_2 by exact Hin.
        change (mret (acc ++ [m]) ≫= ?f) with (f (acc ++ [m])).
        rewrite IH by exact Hl. rewrite <- app_assoc. reflexivity.
      * rewrite bool_decide_eq_false_2
          by (rewrite elem_of_list_to_set; exact Hout).
        rewrite bool_decide_eq_false_2 by exact Hout.
        change (mret acc ≫= ?f) with (f acc). apply IH, Hl.
    + change (mret acc ≫= ?f) with (f acc). apply IH, Hl.
Qed.

Lemma vmethods_loop_defined p targets (l : list MethodId) :
  forall (acc cands : list MethodId),
  for_each (fun m ret =>
      dm ← deref (methods p) m;
      match get_class dm with
      | Some cls =>
          if bool_decide (cls ∈ (list_to_set targets : gset ClassId))
          then mret (ret ++ [m]) else mret ret
      | None => mret ret
      end) l acc = Ok cands ->
  Forall (fun m => is_Some (methods p !! m)) l.
Proof.
  clear keep devirtualize.
  induction l as [|m l IH]; intros acc cands H; [constructor|].
  cbn [for_each] in H. apply bind_Ok_inv in H as (acc1 & H1 & H).
  apply bind_Ok_inv in H1 as (dm & Hdm & _). apply deref_Ok_inv in Hdm.
  constructor; [eauto | eapply IH; eauto].
Qed.

(** X7: [get_devirtualizable_vmethods] returns exactly when every method
    the dispatch analysis reports exists, and then it returns the reported
    methods whose declaring class is one of the targets, in the order and
    with the multiplicity of the report.  A method whose class is not
    loaded is left out. *)
Theorem virtual_candidates_filter p scope targets :
  ((exists cands,
      get_devirtualizable_vmethods devirtualize p scope targets = Ok cands)
   <-> Forall (fun m => is_Some (methods p !! m)) (devirtualize p scope)) /\
  (forall cands,
     get_devirtualizable_vmethods devirtualize p scope targets = Ok cands ->
     cands = List.filter (declared_in p targets) (devirtualize p scope) /\
     forall m, m ∈ cands <->
       m ∈ devirtualize p scope /\
       exists dm cls, methods p !! m = Some dm /\ get_class dm = Some cls /\
                      cls ∈ targets).
Proof.
  clear keep.
  unfold get_devirtualizable_vmethods. split.
  - split.
    + intros [cands H]. eapply vmethods_loop_defined. exact H.
    + intros H. eexists. apply vmethods_loop. exact H.
  - intros cands H.
    pose proof (vmethods_loop_defined _ _ _ _ _ H) as Hl.
    rewrite (vmethods_loop p targets _ [] Hl) in H. injection H as <-.
    split; [reflexivity|].
    intros m. simpl. rewrite list_elem_of_In, filter_In, <- list_elem_of_In.
    unfold declared_in. split.
    + intros [Hin Hd]. split; [exact Hin|].
      destruct (methods p !! m) as [dm|]; [|discriminate].
      destruct (get_class dm) as [cls|] eqn:Hc; [|discriminate].
      apply bool_decide_eq_true_1 in Hd. exists dm, cls. auto.
    + intros [Hin (dm & cls & -> & -> & Hcls)]. split; [exact Hin|].
      apply bool_decide_eq_true_2. exact Hcls.
Qed.

(** The inner loop of [get_devirtualizable_dmethods] (lines 221-226). *)
Lemma dmethods_inner_spec p (l : list MethodId) :
  forall (acc cands : list MethodId),
  for_each (fun m ret =>
      dm ← deref (methods p) m;
      if is_any_init dm || is_static dm then mret ret
      else mret (ret ++ [m])) l acc = Ok cands ->
  forall m, m ∈ cands <-> m ∈ acc \/ (m ∈ l /\ instance_dmethod p m).
Proof.
  clear keep devirtualize.
  induction l as [|m0 l IH]; intros acc cands H m.
  - simpl in H. injection H as <-. split; [auto|].
    intros [H|[H _]]; [exact H | inversion H].
  - cbn [for_each] in H. apply bind_Ok_inv in H as (acc1 & H1 & H).
    rewrite (IH _ _ H m). clear IH H.
    apply bind_Ok_inv in H1 as (dm & Hdm & H1). apply deref_Ok_inv in Hdm.
    rewrite elem_of_cons.
    destruct (is_any_init dm || is_static dm) eqn:E; injection H1 as <-.
    + split; [tauto|]. intros [H|[[->|H] He]]; auto.
      exfalso. destruct He as (dm' & Hdm' & Hi & Hs).
      rewrite Hdm in Hdm'. injection Hdm' as <-.
      rewrite Hi, Hs in E. discriminate.
    + rewrite elem_of_app, list_elem_of_singleton.
      apply orb_false_iff in E as [Hi Hs].
      assert (instance_dmethod p m0) by (exists dm; auto).
      split.
      * intros [[H0| ->]|H0]; auto. tauto.
      * intros [H0|[[->|H0] He]]; auto.
Qed.

Lemma dmethods_inner_total p (l : list MethodId) : forall acc : list MethodId,
  Forall (fun m => is_Some (methods p !! m)) l ->
  exists cands,
    for_each (fun m ret =>
        dm ← deref (methods p) m;
        if is_any_init dm || is_static dm then mret ret
        else mret (ret ++ [m])) l acc = Ok cands.
Proof.
  clear keep devirtualize.
  induction l as [|m0 l IH]; intros acc Hl; [eexists; reflexivity|].
  apply Forall_cons in Hl as [[dm Hdm] Hl].
  cbn [for_each]. rewrite (deref_Some _ _ _ Hdm), bind_Ok.
  destruct (is_any_init dm || is_static dm); apply IH, Hl.
Qed.

(** X6: the candidates among the direct methods are the direct methods
    of the classes that are both in the scope and among the targets,
    constructors, class initializers and static methods left out.  The
    function returns when these classes and their direct methods exist;
    a class of the scope that is no target is not looked at. *)
Theorem direct_candidates_characterised p scope targets :
  ((forall cls, cls ∈ scope -> cls ∈ targets ->
      exists c, classes p !! cls = Some c /\
                Forall (fun m => is_Some (methods p !! m)) (get_dmethods c)) ->
   exists cands, get_devirtualizable_dmethods p scope targets = Ok cands) /\
  (forall cands,
     get_devirtualizable_dmethods p scope targets = Ok cands ->
     forall m, m ∈ cands <->
       exists cls c, cls ∈ scope /\ cls ∈ targets /\
                     classes p !! cls = Some c /\ m ∈ get_dmethods c /\
                     instance_dmethod p m).
Proof.
  clear keep devirtualize.
  unfold get_devirtualizable_dmethods.
  set (body := fun cls ret =>
        if bool_decide (cls ∈ (list_to_set targets : gset ClassId)) then
          c ← deref (classes p) cls;
          for_each (fun m ret =>
              dm ← deref (methods p) m;
              if is_any_init dm || is_static dm then mret ret
              else mret (ret ++ [m])) (get_dmethods c) ret
        else mret ret).
  assert (Hbody : forall cls ret,
    body cls ret
    = if bool_decide (cls ∈ (list_to_set targets : gset ClassId)) then
        c ← deref (classes p) cls;
        for_each (fun m ret =>
            dm ← deref (methods p) m;
            if is_any_init dm || is_static dm then mret ret
            else mret (ret ++ [m])) (get_dmethods c) ret
      else mret ret) by reflexivity.
  clearbody body.
  split.
  - assert (Hgen : forall (l : list ClassId) (acc : list MethodId),
      (forall cls, cls ∈ l -> cls ∈ targets ->
         exists c, classes p !! cls = Some c /\
                   Forall (fun m => is_Some (methods p !! m)) (get_dmethods c)) ->
      exists cands, for_each body l acc = Ok cands).
    { induction l as [|c0 l IH]; intros acc Hv; [eexists; reflexivity|].
      cbn [for_each]. rewrite Hbody.
      destruct (decide (c0 ∈ targets)) as [Hin|Hout].
      - rewrite bool_decide_eq_true_2 by (apply elem_of_list_to_set; exact Hin).
        destruct (Hv c0 ltac:(left) Hin) as (c & Hc & Hms).
        rewrite (deref_Some _ _ _ Hc), bind_Ok.
        destruct (dmethods_inner_total p _ acc Hms) as (acc1 & ->).
        rewrite bind_Ok. apply IH. intros cls Hcls. apply Hv. right. exact Hcls.
      - rewrite bool_decide_eq_false_2
          by (rewrite elem_of_list_to_set; exact Hout).
        change (mret acc ≫= ?f) with (f acc).
        apply IH. intros cls Hcls. apply Hv. right. exact Hcls. }
    intros Hv. apply Hgen, Hv.
  - assert (Hgen : forall (l : list ClassId) (acc cands : list MethodId),
      for_each body l acc = Ok cands ->
      forall m, m ∈ cands <->
        m ∈ acc \/
        exists cls c, cls ∈ l /\ cls ∈ targets /\
                      classes p !! cls = Some c /\ m ∈ get_dmethods c /\
                      instance_dmethod p m).
    { induction l as [|c0 l IH]; intros acc cands H m.
      - simpl in H. injection H as <-. split; [auto|].
        intros [H|(cls & c & H & _)]; [exact H | inversion H].
      - cbn [for_each] in H. apply bind_Ok_inv in H as (acc1 & H1 & H).
        rewrite (IH _ _ H m). clear IH H. rewrite Hbody in H1.
        destruct (decide (c0 ∈ targets)) as [Hin|Hout].
        + rewrite bool_decide_eq_true_2 in H1
            by (apply elem_of_list_to_set; exact Hin).
          apply bind_Ok_inv in H1 as (c & Hc & H1). apply deref_Ok_inv in Hc.
          rewrite (dmethods_inner_spec p _ _ _ H1 m). split.
          * intros [[H0|[H0 H2]]|(cls & c' & H0 & H2)]; auto.
            -- right. exists c0, c. repeat split; auto. left.
            -- right. exists cls, c'. destruct H2 as (? & ? & ? & ?).
               repeat split; auto. right. exact H0.
          * intros [H0|(cls & c' & H0 & H2 & H3 & H4 & H5)]; auto.
            apply elem_of_cons in H0 as [->|H0].
            -- rewrite Hc in H3. injection H3 as <-. auto.
            -- right. exists cls, c'. auto.
        + rewrite bool_decide_eq_false_2 in H1
            by (rewrite elem_of_list_to_set; exact Hout).
          injection H1 as <-. split.
          * intros [H0|(cls & c' & H0 & H2)]; auto.
            right. exists cls, c'. split; [right; exact H0 | exact H2].
          * intros [H0|(cls & c' & H0 & H2 & H3)]; auto.
            apply elem_of_cons in H0 as [->|H0]; [contradiction|].
            right. exists cls, c'. auto. }
    intros cands H m. rewrite (Hgen _ _ _ H m). split.
    + intros [H0|H0]; [inversion H0 | exact H0].
    + auto.
Qed.

Lemma devirtualizable_methods_defined p (cands : list MethodId) :
  forall (acc found : gset MethodId),
  for_each (fun method (found : gset MethodId) =>
      dm ← deref (methods p) method;
      if keep method || is_external dm || is_abstract dm then mret found
      else mret ({[method]} ∪ found)) cands acc = Ok found ->
  Forall (fun m => is_Some (methods p !! m)) cands.
Proof.
  clear devirtualize.
  induction cands as [|m l IH]; intros acc found H; [constructor|].
  cbn [for_each] in H. apply bind_Ok_inv in H as (acc1 & H1 & H).
  apply bind_Ok_inv in H1 as (dm & Hdm & _). apply deref_Ok_inv in Hdm.
  constructor; [eauto | eapply IH; eauto].
Qed.

(** X8: the eligibility filter returns exactly when every candidate
    exists; its result is the set of the candidates that are not kept, not
    external and not abstract, and so depends on which methods are
    candidates only, not on their order or on repetitions. *)
Theorem eligible_set_of_candidates p (cands : list MethodId) :
  ((exists found, devirtualizable_methods keep p cands = Ok found)
   <-> Forall (fun m => is_Some (methods p !! m)) cands) /\
  (forall found,
     devirtualizable_methods keep p cands = Ok found ->
     (forall m, m ∈ found <-> m ∈ cands /\ eligible keep p m) /\
     forall cands' : list MethodId,
       (forall m, m ∈ cands' <-> m ∈ cands) ->
       devirtualizable_methods keep p cands' = Ok found).
Proof.
  clear devirtualize.
  split.
  - split.
    + intros [found H]. eapply devirtualizable_methods_defined. exact H.
    + apply devirtualizable_methods_total.
  - intros found H.
    pose proof (devirtualizable_methods_spec keep p cands found H) as Hspec.
    split; [exact Hspec|].
    intros cands' Hsame.
    destruct (devirtualizable_methods_total keep p cands') as [found' H'].
    { pose proof (devirtualizable_methods_defined _ _ _ _ H) as Hv.
      rewrite Forall_forall in Hv. apply Forall_forall.
      intros m Hm. apply Hv, Hsame, Hm. }
    rewrite H'. f_equal. apply set_eq. intros m.
    rewrite (devirtualizable_methods_spec keep p cands' found' H' m), (Hspec m),
      Hsame.
    reflexivity.
Qed.

End Candidates.

(** * Rewrites that find no call site *)

Section NoSite.

Variable resolve_method : MethodId -> MethodSearch -> option MethodId.

Lemma valid_site_untargeted search p a :
  valid_site p a -> untargeted resolve_method search ∅ p a.
Proof.
  intros (inst & Hi & Hm). exists inst. split; [exact Hi|].
  destruct (get_method inst) as [mref|]; [|exact I].
  destruct (Hm mref eq_refl) as [dm Hdm]. exists dm. split; [exact Hdm|].
  destruct (if is_concrete dm then Some mref else resolve_method mref search);
    [apply not_elem_of_empty | exact I].
Qed.

Lemma keep_step_untargeted targets m a p metrics :
  untargeted resolve_method Virtual targets p a ->
  fix_call_sites_fixer resolve_method targets m a (p, metrics) = Ok (p, metrics).
Proof.
  intros (inst & Hi & H).
  destruct (get_method inst) as [mref|] eqn:Hm.
  - destruct H as (dm & Hdm & Ht).
    eapply keep_step_outside; [exact Hi | exact Hm | |].
    + apply call_target_lookup. exact Hdm.
    + intros t E. rewrite E in Ht. exact Ht.
  - unfold fix_call_sites_fixer.
    rewrite (deref_Some _ _ _ Hi), bind_Ok, Hm. reflexivity.
Qed.

Lemma drop_step_untargeted statics a p metrics repls :
  untargeted resolve_method Any statics p a ->
  drop_this_arg_step resolve_method statics a ((p, metrics), repls)
  = Ok ((p, metrics), repls).
Proof.
  intros (inst & Hi & H).
  destruct (get_method inst) as [mref|] eqn:Hm.
  - destruct H as (dm & Hdm & Ht).
    eapply drop_step_outside; [exact Hi | exact Hm | |].
    + apply call_target_lookup. exact Hdm.
    + intros t E. rewrite E in Ht. exact Ht.
  - unfold drop_this_arg_step.
    rewrite (deref_Some _ _ _ Hi), bind_Ok, Hm. reflexivity.
Qed.

Lemma keep_scan_untargeted targets m (code : list addr) p metrics :
  Forall (untargeted resolve_method Virtual targets p) code ->
  for_each (fix_call_sites_fixer resolve_method targets m) code (p, metrics)
  = Ok (p, metrics).
Proof.
  induction 1 as [|a code Ha _ IH]; [reflexivity|].
  cbn [for_each]. rewrite (keep_step_untargeted _ _ _ _ _ Ha), bind_Ok.
  exact IH.
Qed.

Lemma drop_scan_untargeted statics (code : list addr) p metrics repls :
  Forall (untargeted resolve_method Any statics p) code ->
  for_each (drop_this_arg_step resolve_method statics) code
           ((p, metrics), repls)
  = Ok ((p, metrics), repls).
Proof.
  induction 1 as [|a code Ha _ IH]; [reflexivity|].
  cbn [for_each]. rewrite (drop_step_untargeted _ _ _ _ _ Ha), bind_Ok.
  exact IH.
Qed.

Lemma set_code_same dm : set_code dm (get_code dm) = dm.
Proof. destruct dm. reflexivity. Qed.

Lemma set_methods_same p : set_methods p (methods p) = p.
Proof. destruct p. reflexivity. Qed.

Lemma drop_fixer_untargeted statics m dm (code : list addr) p metrics :
  methods p !! m = Some dm ->
  get_code dm = Some code ->
  Forall (untargeted resolve_method Any statics p) code ->
  drop_this_arg_fixer resolve_method statics m code (p, metrics)
  = Ok (p, metrics).
Proof.
  intros Hdm Hcode Hall. unfold drop_this_arg_fixer.
  rewrite (drop_scan_untargeted _ _ _ _ _ Hall), bind_Ok.
  rewrite (deref_Some _ _ _ Hdm), bind_Ok.
  unfold apply_replacements. cbn [foldl].
  rewrite <- Hcode, set_code_same, list_insert_id by exact Hdm.
  rewrite set_methods_same. reflexivity.
Qed.

Lemma drop_walk_untargeted statics p metrics (ms : list MethodId) :
  forall stream,
  methods_stream p ms = Some stream ->
  Forall (untargeted resolve_method Any statics p) stream ->
  for_each (drop_this_arg_visit resolve_method statics) ms (p, metrics)
  = Ok (p, metrics).
Proof.
  induction ms as [|m ms IH]; intros stream Hs Hall; [reflexivity|].
  cbn [methods_stream] in Hs.
  destruct (methods p !! m) as [dm|] eqn:Hdm; [|discriminate].
  destruct (methods_stream p ms) as [rest|]; [|discriminate].
  injection Hs as <-. apply Forall_app in Hall as [Hcode Hrest].
  cbn [for_each]. rewrite (drop_this_arg_visit_eq _ _ _ _ _ _ Hdm).
  destruct (get_code dm) as [code|] eqn:Hcode'.
  - rewrite (drop_fixer_untargeted _ _ _ _ _ _ Hdm Hcode' Hcode), bind_Ok.
    eapply IH; eauto.
  - rewrite bind_Ok. eapply IH; eauto.
Qed.

Lemma fix_call_sites_untargeted scope targets p metrics stream :
  scope_stream p scope = Some stream ->
  Forall (untargeted resolve_method Virtual targets p) stream ->
  fix_call_sites resolve_method scope targets (p, metrics) = Ok (p, metrics).
Proof.
  intros Hs Hall.
  rewrite (fix_call_sites_flat _ _ _ _ _ _ Hs).
  apply keep_scan_untargeted, Hall.
Qed.

Lemma fix_call_sites_and_drop_this_arg_untargeted scope statics p metrics
    ms stream :
  scope_methods p scope = Some ms ->
  methods_stream p ms = Some stream ->
  Forall (untargeted resolve_method Any statics p) stream ->
  fix_call_sites_and_drop_this_arg resolve_method scope statics (p, metrics)
  = Ok (p, metrics).
Proof.
  intros Hms Hs Hall.
  rewrite (fix_call_sites_and_drop_this_arg_flat _ _ _ _ _ _ Hms).
  eapply drop_walk_untargeted; eauto.
Qed.

(** X3: a rewrite whose target set no call of the scope reaches returns
    the program and the report as they were, in either protocol; so does
    every rewrite for the empty set, on a scope whose instructions and
    call-target references exist. *)
Theorem rewrite_without_call_site_is_identity scope p metrics ms stream :
  scope_methods p scope = Some ms ->
  methods_stream p ms = Some stream ->
  (forall targets,
     Forall (untargeted resolve_method Virtual targets p) stream ->
     fix_call_sites resolve_method scope targets (p, metrics)
     = Ok (p, metrics)) /\
  (forall statics,
     Forall (untargeted resolve_method Any statics p) stream ->
     fix_call_sites_and_drop_this_arg resolve_method scope statics (p, metrics)
     = Ok (p, metrics)) /\
  (Forall (valid_site p) stream ->
   fix_call_sites resolve_method scope ∅ (p, metrics) = Ok (p, metrics) /\
   fix_call_sites_and_drop_this_arg resolve_method scope ∅ (p, metrics)
   = Ok (p, metrics)).
Proof.
  intros Hms Hs.
  assert (Hstream : scope_stream p scope = Some stream).
  { unfold scope_stream. rewrite Hms. exact Hs. }
  split; [|split].
  - intros targets Hall. eapply fix_call_sites_untargeted; eauto.
  - intros statics Hall.
    eapply fix_call_sites_and_drop_this_arg_untargeted; eauto.
  - intros Hvalid. split.
    + eapply fix_call_sites_untargeted; eauto.
      eapply Forall_impl; [exact Hvalid|].
      intros a. apply valid_site_untargeted.
    + eapply fix_call_sites_and_drop_this_arg_untargeted; eauto.
      eapply Forall_impl; [exact Hvalid|].
      intros a. apply valid_site_untargeted.
Qed.

End NoSite.

Section NoTarget.

Variable resolve_method : MethodId -> MethodSearch -> option MethodId.
Variable keep : MethodId -> bool.
Variable devirtualize : Program -> list ClassId -> list MethodId.

Lemma add_not_using_this_0 metrics : add_not_using_this 0 metrics = metrics.
Proof. destruct metrics. unfold add_not_using_this. simpl. f_equal. lia. Qed.

Lemma add_using_this_0 metrics : add_using_this 0 metrics = metrics.
Proof. destruct metrics. unfold add_using_this. simpl. f_equal. lia. Qed.

Lemma make_methods_static_empty keep_this p :
  make_methods_static ∅ keep_this p = Ok p.
Proof. unfold make_methods_static. rewrite elements_empty. reflexivity. Qed.

Lemma vmethods_no_target p scope :
  Forall (fun m => is_Some (methods p !! m)) (devirtualize p scope) ->
  get_devirtualizable_vmethods devirtualize p scope [] = Ok [].
Proof.
  clear resolve_method keep.
  intros Hv. unfold get_devirtualizable_vmethods.
  rewrite (vmethods_loop p [] _ [] Hv). f_equal. simpl.
  induction (devirtualize p scope) as [|m l IH]; [reflexivity|].
  apply Forall_cons in Hv as [_ Hv].
  simpl. replace (declared_in p [] m) with false; [exact (IH Hv)|].
  unfold declared_in. destruct (methods p !! m) as [dm|]; [|reflexivity].
  destruct (get_class dm); reflexivity.
Qed.

Lemma dmethods_no_target p scope :
  get_devirtualizable_dmethods p scope [] = Ok [].
Proof.
  clear resolve_method keep devirtualize.
  unfold get_devirtualizable_dmethods.
  induction scope as [|c scope IH]; [reflexivity|]. exact IH.
Qed.

Lemma not_using_this_no_candidate p :
  devirtualizable_methods_not_using_this keep p [] = Ok ∅.
Proof.
  clear resolve_method devirtualize.
  unfold devirtualizable_methods_not_using_this, devirtualizable_methods.
  cbn [for_each]. rewrite bind_Ok, elements_empty. reflexivity.
Qed.

Lemma staticize_nothing scope p metrics :
  fix_call_sites resolve_method scope ∅ (p, metrics) = Ok (p, metrics) ->
  fix_call_sites_and_drop_this_arg resolve_method scope ∅ (p, metrics)
  = Ok (p, metrics) ->
  staticize_methods_using_this resolve_method scope ∅ (p, metrics)
  = Ok (p, metrics) /\
  staticize_methods_not_using_this resolve_method scope ∅ (p, metrics)
  = Ok (p, metrics).
Proof.
  clear keep devirtualize.
  intros Hk Hd.
  unfold staticize_methods_using_this, staticize_methods_not_using_this.
  rewrite Hk, Hd, !bind_Ok, !make_methods_static_empty, !bind_Ok.
  rewrite size_empty, add_using_this_0, add_not_using_this_0.
  split; reflexivity.
Qed.

(** X4: with no target class a run converts nothing: whatever the
    switches, it returns the program and the report unchanged, on a scope
    whose classes, methods, instructions and call-target references exist
    and for an analysis that reports existing methods. *)
Theorem no_target_class_no_change m_config scope p metrics ms stream :
  scope_methods p scope = Some ms ->
  methods_stream p ms = Some stream ->
  Forall (valid_site p) stream ->
  Forall (fun m => is_Some (methods p !! m)) (devirtualize p scope) ->
  devirtualize_methods resolve_method keep devirtualize m_config scope []
    (p, metrics)
  = Ok (p, metrics).
Proof.
  intros Hms Hs Hvalid Hv.
  assert (Hstream : scope_stream p scope = Some stream).
  { unfold scope_stream. rewrite Hms. exact Hs. }
  assert (Hk : fix_call_sites resolve_method scope ∅ (p, metrics)
               = Ok (p, metrics)).
  { eapply fix_call_sites_untargeted; eauto.
    eapply Forall_impl; [exact Hvalid|].
    intros a. apply valid_site_untargeted. }
  assert (Hd : fix_call_sites_and_drop_this_arg resolve_method scope ∅
                 (p, metrics) = Ok (p, metrics)).
  { eapply fix_call_sites_and_drop_this_arg_untargeted; eauto.
    eapply Forall_impl; [exact Hvalid|].
    intros a. apply valid_site_untargeted. }
  destruct (staticize_nothing scope p metrics Hk Hd) as [Hu Hn].
  assert (P1 : vmethods_not_using_this_phase resolve_method keep devirtualize
                 scope [] (p, metrics) = Ok (p, metrics)).
  { unfold vmethods_not_using_this_phase. cbn [fst].
    rewrite (vmethods_no_target p scope Hv), bind_Ok.
    rewrite not_using_this_no_candidate, bind_Ok. exact Hn. }
  assert (P2 : dmethods_not_using_this_phase resolve_method keep
                 scope [] (p, metrics) = Ok (p, metrics)).
  { unfold dmethods_not_using_this_phase. cbn [fst].
    rewrite dmethods_no_target, bind_Ok.
    rewrite not_using_this_no_candidate, bind_Ok. exact Hn. }
  assert (P3 : vmethods_using_this_phase resolve_method keep devirtualize
                 scope [] (p, metrics) = Ok (p, metrics)).
  { unfold vmethods_using_this_phase. cbn [fst].
    rewrite (vmethods_no_target p scope Hv), bind_Ok.
    unfold devirtualizable_methods. cbn [for_each]. rewrite bind_Ok. exact Hu. }
  assert (P4 : dmethods_using_this_phase resolve_method keep
                 scope [] (p, metrics) = Ok (p, metrics)).
  { unfold dmethods_using_this_phase. cbn [fst].
    rewrite dmethods_no_target, bind_Ok.
    unfold devirtualizable_methods. cbn [for_each]. rewrite bind_Ok. exact Hu. }
  unfold devirtualize_methods, when.
  destruct (vmethods_not_using_this m_config); rewrite ?P1, bind_Ok;
    destruct (dmethods_not_using_this m_config); rewrite ?P2, bind_Ok;
    destruct (vmethods_using_this m_config); rewrite ?P3, bind_Ok;
    destruct (dmethods_using_this m_config); rewrite ?P4; reflexivity.
Qed.

End NoTarget.

(** * The keep-receiver rewrite over a scope *)

Section KeepWalk.

Variable resolve_method : MethodId -> MethodSearch -> option MethodId.

Lemma site_target_frame search targets p p1 b :
  methods p1 = methods p ->
  insns p1 !! b = insns p !! b ->
  site_target resolve_method p1 search targets b
  = site_target resolve_method p search targets b.
Proof. intros Hm Hi. unfold site_target. rewrite Hm, Hi. reflexivity. Qed.

Lemma patchable_frame search targets p p1 a :
  methods p1 = methods p ->
  insns p1 !! a = insns p !! a ->
  patchable resolve_method search targets p a ->
  patchable resolve_method search targets p1 a.
Proof. intros Hm Hi H. unfold patchable in *. rewrite Hm, Hi. exact H. Qed.

Lemma patchable_valid search targets p a :
  patchable resolve_method search targets p a -> (a < length (insns p))%nat.
Proof. intros (inst & Hi & _). eapply lookup_lt_Some. exact Hi. Qed.

Lemma site_target_lookup search targets p a inst :
  insns p !! a = Some inst ->
  site_target resolve_method p search targets a
  = match get_method inst with
    | Some mref =>
        match methods p !! mref with
        | Some dm =>
            match (if is_concrete dm then Some mref
                   else resolve_method mref search) with
            | Some t => if bool_decide (t ∈ targets) then Some t else None
            | None => None
            end
        | None => None
        end
    | None => None
    end.
Proof.
  intros Hi. unfold site_target. rewrite Hi. simpl.
  destruct (get_method inst) as [mref|]; simpl; [|reflexivity].
  destruct (methods p !! mref) as [dm|]; simpl; [|reflexivity].
  destruct (if is_concrete dm then Some mref else resolve_method mref search);
    reflexivity.
Qed.

(** One step of the walker on an instruction it can process. *)
Lemma keep_step_patchable targets m a p metrics inst :
  patchable resolve_method Virtual targets p a ->
  insns p !! a = Some inst ->
  fix_call_sites_fixer resolve_method targets m a (p, metrics)
  = Ok (match site_target resolve_method p Virtual targets a with
        | Some _ => (store_insn p a (keep_patched resolve_method p targets a inst),
                     count_kind (opcode inst) metrics)
        | None => (p, metrics)
        end).
Proof.
  intros (inst0 & Hi0 & H) Hi. rewrite Hi in Hi0. injection Hi0 as <-.
  unfold keep_patched. rewrite (site_target_lookup Virtual targets p a inst Hi).
  destruct (get_method inst) as [mref|] eqn:Hm.
  - destruct H as (dm & Hdm & Ht). rewrite Hdm.
    pose proof (call_target_lookup resolve_method Virtual p mref dm Hdm) as Hc.
    destruct (if is_concrete dm then Some mref
              else resolve_method mref Virtual) as [t|] eqn:Et.
    + destruct (decide (t ∈ targets)) as [Hin|Hout].
      * rewrite bool_decide_eq_true_2 by exact Hin.
        apply (keep_step_patched resolve_method targets m a p metrics inst mref t
                 Hi Hm Hc Hin (Ht Hin)).
      * rewrite bool_decide_eq_false_2 by exact Hout.
        eapply keep_step_outside; [exact Hi | exact Hm | exact Hc |].
        intros t' E. injection E as <-. exact Hout.
    + eapply keep_step_outside; [exact Hi | exact Hm | exact Hc |].
      intros t' E. discriminate E.
  - unfold fix_call_sites_fixer.
    rewrite (deref_Some _ _ _ Hi), bind_Ok, Hm. reflexivity.
Qed.

Lemma keep_scan_effect targets m (code : list addr) :
  forall p metrics,
  NoDup code ->
  Forall (patchable resolve_method Virtual targets p) code ->
  exists p' metrics',
    for_each (fix_call_sites_fixer resolve_method targets m) code (p, metrics)
    = Ok (p', metrics') /\
    methods p' = methods p /\
    classes p' = classes p /\
    length (insns p') = length (insns p) /\
    forall a inst,
      insns p !! a = Some inst ->
      insns p' !! a
      = Some (if bool_decide (a ∈ code)
              then keep_patched resolve_method p targets a inst else inst).
Proof.
  induction code as [|a code IH]; intros p metrics Hnd Hall.
  - exists p, metrics. repeat split; try reflexivity.
    intros a inst Hi. rewrite bool_decide_eq_false_2 by (apply not_elem_of_nil).
    exact Hi.
  - apply NoDup_cons in Hnd as [Hfresh Hnd].
    apply Forall_cons in Hall as [Ha Hall].
    destruct Ha as (inst & Hi & Hrest).
    assert (Ha : patchable resolve_method Virtual targets p a)
      by (exists inst; auto).
    cbn [for_each].
    rewrite (keep_step_patchable targets m a p metrics inst Ha Hi).
    set (s1 := match site_target resolve_method p Virtual targets a with
               | Some _ => (store_insn p a
                              (keep_patched resolve_method p targets a inst),
                            count_kind (opcode inst) metrics)
               | None => (p, metrics)
               end).
    assert (Hm1 : methods s1.1 = methods p).
    { unfold s1. destruct (site_target _ _ _ _ _); reflexivity. }
    assert (Hc1 : classes s1.1 = classes p).
    { unfold s1. destruct (site_target _ _ _ _ _); reflexivity. }
    assert (Hl1 : length (insns s1.1) = length (insns p)).
    { unfold s1. destruct (site_target _ _ _ _ _); simpl; [|reflexivity].
      apply length_insert. }
    assert (Ho1 : forall b, b <> a -> insns s1.1 !! b = insns p !! b).
    { intros b Hb. unfold s1. destruct (site_target _ _ _ _ _); simpl;
        [|reflexivity].
      apply list_lookup_insert_ne. congruence. }
    assert (Ha1 : insns s1.1 !! a
                  = Some (keep_patched resolve_method p targets a inst)).
    { unfold s1, keep_patched.
      destruct (site_target _ _ _ _ _); simpl; [|exact Hi].
      apply list_lookup_insert_eq. eapply lookup_lt_Some. exact Hi. }
    destruct s1 as [p1 metrics1]. simpl in Hm1, Hc1, Hl1, Ho1, Ha1.
    rewrite bind_Ok.
    destruct (IH p1 metrics1 Hnd) as (p' & metrics' & Hrun & Hm & Hc & Hl & Hat).
    { apply Forall_forall. intros b Hb.
      rewrite Forall_forall in Hall.
      apply (patchable_frame _ _ p); [exact Hm1 | | apply Hall, Hb].
      apply Ho1. intros ->. contradiction. }
    exists p', metrics'. split; [exact Hrun|].
    split; [congruence|]. split; [congruence|]. split; [congruence|].
    intros b instb Hb.
    destruct (decide (b = a)) as [->|Hne].
    + rewrite Hi in Hb. injection Hb as <-.
      rewrite (Hat a _ Ha1).
      rewrite bool_decide_eq_false_2 by exact Hfresh.
      rewrite bool_decide_eq_true_2 by left. reflexivity.
    + assert (Hb1 : insns p1 !! b = Some instb) by (rewrite Ho1; auto).
      rewrite (Hat b _ Hb1).
      unfold keep_patched.
      rewrite (site_target_frame Virtual targets p p1 b Hm1 (Ho1 b Hne)).
      destruct (decide (b ∈ code)) as [Hin|Hout].
      * rewrite !bool_decide_eq_true_2; [reflexivity | right; exact Hin | exact Hin].
      * rewrite !bool_decide_eq_false_2; [reflexivity | | exact Hout].
        intros Hin. apply elem_of_cons in Hin as [->|Hin]; contradiction.
Qed.

(** X1: over a scope whose instructions are distinct and can be processed
    (calls into the set are virtual, super or direct calls), the
    keep-receiver rewrite returns, and it changes exactly the call sites of
    the scope whose target is in the set: each gets the static opcode of
    its form and the target as its reference, once; every other
    instruction of the heap, every method and every class is as before. *)
Theorem keep_rewrite_exactly_once scope targets p metrics stream :
  scope_stream p scope = Some stream ->
  NoDup stream ->
  Forall (patchable resolve_method Virtual targets p) stream ->
  exists p' metrics',
    fix_call_sites resolve_method scope targets (p, metrics)
    = Ok (p', metrics') /\
    methods p' = methods p /\
    classes p' = classes p /\
    length (insns p') = length (insns p) /\
    forall a inst,
      insns p !! a = Some inst ->
      insns p' !! a
      = Some (if bool_decide (a ∈ stream)
              then keep_patched resolve_method p targets a inst else inst).
Proof.
  intros Hs Hnd Hall.
  rewrite (fix_call_sites_flat _ _ _ _ _ _ Hs).
  apply keep_scan_effect; assumption.
Qed.

End KeepWalk.

(** * The drop-receiver rewrite over a scope *)

Section DropWalk.

Variable resolve_method : MethodId -> MethodSearch -> option MethodId.

Lemma shift_loop_opcode (l : list nat) : forall (inst inst' : IRInstruction),
  for_each shift_src l inst = Ok inst' ->
  m_opcode inst' = m_opcode inst.
Proof.
  induction l as [|k l IH]; intros inst inst' H; simpl in H.
  - injection H as <-. reflexivity.
  - apply bind_Ok_inv in H as (i1 & H1 & H).
    rewrite (IH _ _ H). apply (shift_src_method _ _ _ H1).
Qed.

Lemma is_invoke_static_static_form (op : DexOpcode) :
  is_invoke_static (static_form op) = true.
Proof. unfold static_form. destruct (is_invoke_range op); reflexivity. Qed.

Lemma static_call_of_frame p p1 t a :
  insns p1 !! a = insns p !! a -> static_call_of p t a -> static_call_of p1 t a.
Proof. intros E (inst & Hi & H). exists inst. rewrite E. auto. Qed.

Lemma static_call_of_valid p t a :
  static_call_of p t a -> (a < length (insns p))%nat.
Proof. intros (inst & Hi & _). eapply lookup_lt_Some. exact Hi. Qed.

(** What one step of the scan does with the instruction at [a]. *)
Lemma drop_step_site statics a p metrics repls :
  rewritable resolve_method statics p a ->
  exists p1 metrics1 new,
    drop_this_arg_step resolve_method statics a ((p, metrics), repls)
    = Ok ((p1, metrics1), repls ++ new) /\
    match site_target resolve_method p Any statics a with
    | None => p1 = p /\ new = []
    | Some t =>
        (new = [] /\ static_call_of p1 t a) \/
        (exists r, new = [(a, r)] /\ (length (insns p) <= r)%nat /\
                   static_call_of p1 t r)
    end.
Proof.
  intros (inst & Hi & Hcall).
  rewrite (site_target_lookup resolve_method Any statics p a inst Hi).
  destruct (get_method inst) as [mref|] eqn:Hm.
  2:{ exists p, metrics, []. rewrite app_nil_r. split; [|auto].
      unfold drop_this_arg_step.
      rewrite (deref_Some _ _ _ Hi), bind_Ok, Hm. reflexivity. }
  destruct Hcall as (dm & Hdm & Hcall). rewrite Hdm.
  pose proof (call_target_lookup resolve_method Any _ _ _ Hdm) as Hct.
  destruct (if is_concrete dm then Some mref else resolve_method mref Any)
    as [t|] eqn:Htgt.
  2:{ exists p, metrics, []. rewrite app_nil_r. split; [|auto].
      apply (drop_step_outside _ _ _ _ _ _ _ _ _ Hi Hm Hct). discriminate. }
  destruct (decide (t ∈ statics)) as [Hin|Hout].
  2:{ rewrite bool_decide_eq_false_2 by exact Hout.
      exists p, metrics, []. rewrite app_nil_r. split; [|auto].
      apply (drop_step_outside _ _ _ _ _ _ _ _ _ Hi Hm Hct).
      intros t' Ht'. injection Ht' as <-. exact Hout. }
  rewrite bool_decide_eq_true_2 by exact Hin.
  rewrite (drop_step_in_set _ _ _ _ _ _ _ _ _ Hi Hm Hct Hin (Hcall Hin)).
  cbv zeta.
  assert (Hlen : (a < length (insns p))%nat) by (eapply lookup_lt_Some; eauto).
  destruct (is_invoke_range (opcode inst)).
  - destruct (bool_decide (range_size inst = 1)).
    + eexists _, _, [(a, _)]. split; [reflexivity|]. right.
      eexists. split; [reflexivity|]. rewrite length_insert.
      split; [lia|].
      eexists. split.
      * simpl. rewrite lookup_app_r by (rewrite length_insert; lia).
        rewrite length_insert, Nat.sub_diag. reflexivity.
      * split; reflexivity.
    + eexists _, _, []. rewrite app_nil_r. split; [reflexivity|]. left.
      split; [reflexivity|]. eexists. split.
      * simpl. apply list_lookup_insert_eq. exact Hlen.
      * split; [|reflexivity]. simpl. apply is_invoke_static_static_form.
  - destruct (shift_loop_total (Z.to_nat (arg_word_count inst - 1)) 0
                (set_method (set_opcode inst (static_form (opcode inst))) t))
      as [inst2 Hloop].
    { simpl. unfold arg_word_count, wrap16.
      destruct (decide (Z.of_nat (length (m_srcs inst)) mod 65536 - 1 <= 0)).
      - right. lia.
      - left. pose proof (Z.mod_le (Z.of_nat (length (m_srcs inst))) 65536).
        lia. }
    rewrite Hloop, bind_Ok.
    eexists _, _, []. rewrite app_nil_r. split; [reflexivity|]. left.
    split; [reflexivity|]. eexists. split.
    + simpl. apply list_lookup_insert_eq. exact Hlen.
    + unfold opcode, get_method. cbn [m_opcode m_method set_arg_word_count].
      rewrite (shift_loop_opcode _ _ _ Hloop), (shift_loop_method _ _ _ Hloop).
      split; [|reflexivity]. simpl. apply is_invoke_static_static_form.
Qed.

Lemma NoDup_short {A} (l : list A) : (length l <= 1)%nat -> NoDup l.
Proof.
  destruct l as [|x [|y l]]; simpl; intros H.
  - constructor.
  - apply NoDup_singleton.
  - lia.
Qed.

(** What the scan of a body does with its instructions. *)
Lemma drop_scan_sites statics (code : list addr) :
  forall p metrics repls,
  NoDup code ->
  Forall (rewritable resolve_method statics p) code ->
  exists p1 metrics1 new,
    for_each (drop_this_arg_step resolve_method statics) code
             ((p, metrics), repls)
    = Ok ((p1, metrics1), repls ++ new) /\
    methods p1 = methods p /\
    classes p1 = classes p /\
    (length (insns p) <= length (insns p1))%nat /\
    (forall b, b ∉ code -> (b < length (insns p))%nat ->
       insns p1 !! b = insns p !! b) /\
    Forall (fun ar => ar.1 ∈ code /\
                      (length (insns p) <= ar.2 < length (insns p1))%nat) new /\
    NoDup new.*1 /\
    forall a, a ∈ code ->
      match site_target resolve_method p Any statics a with
      | None => (a ∉ new.*1) /\ insns p1 !! a = insns p !! a
      | Some t =>
          ((a ∉ new.*1) /\ static_call_of p1 t a) \/
          (exists r, (a, r) ∈ new /\ static_call_of p1 t r)
      end.
Proof.
  induction code as [|a code IH]; intros p metrics repls Hnd Hall.
  - exists p, metrics, []. rewrite app_nil_r.
    split; [reflexivity|]. split; [reflexivity|]. split; [reflexivity|].
    split; [lia|]. split; [auto|]. split; [constructor|].
    split; [constructor|]. intros a Ha. inversion Ha.
  - apply NoDup_cons in Hnd as [Hfresh Hnd].
    apply Forall_cons in Hall as [Ha Hall].
    destruct (drop_step_site statics a p metrics repls Ha)
      as (p2 & metrics2 & new1 & Hstep & Hsite).
    destruct (drop_step_shape _ _ _ _ _ _ _ _ _ Hstep)
      as (Hm2 & Hc2 & Hl2 & Hf2 & new1' & E & Hfa1 & Hshort).
    apply app_inv_head in E. subst new1'.
    assert (Hvalid : forall b, b ∈ code -> (b < length (insns p))%nat).
    { intros b Hb. rewrite Forall_forall in Hall.
      eapply rewritable_valid. apply Hall, Hb. }
    assert (Hsame : forall b, b ∈ code -> insns p2 !! b = insns p !! b).
    { intros b Hb. apply Hf2; [intros ->; contradiction | apply Hvalid, Hb]. }
    destruct (IH p2 metrics2 (repls ++ new1) Hnd)
      as (p1 & metrics1 & new2 & Hrun & Hm1 & Hc1 & Hl1 & Hf1 & Hfa2 & Hnd2
          & Hsites).
    { apply Forall_forall. intros b Hb. rewrite Forall_forall in Hall.
      apply (rewritable_frame _ _ p); [exact Hm2 | apply Hsame, Hb
                                       | apply Hall, Hb]. }
    assert (Hfst1 : forall x, x ∈ new1.*1 -> x = a).
    { intros x Hx. apply list_elem_of_fmap in Hx as (ar & -> & Har).
      rewrite Forall_forall in Hfa1. apply (Hfa1 ar Har). }
    assert (Hfst2 : forall x, x ∈ new2.*1 -> x ∈ code).
    { intros x Hx. apply list_elem_of_fmap in Hx as (ar & -> & Har).
      rewrite Forall_forall in Hfa2. apply (Hfa2 ar Har). }
    exists p1, metrics1, (new1 ++ new2).
    split.
    { cbn [for_each]. rewrite Hstep, bind_Ok, Hrun, app_assoc. reflexivity. }
    split; [congruence|]. split; [congruence|]. split; [lia|].
    split.
    { intros b Hb Hlt. rewrite Hf1.
      - apply Hf2; [|exact Hlt]. intros ->. apply Hb. left.
      - intros Hin. apply Hb. right. exact Hin.
      - lia. }
    split.
    { apply Forall_app. split.
      - eapply Forall_impl; [exact Hfa1|]. intros ar [-> Hr].
        split; [left | lia].
      - eapply Forall_impl; [exact Hfa2|]. intros ar [Hin Hr].
        split; [right; exact Hin | lia]. }
    split.
    { rewrite fmap_app. apply NoDup_app. split; [|split].
      - apply NoDup_short. rewrite length_fmap. exact Hshort.
      - intros x Hx1 Hx2. apply Hfst1 in Hx1. subst x.
        apply Hfst2 in Hx2. contradiction.
      - exact Hnd2. }
    intros x Hx. apply elem_of_cons in Hx as [->|Hx].
    + destruct (site_target resolve_method p Any statics a) as [t|].
      * destruct Hsite as [[-> Hst]|(r & -> & Hr & Hst)].
        -- left. split.
           ++ simpl. intros Hin. apply Hfst2 in Hin. contradiction.
           ++ apply (static_call_of_frame p2); [|exact Hst].
              apply Hf1; [exact Hfresh | eapply static_call_of_valid; eauto].
        -- right. exists r. split; [left|].
           apply (static_call_of_frame p2); [|exact Hst].
           apply Hf1; [|eapply static_call_of_valid; eauto].
           intros Hin. apply Hvalid in Hin. lia.
      * destruct Hsite as [-> ->]. split.
        -- simpl. intros Hin. apply Hfst2 in Hin. contradiction.
        -- apply Hf1; [exact Hfresh|]. eapply rewritable_valid; eauto.
    + assert (Hxa : x <> a) by (intros ->; contradiction).
      pose proof (Hsites x Hx) as Hs.
      rewrite (site_target_frame resolve_method Any statics p p2 x Hm2
                 (Hsame x Hx)) in Hs.
      assert (Hout1 : x ∉ new1.*1).
      { intros Hin. apply Hfst1 in Hin. contradiction. }
      destruct (site_target resolve_method p Any statics x) as [t|].
      * destruct Hs as [[Hout2 Hst]|(r & Hr & Hst)].
        -- left. split; [|exact Hst].
           rewrite fmap_app. intros Hin. apply elem_of_app in Hin as [?|?]; auto.
        -- right. exists r. split; [|exact Hst].
           apply elem_of_app. right. exact Hr.
      * destruct Hs as [Hout2 Heq]. split.
        -- rewrite fmap_app. intros Hin. apply elem_of_app in Hin as [?|?]; auto.
        -- rewrite Heq. apply Hsame, Hx.
Qed.

Lemma subst_all_other (new : list (addr * addr)) (x : addr) :
  x ∉ new.*1 -> subst_all new x = x.
Proof.
  induction new as [|[a r] new IH]; intros Hx; [reflexivity|].
  rewrite subst_all_cons, subst_addr_eq.
  rewrite bool_decide_eq_false_2.
  - apply IH. intros Hin. apply Hx. right. exact Hin.
  - intros ->. apply Hx. left.
Qed.

(** What the fixer does with one body. *)
Lemma drop_fixer_sites statics m dm (code : list addr) p metrics :
  methods p !! m = Some dm ->
  NoDup code ->
  Forall (rewritable resolve_method statics p) code ->
  exists p1 metrics1 (code' : list addr),
    drop_this_arg_fixer resolve_method statics m code (p, metrics)
    = Ok (p1, metrics1) /\
    classes p1 = classes p /\
    methods p1 = <[m := set_code dm (Some code')]> (methods p) /\
    (length (insns p) <= length (insns p1))%nat /\
    (forall b inst, insns p !! b = Some inst ->
       b ∉ code \/ site_target resolve_method p Any statics b = None ->
       insns p1 !! b = Some inst) /\
    length code' = length code /\
    forall (k : nat) (a : addr),
      code !! k = Some a ->
      exists a' : addr,
        code' !! k = Some a' /\
        match site_target resolve_method p Any statics a with
        | None => a' = a
        | Some t =>
            static_call_of p1 t a' /\ (a' = a \/ (length (insns p) <= a')%nat)
        end.
Proof.
  intros Hdm Hnd Hall.
  destruct (drop_scan_sites statics code p metrics [] Hnd Hall)
    as (p1 & metrics1 & new & Hscan & Hm1 & Hc1 & Hl1 & Hf1 & Hfa & Hndn
        & Hsites).
  rewrite app_nil_l in Hscan.
  assert (Hvalid : forall b, b ∈ code -> (b < length (insns p))%nat).
  { intros b Hb. rewrite Forall_forall in Hall.
    eapply rewritable_valid. apply Hall, Hb. }
  assert (Hbounds : Forall (fun ar : addr * addr =>
                      (ar.1 < length (insns p) <= ar.2)%nat) new).
  { eapply Forall_impl; [exact Hfa|]. intros ar [Hin Hr].
    apply Hvalid in Hin. lia. }
  assert (Hcode' : apply_replacements code new = subst_all new <$> code).
  { apply (apply_replacements_fmap (length (insns p))); [|exact Hbounds].
    intros i j x _. apply NoDup_lookup_unique. exact Hnd. }
  exists (set_methods p1 (<[m := set_code dm (Some (subst_all new <$> code))]>
                           (methods p1))),
         metrics1, (subst_all new <$> code).
  split.
  { unfold drop_this_arg_fixer. rewrite Hscan, bind_Ok.
    rewrite Hm1, (deref_Some _ _ _ Hdm), bind_Ok, Hcode'. reflexivity. }
  split; [exact Hc1|]. split; [simpl; rewrite Hm1; reflexivity|].
  split; [exact Hl1|].
  split.
  { intros b inst Hb Hcase. simpl.
    destruct (decide (b ∈ code)) as [Hin|Hout].
    - destruct Hcase as [Hout|Hnone]; [contradiction|].
      pose proof (Hsites b Hin) as Hs. rewrite Hnone in Hs.
      destruct Hs as [_ ->]. exact Hb.
    - rewrite Hf1; [exact Hb | exact Hout | eapply lookup_lt_Some; eauto]. }
  split; [apply length_fmap|].
  intros k a Hk. exists (subst_all new a).
  split; [rewrite list_lookup_fmap, Hk; reflexivity|].
  assert (Ha : a ∈ code) by (eapply list_elem_of_lookup_2; eauto).
  pose proof (Hsites a Ha) as Hs.
  destruct (site_target resolve_method p Any statics a) as [t|].
  - destruct Hs as [[Hout Hst]|(r & Hr & Hst)].
    + rewrite (subst_all_other new a Hout). split; [exact Hst | left; reflexivity].
    + rewrite (subst_all_replaced (length (insns p)) new a r Hbounds Hndn Hr).
      split; [exact Hst|]. right.
      rewrite Forall_forall in Hbounds. apply (Hbounds _ Hr).
  - destruct Hs as [Hout _]. apply subst_all_other, Hout.
Qed.

Lemma site_target_agrees search targets p q a :
  (forall m, is_concrete <$> methods q !! m = is_concrete <$> methods p !! m) ->
  insns q !! a = insns p !! a ->
  site_target resolve_method q search targets a
  = site_target resolve_method p search targets a.
Proof.
  intros Hc Hi. unfold site_target. rewrite Hi.
  destruct (insns p !! a) as [inst|]; simpl; [|reflexivity].
  destruct (get_method inst) as [mref|]; simpl; [|reflexivity].
  specialize (Hc mref).
  destruct (methods q !! mref) as [dq|], (methods p !! mref) as [dp|];
    simpl in *; try discriminate; [|reflexivity].
  injection Hc as ->. reflexivity.
Qed.

Lemma rewritable_agrees statics p q a :
  (forall m, is_concrete <$> methods q !! m = is_concrete <$> methods p !! m) ->
  insns q !! a = insns p !! a ->
  rewritable resolve_method statics p a ->
  rewritable resolve_method statics q a.
Proof.
  intros Hc Hi (inst & Hinst & H). exists inst. rewrite Hi.
  split; [exact Hinst|].
  destruct (get_method inst) as [mref|]; [|exact I].
  destruct H as (dm & Hdm & H). specialize (Hc mref). rewrite Hdm in Hc.
  destruct (methods q !! mref) as [dq|]; [|discriminate].
  simpl in Hc. injection Hc as Hc. exists dq. rewrite Hc. auto.
Qed.

Lemma insert_code_concrete (l : list DexMethod) m dm code m' :
  l !! m = Some dm ->
  is_concrete <$> <[m := set_code dm code]> l !! m' = is_concrete <$> l !! m'.
Proof.
  intros Hdm. destruct (decide (m' = m)) as [->|Hne].
  - rewrite list_lookup_insert_eq by (eapply lookup_lt_Some; eauto).
    rewrite Hdm. reflexivity.
  - rewrite list_lookup_insert_ne by congruence. reflexivity.
Qed.

Lemma methods_stream_ext p q (ms : list MethodId) :
  (forall m, m ∈ ms -> methods q !! m = methods p !! m) ->
  methods_stream q ms = methods_stream p ms.
Proof.
  induction ms as [|m ms IH]; intros H; [reflexivity|].
  cbn [methods_stream]. rewrite (H m) by left.
  rewrite IH; [reflexivity|]. intros m' Hm'. apply H. right. exact Hm'.
Qed.

Lemma methods_stream_elem p (ms : list MethodId) :
  forall stream m dm (code : list addr) a,
  methods_stream p ms = Some stream ->
  m ∈ ms -> methods p !! m = Some dm -> get_code dm = Some code ->
  a ∈ code -> a ∈ stream.
Proof.
  induction ms as [|m0 ms IH]; intros stream m dm code a Hs Hm Hdm Hcode Ha.
  - inversion Hm.
  - cbn [methods_stream] in Hs.
    destruct (methods p !! m0) as [dm0|] eqn:Hdm0; [|discriminate].
    destruct (methods_stream p ms) as [rest|] eqn:Hrest; [|discriminate].
    injection Hs as <-. apply elem_of_app.
    apply elem_of_cons in Hm as [->|Hm].
    + left. rewrite Hdm in Hdm0. injection Hdm0 as <-. rewrite Hcode. exact Ha.
    + right. eapply IH; eauto.
Qed.

(** The walk over the methods of the scope. *)
Lemma drop_walk_sites statics (ms : list MethodId) :
  forall q metrics stream,
  methods_stream q ms = Some stream ->
  NoDup ms -> NoDup stream ->
  Forall (rewritable resolve_method statics q) stream ->
  exists q' metrics',
    for_each (drop_this_arg_visit resolve_method statics) ms (q, metrics)
    = Ok (q', metrics') /\
    classes q' = classes q /\
    (forall m, is_concrete <$> methods q' !! m
               = is_concrete <$> methods q !! m) /\
    (length (insns q) <= length (insns q'))%nat /\
    (forall m, m ∉ ms -> methods q' !! m = methods q !! m) /\
    (forall b inst, insns q !! b = Some inst ->
       b ∉ stream \/ site_target resolve_method q Any statics b = None ->
       insns q' !! b = Some inst) /\
    (forall m dm, m ∈ ms -> methods q !! m = Some dm ->
       exists dm', methods q' !! m = Some dm' /\
                   body_rewritten resolve_method statics q q' dm dm').
Proof.
  induction ms as [|m ms IH]; intros q metrics stream Hs Hndm Hnds Hall.
  - exists q, metrics. split; [reflexivity|]. split; [reflexivity|].
    split; [reflexivity|]. split; [lia|]. split; [reflexivity|].
    split; [auto|]. intros m dm Hm. inversion Hm.
  - cbn [methods_stream] in Hs.
    destruct (methods q !! m) as [dm|] eqn:Hdm; [|discriminate].
    destruct (methods_stream q ms) as [rest|] eqn:Hrest; [|discriminate].
    injection Hs as <-.
    apply NoDup_cons in Hndm as [Hfresh Hndm].
    apply NoDup_app in Hnds as (Hndc & Hdisj & Hndr).
    apply Forall_app in Hall as [Hallc Hallr].
    assert (Hvalid : forall b, b ∈ rest -> (b < length (insns q))%nat).
    { intros b Hb. rewrite Forall_forall in Hallr.
      eapply rewritable_valid. apply Hallr, Hb. }
    cbn [for_each]. rewrite (drop_this_arg_visit_eq _ _ _ _ _ _ Hdm).
    destruct (get_code dm) as [code|] eqn:Hcode; simpl in Hndc, Hdisj, Hallc.
    + destruct (drop_fixer_sites statics m dm code q metrics Hdm Hndc Hallc)
        as (q1 & metrics1 & code' & Hfix & Hc1 & Hm1 & Hl1 & Hf1 & Hlen & Hplaces).
      rewrite Hfix, bind_Ok.
      assert (Hconc1 : forall m', is_concrete <$> methods q1 !! m'
                                  = is_concrete <$> methods q !! m').
      { intros m'. rewrite Hm1. apply insert_code_concrete. exact Hdm. }
      assert (Hother1 : forall m', m' <> m -> methods q1 !! m' = methods q !! m').
      { intros m' Hne. rewrite Hm1. apply list_lookup_insert_ne. congruence. }
      assert (Hsame1 : forall b, b ∈ rest -> insns q1 !! b = insns q !! b).
      { intros b Hb.
        destruct (lookup_lt_is_Some_2 (insns q) b (Hvalid b Hb)) as [inst Hinst].
        rewrite Hinst. apply Hf1; [exact Hinst|]. left.
        intros Hin. exact (Hdisj b Hin Hb). }
      destruct (IH q1 metrics1 rest) as (q' & metrics' & Hrun & Hc & Hconc & Hl
                                         & Hout & Hf & Hbodies).
      { rewrite <- Hrest. apply methods_stream_ext.
        intros m' Hm'. apply Hother1. intros ->. contradiction. }
      { exact Hndm. }
      { exact Hndr. }
      { apply Forall_forall. intros b Hb. rewrite Forall_forall in Hallr.
        apply (rewritable_agrees statics q); [exact Hconc1 | apply Hsame1, Hb
                                             | apply Hallr, Hb]. }
      exists q', metrics'. split; [exact Hrun|].
      split; [congruence|].
      split; [intros m'; rewrite Hconc; apply Hconc1|].
      split; [lia|].
      split.
      { intros m' Hm'. rewrite Hout.
        - apply Hother1. intros ->. apply Hm'. left.
        - intros Hin. apply Hm'. right. exact Hin. }
      split.
      { intros b inst Hb Hcase.
        assert (Hb1 : insns q1 !! b = Some inst).
        { apply Hf1; [exact Hb|].
          destruct Hcase as [Hnot|Hnone]; [left|right; exact Hnone].
          intros Hin. apply Hnot, elem_of_app. left. exact Hin. }
        apply Hf; [exact Hb1|].
        destruct Hcase as [Hnot|Hnone].
        - left. intros Hin. apply Hnot, elem_of_app. right. exact Hin.
        - right. rewrite (site_target_agrees Any statics q q1 b Hconc1);
            [exact Hnone | congruence]. }
      intros m0 dm0 Hm0 Hdm0. apply elem_of_cons in Hm0 as [->|Hm0].
      * rewrite Hdm in Hdm0. injection Hdm0 as <-.
        exists (set_code dm (Some code')). split.
        { rewrite Hout by exact Hfresh. rewrite Hm1.
          apply list_lookup_insert_eq. eapply lookup_lt_Some; eauto. }
        unfold body_rewritten. rewrite Hcode. exists code'.
        split; [reflexivity|]. split; [exact Hlen|].
        intros k a Hk. destruct (Hplaces k a Hk) as (a' & Hk' & Hsite).
        exists a'. split; [exact Hk'|].
        destruct (site_target resolve_method q Any statics a) as [t|];
          [|exact Hsite].
        destruct Hsite as [Hst Hwhere]. split; [|exact Hwhere].
        destruct Hst as (inst' & Hi' & Hst). exists inst'. split; [|exact Hst].
        apply Hf; [exact Hi'|]. left. intros Hin.
        destruct Hwhere as [->|Hnew].
        -- apply (Hdisj a); [eapply list_elem_of_lookup_2; eauto | exact Hin].
        -- apply Hvalid in Hin. lia.
      * assert (Hne : m0 <> m) by (intros ->; contradiction).
        assert (Hdm1 : methods q1 !! m0 = Some dm0)
          by (rewrite Hother1; auto).
        destruct (Hbodies m0 dm0 Hm0 Hdm1) as (dm' & Hdm' & Hbody).
        exists dm'. split; [exact Hdm'|].
        unfold body_rewritten in *.
        destruct (get_code dm0) as [code0|] eqn:Hcode0; [|exact Hbody].
        destruct Hbody as (code0' & -> & Hlen0 & Hplaces0).
        exists code0'. split; [reflexivity|]. split; [exact Hlen0|].
        intros k a Hk. destruct (Hplaces0 k a Hk) as (a' & Hk' & Hsite).
        exists a'. split; [exact Hk'|].
        assert (Ha : a ∈ rest).
        { eapply (methods_stream_elem q ms); eauto.
          eapply list_elem_of_lookup_2; eauto. }
        rewrite (site_target_agrees Any statics q q1 a Hconc1 (Hsame1 a Ha))
          in Hsite.
        destruct (site_target resolve_method q Any statics a) as [t|];
          [|exact Hsite].
        destruct Hsite as [Hst Hwhere]. split; [exact Hst|].
        destruct Hwhere as [->|Hnew]; [left; reflexivity | right; lia].
    + rewrite bind_Ok. rewrite app_nil_l in *.
      destruct (IH q metrics rest Hrest Hndm Hndr Hallr)
        as (q' & metrics' & Hrun & Hc & Hconc & Hl & Hout & Hf & Hbodies).
      exists q', metrics'. split; [exact Hrun|].
      split; [exact Hc|]. split; [exact Hconc|]. split; [exact Hl|].
      split.
      { intros m' Hm'. apply Hout. intros Hin. apply Hm'. right. exact Hin. }
      split; [exact Hf|].
      intros m0 dm0 Hm0 Hdm0. apply elem_of_cons in Hm0 as [->|Hm0].
      * rewrite Hdm in Hdm0. injection Hdm0 as <-.
        exists dm. split; [rewrite Hout by exact Hfresh; exact Hdm|].
        unfold body_rewritten. rewrite Hcode. reflexivity.
      * apply Hbodies; assumption.
Qed.

(** X2: over a scope whose methods and instructions are distinct and can
    be processed (calls into the set are virtual, super or direct calls),
    the drop-receiver rewrite returns, and it changes exactly the call
    sites of the scope whose target is in the set.  Every body keeps its
    length; a place whose instruction did not reach the set holds the same
    address and that instruction is untouched; a place whose instruction
    called a method of the set holds the address of a static call of that
    method.  Instructions outside the scope, methods outside the scope and
    the classes are as before. *)
Theorem drop_rewrite_exactly_once scope statics p metrics ms stream :
  scope_methods p scope = Some ms ->
  methods_stream p ms = Some stream ->
  NoDup ms -> NoDup stream ->
  Forall (rewritable resolve_method statics p) stream ->
  exists p' metrics',
    fix_call_sites_and_drop_this_arg resolve_method scope statics (p, metrics)
    = Ok (p', metrics') /\
    classes p' = classes p /\
    (forall m, m ∉ ms -> methods p' !! m = methods p !! m) /\
    (forall a inst, insns p !! a = Some inst ->
       a ∉ stream \/ site_target resolve_method p Any statics a = None ->
       insns p' !! a = Some inst) /\
    (forall m dm, m ∈ ms -> methods p !! m = Some dm ->
       exists dm', methods p' !! m = Some dm' /\
                   body_rewritten resolve_method statics p p' dm dm').
Proof.
  intros Hms Hs Hndm Hnds Hall.
  rewrite (fix_call_sites_and_drop_this_arg_flat _ _ _ _ _ _ Hms).
  destruct (drop_walk_sites statics ms p metrics stream Hs Hndm Hnds Hall)
    as (p' & metrics' & Hrun & Hc & _ & _ & Hout & Hf & Hbodies).
  exists p', metrics'. auto.
Qed.

End DropWalk.

(** * The static flag over a run *)

Section StaticFlag.

Variable resolve_method : MethodId -> MethodSearch -> option MethodId.
Variable keep : MethodId -> bool.
Variable devirtualize : Program -> list ClassId -> list MethodId.

Lemma vmethods_not_using_this_phase_static scope targets st st' :
  vmethods_not_using_this_phase resolve_method keep devirtualize scope targets st
  = Ok st' ->
  static_mono st.1 st'.1.
Proof.
  unfold vmethods_not_using_this_phase. intros H.
  apply bind_Ok_inv in H as (cands & _ & H).
  apply bind_Ok_inv in H as (ms & _ & H).
  apply staticize_methods_not_using_this_static in H as [H _]. exact H.
Qed.

Lemma dmethods_using_this_phase_static scope targets st st' :
  dmethods_using_this_phase resolve_method keep scope targets st = Ok st' ->
  static_mono st.1 st'.1.
Proof.
  clear devirtualize.
  unfold dmethods_using_this_phase. intros H.
  apply bind_Ok_inv in H as (cands & _ & H).
  apply bind_Ok_inv in H as (ms & _ & H).
  apply staticize_methods_using_this_static in H as [H _]. exact H.
Qed.

(** X11: a run never turns a static method into an instance method: a
    method that is static when the run starts, or that one of the
    conversions has made static, is static in the program the run
    returns.  Each conversion makes every method of its set static. *)
Theorem run_keeps_static :
  (forall m_config scope target_classes st st',
     devirtualize_methods resolve_method keep devirtualize m_config
       scope target_classes st = Ok st' ->
     static_mono st.1 st'.1) /\
  (forall scope (ms : gset MethodId) st st',
     staticize_methods_not_using_this resolve_method scope ms st = Ok st' \/
     staticize_methods_using_this resolve_method scope ms st = Ok st' ->
     static_mono st.1 st'.1 /\ forall m, m ∈ ms -> static_at st'.1 m).
Proof.
  split.
  - intros m_config scope targets st st' H.
    unfold devirtualize_methods in H.
    apply bind_Ok_inv in H as (st1 & H1 & H).
    apply bind_Ok_inv in H as (st2 & H2 & H).
    apply bind_Ok_inv in H as (st3 & H3 & H4).
    apply when_static in H1;
      [|intros; eapply vmethods_not_using_this_phase_static; eauto].
    apply when_static in H2;
      [|intros; eapply dmethods_not_using_this_phase_static; eauto].
    apply when_static in H3;
      [|intros; eapply vmethods_using_this_phase_static; eauto].
    apply when_static in H4;
      [|intros; eapply dmethods_using_this_phase_static; eauto].
    eauto using static_mono_trans.
  - intros scope ms st st' [H|H].
    + eapply staticize_methods_not_using_this_static; eauto.
    + eapply staticize_methods_using_this_static; eauto.
Qed.

End StaticFlag.

(** * Well-formed instructions *)

Section WellFormed.

Variable resolve_method : MethodId -> MethodSearch -> option MethodId.

Lemma static_form_not_instance (op : DexOpcode) :
  is_instance_invoke (static_form op) = false.
Proof. unfold static_form. destruct (is_invoke_range op); reflexivity. Qed.

Lemma wf_insn_patched inst t :
  wf_insn inst ->
  wf_insn (set_method (set_opcode inst (static_form (opcode inst))) t).
Proof. intros []. constructor; assumption. Qed.

Lemma heap_wf_store p a inst :
  heap_wf p ->
  wf_insn inst ->
  is_instance_invoke (opcode inst) = false ->
  heap_wf (store_insn p a inst).
Proof.
  intros Hp Hwf Hop b instb Hb. simpl in Hb.
  destruct (decide (b = a)) as [->|Hne].
  - destruct (decide (a < length (insns p))%nat) as [Hlt|Hge].
    + rewrite list_lookup_insert_eq in Hb by exact Hlt. injection Hb as <-.
      split; [exact Hwf|]. rewrite Hop. discriminate.
    + rewrite list_insert_ge in Hb by lia. apply (Hp a instb Hb).
  - rewrite list_lookup_insert_ne in Hb by congruence. apply (Hp b instb Hb).
Qed.

Lemma keep_step_wf targets m a (s s' : Program * DevirtualizerMetrics) :
  fix_call_sites_fixer resolve_method targets m a s = Ok s' ->
  heap_wf s.1 -> heap_wf s'.1.
Proof.
  destruct s as [p metrics], s' as [p' metrics']. intros H Hp. cbn [fst snd] in *.
  pose proof H as H0. unfold fix_call_sites_fixer in H0.
  apply bind_Ok_inv in H0 as (insn & Hi & H0). apply deref_Ok_inv in Hi.
  destruct (get_method insn) as [mref|] eqn:Hm;
    [|injection H0 as <- _; exact Hp].
  apply bind_Ok_inv in H0 as ([t|] & Hct & H0);
    [|injection H0 as <- _; exact Hp].
  destruct (decide (t ∈ targets)) as [Hin|Hout].
  2:{ rewrite bool_decide_eq_false_2 in H0 by exact Hout.
      injection H0 as <- _. exact Hp. }
  rewrite bool_decide_eq_true_2 in H0 by exact Hin.
  apply bind_Ok_inv in H0 as (_ & _ & H0).
  apply bind_Ok_inv in H0 as ([insn' metrics1] & Hpatch & _).
  pose proof (patch_call_site_Ok_inv _ _ _ _ Hpatch) as Hop.
  rewrite (keep_step_patched resolve_method targets m a p metrics insn mref t
             Hi Hm Hct Hin Hop) in H.
  injection H as <- _.
  apply heap_wf_store; [exact Hp | | apply static_form_not_instance].
  apply wf_insn_patched. apply (Hp a insn Hi).
Qed.

Lemma drop_step_wf statics a
    (s s' : Program * DevirtualizerMetrics * list (addr * addr)) :
  drop_this_arg_step resolve_method statics a s = Ok s' ->
  heap_wf s.1.1 -> heap_wf s'.1.1.
Proof.
  destruct s as [[p metrics] repls], s' as [[p' metrics'] repls'].
  intros H Hp. cbn [fst snd] in *.
  pose proof H as H0. unfold drop_this_arg_step in H0.
  apply bind_Ok_inv in H0 as (inst & Hi & H0). apply deref_Ok_inv in Hi.
  destruct (get_method inst) as [mref|] eqn:Hm;
    [|injection H0 as <- _ _; exact Hp].
  apply bind_Ok_inv in H0 as ([t|] & Hct & H0);
    [|injection H0 as <- _ _; exact Hp].
  destruct (decide (t ∈ statics)) as [Hin|Hout].
  2:{ rewrite bool_decide_eq_false_2 in H0 by exact Hout.
      injection H0 as <- _ _. exact Hp. }
  rewrite bool_decide_eq_true_2 in H0 by exact Hin.
  apply bind_Ok_inv in H0 as ([inst0 metrics1] & Hpatch & _).
  pose proof (patch_call_site_Ok_inv _ _ _ _ Hpatch) as Hop.
  rewrite (drop_step_in_set resolve_method statics a p metrics repls inst mref t
             Hi Hm Hct Hin Hop) in H.
  cbv zeta in H.
  destruct (Hp a inst Hi) as [Hwf Hrecv]. specialize (Hrecv Hop).
  pose proof (wf_insn_patched inst t Hwf) as Hwf1.
  unfold arg_count in Hrecv.
  destruct (is_invoke_range (opcode inst)) eqn:Hrange.
  - destruct (bool_decide (range_size inst = 1)) eqn:Hone.
    + injection H as <- _ _.
      intros b instb Hb. simpl in Hb.
      apply lookup_app_Some in Hb as [Hb|[_ Hb]].
      * apply (heap_wf_store p a _ Hp Hwf1
                 (static_form_not_instance (opcode inst)) b instb Hb).
      * apply list_lookup_singleton_Some in Hb as [_ <-].
        split; [|discriminate].
        constructor; simpl; unfold u16; try lia. constructor.
    + apply bool_decide_eq_false_1 in Hone. injection H as <- _ _.
      apply heap_wf_store; [exact Hp | | apply static_form_not_instance].
      destruct Hwf as [Hu Hsz Hb Hs Hw].
      unfold range_size, range_base in *.
      unfold u16 in Hb, Hs.
      assert (E1 : wrap16 (m_range_base inst + 1) = m_range_base inst + 1)
        by (apply wrap16_u16; unfold u16; lia).
      assert (E2 : wrap16 (m_range_size inst - 1) = m_range_size inst - 1)
        by (apply wrap16_u16; unfold u16; lia).
      constructor; simpl; rewrite ?E1, ?E2; unfold u16; auto; lia.
    - apply bind_Ok_inv in H as (inst2 & Hloop & H). injection H as <- _ _.
      apply heap_wf_store; [exact Hp | |].
      + destruct (drop_first_src _ Hwf1) as (inst1 & Hloop1 & Hres).
        { exact Hrecv. }
        cbv zeta in Hloop1, Hres.
        change (arg_word_count
                  (set_method (set_opcode inst (static_form (opcode inst))) t))
          with (arg_word_count inst) in Hloop1, Hres.
        rewrite Hloop1 in Hloop. injection Hloop as <-. rewrite Hres.
        destruct Hwf as [Hu Hsz Hb Hs Hw].
        constructor; simpl; auto.
        * destruct (m_srcs inst); simpl; [constructor|].
          apply Forall_cons in Hu as [_ Hu]. exact Hu.
        * rewrite length_tl. lia.
      + unfold opcode. cbn [m_opcode set_arg_word_count].
        rewrite (shift_loop_opcode _ _ _ Hloop). apply static_form_not_instance.
Qed.

Lemma drop_fixer_wf statics m (code : list addr)
    (s s' : Program * DevirtualizerMetrics) :
  drop_this_arg_fixer resolve_method statics m code s = Ok s' ->
  heap_wf s.1 -> heap_wf s'.1.
Proof.
  unfold drop_this_arg_fixer. intros H.
  apply bind_Ok_inv in H as ([[p1 metrics1] repls] & Hscan & H).
  apply bind_Ok_inv in H as (dm & _ & H). injection H as <-. simpl.
  revert Hscan.
  apply (for_each_preserves
           (fun (s s' : Program * DevirtualizerMetrics * list (addr * addr)) =>
              heap_wf s.1.1 -> heap_wf s'.1.1)); [auto | auto |].
  intros a s1 s1'. apply drop_step_wf.
Qed.

(** X12: the call-site rewrites keep the instructions well formed: when
    every instruction of the heap holds 16-bit values and a window inside
    the register file, and every virtual, super or direct call passes its
    receiver, the same holds of the heap a rewrite returns, in either
    protocol. *)
Theorem rewrites_keep_heap_well_formed :
  (forall scope targets (st st' : Program * DevirtualizerMetrics),
     fix_call_sites resolve_method scope targets st = Ok st' ->
     heap_wf st.1 -> heap_wf st'.1) /\
  (forall scope statics (st st' : Program * DevirtualizerMetrics),
     fix_call_sites_and_drop_this_arg resolve_method scope statics st = Ok st' ->
     heap_wf st.1 -> heap_wf st'.1).
Proof.
  split.
  - intros scope targets. unfold fix_call_sites, walk_opcodes.
    apply (walk_code_preserves fst (fun s s' => heap_wf s.1 -> heap_wf s'.1));
      [auto | auto |].
    intros m code.
    apply (for_each_preserves (fun s s' => heap_wf s.1 -> heap_wf s'.1));
      [auto | auto |].
    intros a s1 s1'. apply keep_step_wf.
  - intros scope statics. unfold fix_call_sites_and_drop_this_arg.
    apply (walk_code_preserves fst (fun s s' => heap_wf s.1 -> heap_wf s'.1));
      [auto | auto |].
    intros m code s1 s1'. apply drop_fixer_wf.
Qed.

End WellFormed.

(** * When the classification returns *)

Section Classification.

Variable keep : MethodId -> bool.

Lemma not_using_loop_total p (l : list MethodId) : forall acc : gset MethodId,
  (forall m, m ∈ l -> exists b, uses_this p m = Ok b) ->
  exists found,
    for_each (fun method (found : gset MethodId) =>
        used ← uses_this p method;
        if used : bool then mret found else mret ({[method]} ∪ found)) l acc
    = Ok found.
Proof.
  clear keep.
  induction l as [|m l IH]; intros acc H; [eexists; reflexivity|].
  cbn [for_each]. destruct (H m ltac:(left)) as [b ->]. rewrite bind_Ok.
  destruct b; apply IH; intros m' Hm'; apply H; right; exact Hm'.
Qed.

(** X13: the classification of the methods that do not use their receiver
    returns exactly when every candidate exists and the analyzer returns
    on every candidate that is not kept, not external and not abstract.
    The analyzer is not run on the other candidates: an abstract method
    without code among the candidates does not stop it. *)
Theorem classification_returns_iff p (cands : list MethodId) :
  (exists found,
     devirtualizable_methods_not_using_this keep p cands = Ok found)
  <-> Forall (fun m => is_Some (methods p !! m)) cands /\
      forall m, m ∈ cands -> eligible keep p m ->
                exists b, uses_this p m = Ok b.
Proof.
  split.
  - intros [found H].
    destruct (not_using_this_spec keep p cands found H)
      as (eligible_set & He & _ & Hdef).
    split.
    + eapply devirtualizable_methods_defined. exact He.
    + intros m Hm Hel. apply Hdef.
      apply (devirtualizable_methods_spec keep p cands eligible_set He).
      auto.
  - intros [Hv Hdef].
    destruct (devirtualizable_methods_total keep p cands Hv)
      as [eligible_set He].
    unfold devirtualizable_methods_not_using_this. rewrite He, bind_Ok.
    apply not_using_loop_total. intros m Hm.
    apply elem_of_elements in Hm.
    apply (devirtualizable_methods_spec keep p cands eligible_set He) in Hm
      as [Hin Hel].
    apply Hdef; assumption.
Qed.

End Classification.

(** * The properties on the small program *)

Module ScenarioFacts.
Import Scenario.

Lemma draw_in_set : 0%nat ∈ ({[0%nat]} : gset MethodId).
Proof. apply elem_of_singleton. reflexivity. Qed.

Lemma wf_call_explicit : wf_insn call_explicit.
Proof.
  constructor; simpl; unfold u16; try lia.
  repeat constructor; lia.
Qed.

Lemma render_code_NoDup : NoDup [2; 3; 4; 5; 6]%nat.
Proof. apply (bool_decide_unpack _). vm_compute. exact I. Qed.

(** C1 on the explicit call of render: dropped, it passes [v7] alone;
    kept, it still passes two registers. *)
Lemma drop_receiver_argument_count_witness :
  (exists p' metrics' repls' inst',
     drop_this_arg_step resolve {[0%nat]} 3 ((prog, fresh_metrics), [])
     = Ok ((p', metrics'), repls') /\
     insns p' !! 3%nat = Some inst' /\
     arg_count inst' = 1 /\ m_srcs inst' !! 0%nat = Some 7) /\
  (exists p' metrics' inst',
     fix_call_sites_fixer resolve {[0%nat]} 1 3 (prog, fresh_metrics)
     = Ok (p', metrics') /\
     insns p' !! 3%nat = Some inst' /\ arg_count inst' = 2).
Proof.
  destruct (drop_receiver_argument_count resolve 3 prog fresh_metrics
              call_explicit 0 eq_refl eq_refl eq_refl wf_call_explicit)
    as [Hdrop Hkeep].
  split.
  - destruct (Hdrop {[0%nat]} [] 0%nat eq_refl draw_in_set ltac:(vm_compute; discriminate))
      as (p' & metrics' & repls' & site & inst' & Hrun & Hsite & Hwhere & Hcount
          & Hexplicit & _).
    destruct Hwhere as [-> _].
    destruct (Hexplicit eq_refl) as [_ Hshift].
    exists p', metrics', repls', inst'.
    split; [exact Hrun|]. split; [exact Hsite|]. split; [exact Hcount|].
    rewrite Hshift. reflexivity.
  - destruct (Hkeep {[0%nat]} 1%nat 0%nat eq_refl draw_in_set)
      as (p' & metrics' & inst' & Hrun & Hsite & Hcount).
    exists p', metrics', inst'. auto.
Defined.

(** C10 on the explicit call of render: two argument words, one after the
    rewrite. *)
Lemma explicit_drop_well_defined_witness :
  exists inst',
    drop_this_arg_step resolve {[0%nat]} 3 ((prog, fresh_metrics), [])
    = Ok ((store_insn prog 3 inst',
           count_kind OPCODE_INVOKE_VIRTUAL fresh_metrics), []) /\
    arg_word_count inst' = 1.
Proof.
  destruct (explicit_drop_well_defined resolve {[0%nat]} 3 prog fresh_metrics []
              call_explicit 0 0 eq_refl eq_refl eq_refl draw_in_set eq_refl
              eq_refl wf_call_explicit ltac:(vm_compute; discriminate))
    as (inst1 & inst' & _ & _ & _ & Hrun & Hcount & _).
  exists inst'. split; [exact Hrun | exact Hcount].
Defined.

(** Without the precondition of C10 the decrement wraps: an explicit call
    with no argument word ends with 65535 of them. *)
Example explicit_drop_needs_receiver :
  match drop_this_arg_step resolve {[0%nat]} 0
          ((mkProgram (classes prog) (methods prog)
              [mkInsn OPCODE_INVOKE_VIRTUAL (Some 0%nat) [] 0 0 0],
            fresh_metrics), []) with
  | Ok ((p', _), _) => arg_word_count <$> insns p' !! 0%nat = Some 65535
  | Fail _ => False
  end.
Proof. vm_compute. reflexivity. Qed.

(** C4 on the explicit call of render. *)
Lemma keep_receiver_frame_witness :
  exists p' metrics' insn',
    fix_call_sites_fixer resolve {[0%nat]} 1 3 (prog, fresh_metrics)
    = Ok (p', metrics') /\
    insns p' !! 3%nat = Some insn' /\
    opcode insn' = OPCODE_INVOKE_STATIC /\
    m_srcs insn' = [5; 7] /\
    methods p' = methods prog.
Proof.
  destruct (keep_receiver_frame resolve {[0%nat]} 1 3 prog fresh_metrics
              call_explicit 0 0 eq_refl eq_refl eq_refl draw_in_set eq_refl)
    as (p' & metrics' & insn' & Hrun & Hsite & Hop & _ & Hsrcs & _ & _ & _ & _ & _
        & Hmethods & _).
  exists p', metrics', insn'. auto.
Defined.

(** C9 on a super call of render made through the reference, which is
    resolved to draw. *)
Lemma resolution_strategy_and_skip_witness :
  call_target resolve prog_by_ref Virtual 2 = Ok (Some 0%nat) /\
  call_target resolve prog_by_ref Any 2 = Ok (Some 0%nat) /\
  fix_call_sites_fixer resolve {[1%nat]} 1 5 (prog_by_ref, fresh_metrics)
  = Ok (prog_by_ref, fresh_metrics) /\
  drop_this_arg_step resolve {[1%nat]} 5 ((prog_by_ref, fresh_metrics), [])
  = Ok ((prog_by_ref, fresh_metrics), []) /\
  fix_call_sites_fixer resolve {[0%nat]} 1 5 (prog_by_ref, fresh_metrics)
  = Ok (store_insn prog_by_ref 5 (mkInsn OPCODE_INVOKE_STATIC (Some 0%nat) [5] 0 0 0),
        count_kind OPCODE_INVOKE_SUPER fresh_metrics).
Proof.
  destruct (resolution_strategy_and_skip resolve 5 prog_by_ref fresh_metrics call_by_ref
              2 draw_ref eq_refl eq_refl eq_refl)
    as (Hv & Ha & Hkeep & Hdrop).
  split; [exact Hv|]. split; [exact Ha|].
  assert (Hout : forall t : nat, Some 0%nat = Some t -> t ∉ ({[1%nat]} : gset nat)).
  { intros t Ht. injection Ht as <-. intros Hin.
    apply elem_of_singleton in Hin. discriminate. }
  split; [apply (proj1 (Hkeep {[1%nat]} 1%nat)), Hout|].
  split; [apply (proj1 (Hdrop {[1%nat]} [])), Hout|].
  exact (proj2 (Hkeep {[0%nat]} 1%nat) 0%nat eq_refl draw_in_set eq_refl).
Defined.

(** C5 on draw, which never reads its receiver, and on render, which
    passes it on. *)
Lemma receiver_usage_sound_witness :
  uses_this prog 0 = Ok false /\ uses_this prog 1 = Ok true.
Proof.
  split.
  - apply (receiver_usage_sound prog 0 draw 0 [1%nat] (load_this 0)
             eq_refl eq_refl eq_refl eq_refl).
    + repeat constructor. exists return_void. reflexivity.
    + intros a i Ha Hi [Hsrc|[Hrange _]].
      * apply list_elem_of_In in Ha. simpl in Ha.
        destruct Ha as [<-|[<-|[]]]; injection Hi as <-; inversion Hsrc.
      * apply list_elem_of_In in Ha. simpl in Ha.
        destruct Ha as [<-|[<-|[]]]; injection Hi as <-; discriminate Hrange.
  - apply (receiver_usage_sound prog 1 render 2 [3; 4; 5; 6]%nat (load_this 5)
             eq_refl eq_refl eq_refl eq_refl).
    + repeat constructor; eexists; reflexivity.
    + exists 3%nat, call_explicit. split; [left|]. split; [reflexivity|].
      left. simpl. left.
Defined.

(** C3 does not hold: a run that converts virtual methods only patches
    three call sites of draw, one of them a super call; the virtual
    counter ends at 2 and the super counter at 1. *)
Lemma super_call_of_virtual_method_counted :
  length (patched_sites resolve prog Any {[0%nat]} [2; 3; 4; 5; 6]%nat) = 3%nat /\
  dmethods_not_using_this only_virtual = false /\
  dmethods_using_this only_virtual = false /\
  report (devirtualize_methods resolve keep_none (monomorphic [0%nat])
            only_virtual scope scope (prog, fresh_metrics))
  = Ok (mkMetrics 1 0 2 1 0) /\
  ~ (exists metrics,
       report (devirtualize_methods resolve keep_none (monomorphic [0%nat])
                 only_virtual scope scope (prog, fresh_metrics))
       = Ok metrics /\
       num_virtual_calls metrics = 3%nat /\
       num_super_calls metrics = 0%nat /\
       num_direct_calls metrics = 0%nat).
Proof.
  split; [vm_compute; reflexivity|]. split; [reflexivity|].
  split; [reflexivity|]. split; [vm_compute; reflexivity|].
  intros (metrics & Hrun & Hv & _). vm_compute in Hrun.
  injection Hrun as <-. discriminate Hv.
Qed.

Lemma monomorphic_instance (l : list MethodId) p (scope : list ClassId) m dm :
  m ∈ monomorphic l p scope -> methods p !! m = Some dm -> is_static dm = false.
Proof.
  unfold monomorphic. intros Hin Hdm. apply list_elem_of_In in Hin.
  apply filter_In in Hin as [_ Hin]. rewrite Hdm in Hin.
  destruct (is_static dm); [discriminate | reflexivity].
Qed.

Lemma prog_bodies_valid : bodies_valid prog.
Proof.
  intros m dm code Hdm Hcode.
  destruct m as [|[|[|[|m]]]]; simpl in Hdm; try discriminate;
    injection Hdm as <-; simpl in Hcode; try discriminate;
    injection Hcode as <-; (split; [discriminate|]);
    repeat constructor; eexists; reflexivity.
Qed.

(** C6 on draw: the first phase converts it, and the third phase no
    longer has it among its candidates. *)
Lemma receiver_split_exclusive_witness :
  exists (set1 : gset MethodId) st1 cands3 (set3 : gset MethodId),
    devirtualizable_methods_not_using_this keep_none prog [0%nat] = Ok set1 /\
    0%nat ∈ set1 /\
    staticize_methods_not_using_this resolve scope set1 (prog, fresh_metrics)
    = Ok st1 /\
    get_devirtualizable_vmethods (monomorphic [0%nat]) st1.1 scope scope
    = Ok cands3 /\
    devirtualizable_methods keep_none st1.1 cands3 = Ok set3 /\
    (0%nat ∉ cands3) /\
    set1 ## set3.
Proof.
  destruct (receiver_split_exclusive resolve keep_none (monomorphic [0%nat])
              (monomorphic_instance [0%nat]) only_virtual scope scope)
    as (Hsplit & Hvirtual & _).
  destruct (devirtualizable_methods_not_using_this keep_none prog [0%nat])
    as [set1|e] eqn:Hset1; [|vm_compute in Hset1; discriminate].
  destruct (staticize_methods_not_using_this resolve scope set1
              (prog, fresh_metrics)) as [st1|e] eqn:Hst1.
  2:{ vm_compute in Hset1. injection Hset1 as <-.
      vm_compute in Hst1. discriminate. }
  destruct (get_devirtualizable_vmethods (monomorphic [0%nat]) st1.1 scope scope)
    as [cands3|e] eqn:Hcands3.
  2:{ vm_compute in Hset1. injection Hset1 as <-.
      vm_compute in Hst1. injection Hst1 as <-.
      vm_compute in Hcands3. discriminate. }
  destruct (devirtualizable_methods keep_none st1.1 cands3) as [set3|e] eqn:Hset3.
  2:{ vm_compute in Hset1. injection Hset1 as <-.
      vm_compute in Hst1. injection Hst1 as <-.
      vm_compute in Hcands3. injection Hcands3 as <-.
      vm_compute in Hset3. discriminate. }
  destruct (Hvirtual (prog, fresh_metrics) [0%nat] set1 st1 st1 cands3 set3
              eq_refl Hset1 Hst1 eq_refl Hcands3 Hset3) as [Hout Hdisj].
  assert (Hin : 0%nat ∈ set1).
  { destruct (Hsplit prog [0%nat] set1 Hset1) as (E & HE & _ & Hcases).
    assert (H0 : 0%nat ∈ E).
    { apply (devirtualizable_methods_spec keep_none prog [0%nat] E HE).
      split; [left|]. exists draw. repeat split. }
    destruct (Hcases 0%nat H0) as [[H _]|[_ H]]; [exact H|].
    vm_compute in H. discriminate. }
  exists set1, st1, cands3, set3.
  split; [first [reflexivity | exact Hset1]|]. split; [exact Hin|].
  split; [first [reflexivity | exact Hst1]|].
  split; [first [reflexivity | exact Hcands3]|].
  split; [first [reflexivity | exact Hset3]|].
  split; [exact (Hout 0%nat Hin) | exact Hdisj].
Defined.

(** C8 does not hold in the phases that keep the receiver: method 3 is an
    eligible candidate without code, and a run of the third phase alone
    completes and converts it. *)
Lemma method_without_code_converted :
  eligible keep_none prog 3 /\
  no_receiver_load prog 3 /\
  get_devirtualizable_vmethods (monomorphic [3%nat]) prog scope scope
  = Ok [3%nat] /\
  vmethods_using_this only_virtual_using_this = true /\
  exists p' metrics',
    devirtualize_methods resolve keep_none (monomorphic [3%nat])
      only_virtual_using_this scope scope (prog, fresh_metrics)
    = Ok (p', metrics') /\
    static_at p' 3 /\
    num_methods_using_this metrics' = 1%nat.
Proof.
  split; [exists no_code; repeat split|].
  split; [exists no_code; split; [reflexivity | left; reflexivity]|].
  split; [reflexivity|]. split; [reflexivity|].
  destruct (devirtualize_methods resolve keep_none (monomorphic [3%nat])
              only_virtual_using_this scope scope (prog, fresh_metrics))
    as [[p' metrics']|e] eqn:Hrun; [|vm_compute in Hrun; discriminate].
  exists p', metrics'. split; [first [reflexivity | exact Hrun]|].
  vm_compute in Hrun. injection Hrun as <- <-.
  split; [|reflexivity]. eexists. split; reflexivity.
Qed.

(** C8 on method 3 as a candidate of the first phase: the run
    stops on an assertion. *)
Lemma not_using_phases_require_receiver_load_witness :
  vmethods_not_using_this_phase resolve keep_none (monomorphic [0; 3]%nat)
    scope scope (prog, fresh_metrics) = Fail AssertionFailure /\
  devirtualize_methods resolve keep_none (monomorphic [0; 3]%nat)
    only_virtual scope scope (prog, fresh_metrics) = Fail AssertionFailure.
Proof.
  destruct (not_using_phases_require_receiver_load resolve keep_none
              (monomorphic [0; 3]%nat) only_virtual scope scope
              (prog, fresh_metrics) 3) as [Hvirtual _].
  - exists no_code. repeat split.
  - exists no_code. split; [reflexivity | left; reflexivity].
  - destruct (Hvirtual [0; 3]%nat eq_refl ltac:(apply list_elem_of_In; simpl; tauto))
      as (e & Hphase & Hkind & Hrun).
    rewrite (Hkind prog_bodies_valid) in Hphase, Hrun.
    split; [exact Hphase | exact (Hrun eq_refl)].
Defined.

Lemma scope_code_NoDup : NoDup [0; 1; 2; 3; 4; 5; 6]%nat.
Proof. apply (bool_decide_unpack _). vm_compute. exact I. Qed.

Lemma scope_methods_NoDup : NoDup [0; 3; 1]%nat.
Proof. apply (bool_decide_unpack _). vm_compute. exact I. Qed.

Lemma scope_code_valid :
  Forall (fun b => (b < 7)%nat) [0; 1; 2; 3; 4; 5; 6]%nat.
Proof. repeat constructor; lia. Qed.

(** C3 on the drop-receiver rewrite of the program for draw:
    three patched call sites, two virtual and one super. *)
Lemma counters_follow_call_kind_witness :
  exists p' metrics',
    fix_call_sites_and_drop_this_arg resolve scope {[0%nat]}
      (prog, fresh_metrics) = Ok (p', metrics') /\
    num_virtual_calls metrics' = 2%nat /\
    num_super_calls metrics' = 1%nat /\
    num_direct_calls metrics' = 0%nat.
Proof.
  destruct (fix_call_sites_and_drop_this_arg resolve scope {[0%nat]}
              (prog, fresh_metrics)) as [[p' metrics']|e] eqn:Hrun;
    [|vm_compute in Hrun; discriminate].
  destruct counters_follow_call_kind with (resolve_method := resolve)
    as (_ & _ & Hdrop).
  destruct (Hdrop scope {[0%nat]} prog fresh_metrics p' metrics'
              [0; 3; 1]%nat [0; 1; 2; 3; 4; 5; 6]%nat eq_refl eq_refl
              scope_methods_NoDup scope_code_NoDup scope_code_valid Hrun)
    as [[Hv Hs Hd _ _ _] _].
  exists p', metrics'. split; [reflexivity|].
  rewrite Hv, Hs, Hd. split; [|split]; vm_compute; reflexivity.
Defined.

(** C7 on a body of render that calls draw by a static call. *)
Lemma static_call_in_target_set_fails_witness :
  fix_call_sites_fixer resolve {[0%nat]} 1 3 (prog_static, fresh_metrics)
  = Fail AssertionFailure /\
  drop_this_arg_step resolve {[0%nat]} 3 ((prog_static, fresh_metrics), [])
  = Fail AssertionFailure /\
  (exists e,
     staticize_methods_using_this resolve scope {[0%nat]}
       (prog_static, fresh_metrics) = Fail e) /\
  (exists e,
     staticize_methods_not_using_this resolve scope {[0%nat]}
       (prog_static, fresh_metrics) = Fail e).
Proof.
  destruct (static_call_in_target_set_fails resolve 3 prog_static fresh_metrics
              call_static 0 eq_refl eq_refl eq_refl) as [Hkeep Hdrop].
  destruct (Hkeep {[0%nat]} 1%nat 0%nat eq_refl draw_in_set) as [Hk Hkeep_all].
  destruct (Hdrop {[0%nat]} [] 0%nat eq_refl draw_in_set) as [Hd Hdrop_all].
  assert (Hin : 3%nat ∈ [0; 1; 2; 3; 4; 5; 6]%nat)
    by (apply list_elem_of_In; simpl; tauto).
  destruct (Hkeep_all scope [0; 1; 2; 3; 4; 5; 6]%nat eq_refl scope_code_NoDup Hin)
    as (e1 & _ & He1).
  destruct (Hdrop_all scope [0; 3; 1]%nat [0; 1; 2; 3; 4; 5; 6]%nat eq_refl
              eq_refl scope_methods_NoDup scope_code_NoDup scope_code_valid Hin)
    as (e2 & _ & He2).
  split; [exact Hk|]. split; [exact Hd|]. split; eauto.
Defined.

Lemma render_code_rewritable :
  Forall (rewritable resolve {[0%nat]} prog) [2; 3; 4; 5; 6]%nat.
Proof.
  repeat (apply Forall_cons_2;
    [eexists; split; [reflexivity|]; simpl;
     first [exact I
           | eexists; split; [reflexivity|]; simpl; intros _; reflexivity]|]).
  apply Forall_nil_2.
Qed.

(** C2 on the range call of render: the rewrite of the body returns; the
    third place of the stream then holds the new instruction at address 7,
    a static call of draw without argument, and address 4 is gone. *)
Lemma range_degenerate_replaced_witness :
  exists p' metrics' dm' code',
    drop_this_arg_fixer resolve {[0%nat]} 1 [2; 3; 4; 5; 6]%nat
      (prog, fresh_metrics) = Ok (p', metrics') /\
    methods p' !! 1%nat = Some dm' /\
    get_code dm' = Some code' /\
    code' !! 2%nat = Some 7%nat /\
    (4%nat ∉ code') /\
    insns p' !! 7%nat = Some (mkInsn OPCODE_INVOKE_STATIC (Some 0%nat) [] 0 0 0).
Proof.
  destruct (range_degenerate_replaced resolve {[0%nat]} 1 render
              [2; 3; 4; 5; 6]%nat prog fresh_metrics 2 4 call_range 0 0
              eq_refl render_code_NoDup render_code_rewritable eq_refl eq_refl
              eq_refl eq_refl draw_in_set eq_refl eq_refl)
    as (p' & metrics' & p1 & metrics1 & repls & r & dm' & code' & Hfix & _ & _
        & _ & _ & Hnew & Hdm & Hcode & _ & Hk & Hgone).
  assert (Hr : r = 7%nat).
  { vm_compute in Hfix. injection Hfix as <- _.
    vm_compute in Hdm. injection Hdm as <-.
    vm_compute in Hcode. injection Hcode as <-.
    vm_compute in Hk. injection Hk as <-. reflexivity. }
  subst r. exists p', metrics', dm', code'. auto 10.
Defined.

(** X9 on an interface call of draw made through the reference. *)
Lemma only_instance_calls_patched_witness :
  fix_call_sites_fixer resolve {[0%nat]} 1 0 (prog_interface, fresh_metrics)
  = Fail AssertionFailure /\
  drop_this_arg_step resolve {[0%nat]} 0 ((prog_interface, fresh_metrics), [])
  = Fail AssertionFailure.
Proof.
  destruct (only_instance_calls_patched resolve) as [_ H].
  destruct (H 0%nat prog_interface fresh_metrics call_interface 2%nat
              eq_refl eq_refl eq_refl) as [Hkeep Hdrop].
  split.
  - exact (proj1 (Hkeep {[0%nat]} 1%nat 0%nat eq_refl draw_in_set)).
  - exact (proj1 (Hdrop {[0%nat]} [] 0%nat eq_refl draw_in_set)).
Defined.

(** X10 on an explicit call of draw that passes no register. *)
Lemma drop_without_receiver_wraps_witness :
  exists inst',
    drop_this_arg_step resolve {[0%nat]} 0 ((prog_no_receiver, fresh_metrics), [])
    = Ok ((store_insn prog_no_receiver 0 inst',
           count_kind OPCODE_INVOKE_VIRTUAL fresh_metrics), []) /\
    arg_word_count inst' = 65535.
Proof.
  destruct (drop_without_receiver_wraps resolve {[0%nat]} 0 prog_no_receiver
              fresh_metrics [] call_no_receiver 0 0 eq_refl eq_refl eq_refl
              draw_in_set eq_refl) as [Hexplicit _].
  destruct (Hexplicit eq_refl eq_refl) as (inst' & Hrun & _ & Hcount).
  exists inst'. split; [exact Hrun | exact Hcount].
Defined.

Lemma scope_patchable :
  Forall (patchable resolve Virtual {[0%nat]} prog) [0; 1; 2; 3; 4; 5; 6]%nat.
Proof.
  repeat (apply Forall_cons_2;
    [eexists; split; [reflexivity|]; simpl;
     first [exact I
           | eexists; split; [reflexivity|]; simpl; intros _; reflexivity]|]).
  apply Forall_nil_2.
Qed.

Lemma scope_rewritable :
  Forall (rewritable resolve {[0%nat]} prog) [0; 1; 2; 3; 4; 5; 6]%nat.
Proof.
  repeat (apply Forall_cons_2;
    [eexists; split; [reflexivity|]; simpl;
     first [exact I
           | eexists; split; [reflexivity|]; simpl; intros _; reflexivity]|]).
  apply Forall_nil_2.
Qed.

Lemma scope_untargeted (search : MethodSearch) :
  Forall (untargeted resolve search {[1%nat]} prog) [0; 1; 2; 3; 4; 5; 6]%nat.
Proof.
  repeat (apply Forall_cons_2;
    [eexists; split; [reflexivity|]; simpl;
     first [exact I
           | eexists; split; [reflexivity|]; simpl;
             intros Hin; apply elem_of_singleton in Hin; discriminate]|]).
  apply Forall_nil_2.
Qed.

Lemma scope_valid_sites : Forall (valid_site prog) [0; 1; 2; 3; 4; 5; 6]%nat.
Proof.
  repeat (apply Forall_cons_2;
    [eexists; split; [reflexivity|]; intros mref E; simpl in E;
     first [discriminate | injection E as <-; eexists; reflexivity]|]).
  apply Forall_nil_2.
Qed.

(** X1 on the program: the keep-receiver rewrite for draw turns the
    explicit call of render into a static call with the same operands and
    leaves the receiver load of render alone. *)
Lemma keep_rewrite_exactly_once_witness :
  exists p' metrics',
    fix_call_sites resolve scope {[0%nat]} (prog, fresh_metrics)
    = Ok (p', metrics') /\
    insns p' !! 3%nat = Some (mkInsn OPCODE_INVOKE_STATIC (Some 0%nat) [5; 7] 0 0 0) /\
    insns p' !! 2%nat = Some (load_this 5) /\
    methods p' = methods prog.
Proof.
  destruct (keep_rewrite_exactly_once resolve scope {[0%nat]} prog fresh_metrics
              [0; 1; 2; 3; 4; 5; 6]%nat eq_refl scope_code_NoDup
              scope_patchable)
    as (p' & metrics' & Hrun & Hm & _ & _ & Hat).
  exists p', metrics'. split; [exact Hrun|].
  split; [exact (Hat 3%nat call_explicit eq_refl)|].
  split; [exact (Hat 2%nat (load_this 5) eq_refl) | exact Hm].
Defined.

(** X2 on the program: the drop-receiver rewrite for draw leaves render a
    body of five places; the second holds the explicit call, now a static
    call of draw. *)
Lemma drop_rewrite_exactly_once_witness :
  exists p' metrics' (code' : list addr),
    fix_call_sites_and_drop_this_arg resolve scope {[0%nat]}
      (prog, fresh_metrics) = Ok (p', metrics') /\
    methods p' !! 1%nat = Some (set_code render (Some code')) /\
    length code' = 5%nat /\
    code' !! 0%nat = Some 2%nat /\
    insns p' !! 2%nat = Some (load_this 5) /\
    exists a', code' !! 1%nat = Some a' /\ static_call_of p' 0 a'.
Proof.
  destruct (drop_rewrite_exactly_once resolve scope {[0%nat]} prog fresh_metrics
              [0; 3; 1]%nat [0; 1; 2; 3; 4; 5; 6]%nat eq_refl eq_refl
              scope_methods_NoDup scope_code_NoDup
              scope_rewritable)
    as (p' & metrics' & Hrun & _ & _ & Hf & Hbodies).
  destruct (Hbodies 1%nat render ltac:(apply list_elem_of_In; simpl; tauto) eq_refl)
    as (dm' & Hdm' & code' & -> & Hlen & Hplaces).
  exists p', metrics', code'. split; [exact Hrun|]. split; [exact Hdm'|].
  split; [exact Hlen|].
  destruct (Hplaces 0%nat 2%nat eq_refl) as (a0 & Ha0 & E0).
  simpl in E0. subst a0. split; [exact Ha0|].
  split; [apply (Hf 2%nat (load_this 5) eq_refl); right; reflexivity|].
  destruct (Hplaces 1%nat 3%nat eq_refl) as (a1 & Ha1 & E1).
  exists a1. split; [exact Ha1 | exact (proj1 E1)].
Defined.

(** X3 on the program: no instruction calls render, so the rewrites for
    render change nothing. *)
Lemma rewrite_without_call_site_is_identity_witness :
  fix_call_sites resolve scope {[1%nat]} (prog, fresh_metrics)
  = Ok (prog, fresh_metrics) /\
  fix_call_sites_and_drop_this_arg resolve scope {[1%nat]} (prog, fresh_metrics)
  = Ok (prog, fresh_metrics).
Proof.
  destruct (rewrite_without_call_site_is_identity resolve scope prog fresh_metrics
              [0; 3; 1]%nat [0; 1; 2; 3; 4; 5; 6]%nat eq_refl eq_refl)
    as (Hkeep & Hdrop & _).
  split.
  - exact (Hkeep {[1%nat]} (scope_untargeted Virtual)).
  - exact (Hdrop {[1%nat]} (scope_untargeted Any)).
Defined.

(** X4 on the program: all four phases on, no target class. *)
Lemma no_target_class_no_change_witness :
  devirtualize_methods resolve keep_none (monomorphic [0; 3]%nat) all_phases
    scope [] (prog, fresh_metrics)
  = Ok (prog, fresh_metrics).
Proof.
  apply (no_target_class_no_change resolve keep_none (monomorphic [0; 3]%nat)
           all_phases scope prog fresh_metrics [0; 3; 1]%nat
           [0; 1; 2; 3; 4; 5; 6]%nat eq_refl eq_refl scope_valid_sites).
  repeat constructor; eexists; reflexivity.
Defined.

(** X5 on the program: converting draw without its receiver counts one
    method. *)
Lemma report_accumulates_witness :
  exists p' metrics',
    staticize_methods_not_using_this resolve scope {[0%nat]} (prog, fresh_metrics)
    = Ok (p', metrics') /\
    num_methods_not_using_this metrics' = 1%nat /\
    num_methods_using_this metrics' = 0%nat.
Proof.
  destruct (staticize_methods_not_using_this resolve scope {[0%nat]}
              (prog, fresh_metrics)) as [[p' metrics']|e] eqn:Hrun;
    [|vm_compute in Hrun; discriminate].
  destruct (report_accumulates resolve keep_none (monomorphic [0%nat]))
    as (Hnot & _ & _).
  destruct (Hnot scope {[0%nat]} prog fresh_metrics p' metrics' Hrun)
    as (Hn & Hu & _).
  exists p', metrics'. split; [reflexivity|].
  rewrite Hn, Hu, size_singleton. split; reflexivity.
Defined.

(** X6 on the program: render is the direct candidate of the circle. *)
Lemma direct_candidates_characterised_witness :
  exists cands,
    get_devirtualizable_dmethods prog scope [1%nat] = Ok cands /\
    1%nat ∈ cands /\ (0%nat ∉ cands).
Proof.
  destruct (direct_candidates_characterised prog scope [1%nat]) as [Htotal Hspec].
  destruct Htotal as [cands Hcands].
  { intros cls Hscope Htarget. apply list_elem_of_singleton in Htarget. subst cls.
    eexists. split; [reflexivity|]. repeat constructor. eexists. reflexivity. }
  exists cands. split; [exact Hcands|]. split.
  - apply (Hspec cands Hcands). exists 1%nat, (mkClass [1%nat] []).
    split; [apply list_elem_of_In; simpl; tauto|].
    split; [left|]. split; [reflexivity|]. split; [left|].
    exists render. repeat split.
  - intros Hin. apply (Hspec cands Hcands) in Hin
      as (cls & c & _ & Htarget & Hc & Hm & _).
    apply list_elem_of_singleton in Htarget. subst cls.
    injection Hc as <-. simpl in Hm.
    apply list_elem_of_singleton in Hm. discriminate.
Defined.

(** X7 on the program: both virtual methods of the shape are reported and
    declared in the target class. *)
Lemma virtual_candidates_filter_witness :
  get_devirtualizable_vmethods (monomorphic [0; 3]%nat) prog scope [0%nat]
  = Ok [0; 3]%nat.
Proof.
  destruct (virtual_candidates_filter (monomorphic [0; 3]%nat) prog scope [0%nat])
    as [Hdef Hspec].
  destruct (proj2 Hdef) as [cands Hcands].
  { repeat constructor; eexists; reflexivity. }
  rewrite Hcands. f_equal.
  exact (proj1 (Hspec cands Hcands)).
Defined.

(** X8 on the program: the same candidates, repeated and in another
    order. *)
Lemma eligible_set_of_candidates_witness :
  exists found,
    devirtualizable_methods keep_none prog [0; 3; 0]%nat = Ok found /\
    devirtualizable_methods keep_none prog [3; 0]%nat = Ok found.
Proof.
  destruct (eligible_set_of_candidates keep_none prog [0; 3; 0]%nat)
    as [Hdef Hspec].
  destruct (proj2 Hdef) as [found Hfound].
  { repeat constructor; eexists; reflexivity. }
  exists found. split; [exact Hfound|].
  apply (proj2 (Hspec found Hfound)).
  intros m. rewrite !list_elem_of_In. simpl. tauto.
Defined.

(** X11 on the program: draw, converted with its receiver, is static. *)
Lemma run_keeps_static_witness :
  exists st',
    staticize_methods_using_this resolve scope {[0%nat]} (prog, fresh_metrics)
    = Ok st' /\
    static_at st'.1 0.
Proof.
  destruct (staticize_methods_using_this resolve scope {[0%nat]}
              (prog, fresh_metrics)) as [st'|e] eqn:Hrun;
    [|vm_compute in Hrun; discriminate].
  destruct (run_keeps_static resolve keep_none (monomorphic [0%nat])) as [_ H].
  destruct (H scope {[0%nat]} (prog, fresh_metrics) st' (or_intror Hrun))
    as [_ Hstatic].
  exists st'. split; [reflexivity|].
  apply Hstatic, draw_in_set.
Defined.

Lemma prog_heap_wf : heap_wf prog.
Proof.
  intros a inst Ha.
  do 7 (destruct a as [|a];
        [injection Ha as <-;
         (split; [constructor; simpl; unfold u16; try lia;
                  repeat constructor; lia
                 | intros H; first [discriminate H | vm_compute; discriminate]])|]).
  discriminate Ha.
Qed.

(** X12 on the program: the heap after the drop-receiver rewrite for
    draw. *)
Lemma rewrites_keep_heap_well_formed_witness :
  exists st',
    fix_call_sites_and_drop_this_arg resolve scope {[0%nat]}
      (prog, fresh_metrics) = Ok st' /\
    heap_wf st'.1.
Proof.
  destruct (fix_call_sites_and_drop_this_arg resolve scope {[0%nat]}
              (prog, fresh_metrics)) as [st'|e] eqn:Hrun;
    [|vm_compute in Hrun; discriminate].
  exists st'. split; [reflexivity|].
  exact (proj2 (rewrites_keep_heap_well_formed resolve) scope {[0%nat]}
           (prog, fresh_metrics) st' Hrun prog_heap_wf).
Defined.

(** X13 on the program with an abstract method among the candidates. *)
Lemma classification_returns_iff_witness :
  exists found,
    devirtualizable_methods_not_using_this keep_none prog_abstract [0; 3]%nat
    = Ok found.
Proof.
  apply (proj2 (classification_returns_iff keep_none prog_abstract [0; 3]%nat)).
  split.
  - repeat constructor; eexists; reflexivity.
  - intros m Hm (dm & Hdm & _ & _ & Habs).
    apply list_elem_of_In in Hm. simpl in Hm.
    destruct Hm as [<-|[<-|[]]].
    + exists false. reflexivity.
    + injection Hdm as <-. discriminate Habs.
Defined.

End ScenarioFacts.
